(** * FlowBatchPilot: the queue orchestration core and the download path

    A verification development over the content script (the class
    [FlowBatchContentScript]), the popup controller and the background
    download handler.

    - JavaScript strings are sequences of UTF-16 code units ([jsstring]).
    - The persisted queue state is a JavaScript object whose keys may be
      missing ([QueueState], every field optional); [spread] is the
      object spread [{...a, ...b}].
    - [async] functions are programs of a small monad ([Async]) whose
      suspension points are the [await]s of the source; the event loop
      is a scheduler that resumes one suspended function at a time. *)

From Stdlib Require Import ZArith NArith List Lia Bool String Ascii DecimalString
  DecimalZ DecimalPos.
From stdpp Require Import base option list gmap.

#[local] Open Scope Z_scope.

(** ** JavaScript strings *)

Module JsString.

(** A string is its sequence of UTF-16 code units. *)
Definition jsstring : Type := list N.

Definition lit (s : string) : jsstring :=
  map N_of_ascii (list_ascii_of_string s).

(** Code units that [String.prototype.trim] strips and that the
    regular expression class [\s] matches: WhiteSpace and
    LineTerminator of the language specification. *)
Definition is_ws (c : N) : bool :=
  (   (9 <=? c) && (c <=? 13)
   || (c =? 32) || (c =? 160) || (c =? 5760)
   || (8192 <=? c) && (c <=? 8202)
   || (c =? 8232) || (c =? 8233) || (c =? 8239) || (c =? 8287)
   || (c =? 12288) || (c =? 65279))%N.

Fixpoint trim_start (s : jsstring) : jsstring :=
  match s with
  | [] => []
  | c :: s' => if is_ws c then trim_start s' else s
  end.

Definition trim (s : jsstring) : jsstring :=
  rev (trim_start (rev (trim_start s))).

(** [s.split(/\s+/)]: the pieces between maximal runs of white space;
    [cur] is the piece being read (reversed), [skipping] tells that the
    previous code unit belonged to a separator. *)
Fixpoint split_ws_go (cur : jsstring) (skipping : bool) (s : jsstring)
  : list jsstring :=
  match s with
  | [] => [rev cur]
  | c :: s' =>
      if is_ws c then
        if skipping then split_ws_go cur true s'
        else rev cur :: split_ws_go [] true s'
      else split_ws_go (c :: cur) false s'
  end.

Definition split_ws (s : jsstring) : list jsstring := split_ws_go [] false s.

(** [words.join(sep)] *)
Fixpoint join (sep : jsstring) (ws : list jsstring) : jsstring :=
  match ws with
  | [] => []
  | [w] => w
  | w :: ws' => w ++ sep ++ join sep ws'
  end.

(** [s.slice(0, n)] for [0 <= n]. *)
Definition slice0 (n : nat) (s : jsstring) : jsstring := firstn n s.

(** Template-literal rendering of an integer. *)
Definition of_Z (z : Z) : jsstring :=
  lit (NilZero.string_of_int (Z.to_int z)).

(** [x || d] on a possibly missing string: the empty string is falsy. *)
Definition or_default (x : option jsstring) (d : jsstring) : jsstring :=
  match x with
  | Some (c :: s) => c :: s
  | _ => d
  end.

End JsString.
Import JsString.

(** ** File names of downloads (launcher.js background part, content script) *)

Module Download.

(** The character class of both regular expressions, by code unit:
    backslash, slash, colon, star, question mark, double quote, less,
    greater, bar. *)
Definition forbidden_codes : list N := [92; 47; 58; 42; 63; 34; 60; 62; 124]%N.

Definition forbidden (c : N) : bool := existsb (N.eqb c) forbidden_codes.

Definition underscore : N := 95%N.

(** [s.replace(re, '_')] with the global flag: every match is replaced. *)
Definition replace_forbidden (s : jsstring) : jsstring :=
  map (fun c => if forbidden c then underscore else c) s.

Definition default_name : jsstring := lit "flow_video.mp4".

(** launcher.js, [sanitizeFilename(name)]. *)
Definition sanitizeFilename (name : option jsstring) : jsstring :=
  let n := or_default name default_name in
  let n := replace_forbidden n in
  match trim n with
  | [] => default_name
  | _ => n
  end.

Definition no_prompt : jsstring := lit "no_prompt".

(** Content script, [generatePromptSnippet(prompt)]. *)
Definition generatePromptSnippet (prompt : option jsstring) : jsstring :=
  match prompt with
  | None | Some [] => no_prompt
  | Some p =>
      let words := split_ws (trim p) in
      let snippet :=
        if (1 <? length words)%nat
        then join [underscore] (firstn 5 words)
        else slice0 15 (trim p) in
      or_default (Some (replace_forbidden snippet)) no_prompt
  end.

(** Content script, [downloadVideo]: the name put in the
    FLOW_BATCH_DOWNLOAD message; [now] is [Date.now()]. *)
Definition download_request_name (taskIndex : Z) (prompt : option jsstring)
    (now : Z) : jsstring :=
  of_Z (taskIndex + 1) ++ [underscore] ++ generatePromptSnippet prompt
    ++ [underscore] ++ of_Z now ++ lit ".mp4".

(** Background handler of FLOW_BATCH_DOWNLOAD: the [filename] option
    given to [chrome.downloads.download], or nothing when the message
    has no URL (the handler answers with an error and downloads
    nothing). *)
Definition download_api_filename (url filename : option jsstring)
  : option jsstring :=
  match url with
  | None | Some [] => None
  | Some _ => Some (sanitizeFilename (Some (or_default filename default_name)))
  end.

(** Empty, or white space only. *)
Definition blank (s : jsstring) : bool := forallb is_ws s.

(** A name with none of the nine characters that is not blank. *)
Definition clean (s : jsstring) : Prop :=
  Forall (fun c => forbidden c = false) s /\ blank s = false.

(** The same of a download that may not take place. *)
Definition clean_if_any (name : option jsstring) : Prop :=
  match name with
  | Some s => clean s
  | None => True
  end.

End Download.

(** ** The persisted records and the state of the content script *)

Module Model.

(** [flowBatchQueueState]: a JavaScript object; a missing key reads as
    [undefined]. *)
Record QueueState : Type := mkQueueState {
  totalTasks : option Z;
  currentIndex : option Z;
  running : option bool;
  paused : option bool;
  successCount : option Z;
  failCount : option Z;
  pendingTasks : option Z;
  flowMode : option jsstring;
  cropMode : option jsstring;
  createdAt : option Z;
  queueId : option jsstring
}.

(** The object literal [{}]. *)
Definition empty_object : QueueState :=
  mkQueueState None None None None None None None None None None None.

(** One key of [{...a, ...b}]: the key of [b] when it has one. *)
Definition override {A} (b a : option A) : option A :=
  match b with Some v => Some v | None => a end.

(** [{...a, ...b}] *)
Definition spread (a b : QueueState) : QueueState :=
  {| totalTasks := override (totalTasks b) (totalTasks a);
     currentIndex := override (currentIndex b) (currentIndex a);
     running := override (running b) (running a);
     paused := override (paused b) (paused a);
     successCount := override (successCount b) (successCount a);
     failCount := override (failCount b) (failCount a);
     pendingTasks := override (pendingTasks b) (pendingTasks a);
     flowMode := override (flowMode b) (flowMode a);
     cropMode := override (cropMode b) (cropMode a);
     createdAt := override (createdAt b) (createdAt a);
     queueId := override (queueId b) (queueId a) |}.

(** Assignments [state.key = v] and the keys of object literals. *)
Definition set_totalTasks v (s : QueueState) : QueueState :=
  mkQueueState (Some v) (currentIndex s) (running s) (paused s) (successCount s)
    (failCount s) (pendingTasks s) (flowMode s) (cropMode s) (createdAt s) (queueId s).
Definition set_currentIndex v (s : QueueState) : QueueState :=
  mkQueueState (totalTasks s) (Some v) (running s) (paused s) (successCount s)
    (failCount s) (pendingTasks s) (flowMode s) (cropMode s) (createdAt s) (queueId s).
Definition set_running v (s : QueueState) : QueueState :=
  mkQueueState (totalTasks s) (currentIndex s) (Some v) (paused s) (successCount s)
    (failCount s) (pendingTasks s) (flowMode s) (cropMode s) (createdAt s) (queueId s).
Definition set_paused v (s : QueueState) : QueueState :=
  mkQueueState (totalTasks s) (currentIndex s) (running s) (Some v) (successCount s)
    (failCount s) (pendingTasks s) (flowMode s) (cropMode s) (createdAt s) (queueId s).
Definition set_successCount v (s : QueueState) : QueueState :=
  mkQueueState (totalTasks s) (currentIndex s) (running s) (paused s) (Some v)
    (failCount s) (pendingTasks s) (flowMode s) (cropMode s) (createdAt s) (queueId s).
Definition set_failCount v (s : QueueState) : QueueState :=
  mkQueueState (totalTasks s) (currentIndex s) (running s) (paused s) (successCount s)
    (Some v) (pendingTasks s) (flowMode s) (cropMode s) (createdAt s) (queueId s).
Definition set_pendingTasks v (s : QueueState) : QueueState :=
  mkQueueState (totalTasks s) (currentIndex s) (running s) (paused s) (successCount s)
    (failCount s) (Some v) (flowMode s) (cropMode s) (createdAt s) (queueId s).
Definition set_flowMode v (s : QueueState) : QueueState :=
  mkQueueState (totalTasks s) (currentIndex s) (running s) (paused s) (successCount s)
    (failCount s) (pendingTasks s) (Some v) (cropMode s) (createdAt s) (queueId s).
Definition set_cropMode v (s : QueueState) : QueueState :=
  mkQueueState (totalTasks s) (currentIndex s) (running s) (paused s) (successCount s)
    (failCount s) (pendingTasks s) (flowMode s) (Some v) (createdAt s) (queueId s).
Definition set_createdAt v (s : QueueState) : QueueState :=
  mkQueueState (totalTasks s) (currentIndex s) (running s) (paused s) (successCount s)
    (failCount s) (pendingTasks s) (flowMode s) (cropMode s) (Some v) (queueId s).
Definition set_queueId v (s : QueueState) : QueueState :=
  mkQueueState (totalTasks s) (currentIndex s) (running s) (paused s) (successCount s)
    (failCount s) (pendingTasks s) (flowMode s) (cropMode s) (createdAt s) (Some v).

(** [x || 0] on a number that may be missing. *)
Definition or0 (x : option Z) : Z := default 0 x.

(** Truthiness of a boolean that may be missing. *)
Definition truthy (x : option bool) : bool := default false x.

(** Relational operators: a comparison with [undefined] is false. *)
Definition js_ge (x : option Z) (y : Z) : bool :=
  match x with Some a => y <=? a | None => false end.
Definition js_lt (x y : option Z) : bool :=
  match x, y with Some a, Some b => a <? b | _, _ => false end.

(** [x !== n] for a number [n]. *)
Definition js_strict_ne (x : option Z) (n : Z) : bool :=
  match x with Some a => negb (a =? n) | None => true end.

(** [flowBatchTaskMetadata], as the popup writes it; a record found in
    the store may lack its prompt list. *)
Record TaskMetadata : Type := mkTaskMetadata {
  md_totalTasks : Z;
  md_promptList : option (list jsstring);
  md_filenameList : list jsstring;
  md_flowMode : jsstring;
  md_cropMode : jsstring;
  md_createdAt : Z;
  md_queueId : jsstring
}.

(** [FlowBatchContentScript.CONFIG] *)
Definition QUEUE_LIMIT : Z := 4.
Definition QUEUE_CAPACITY_TIMEOUT : Z := 120 * 1000.
Definition QUEUE_THROTTLE_DELAY : Z := 60 * 1000.
Definition TASK_DELAY : Z := 300.
Definition CLICK_DELAY : Z := 200.
Definition PENDING_TASKS_WAIT : Z := 5000.
Definition QUEUE_CHECK_INTERVAL : Z := 500.

(** Steps of the task executor and of the page that the scheduler
    awaits; what they answer is the environment's choice. *)
Inductive ExecCall : Type :=
| XEnsureMode (mode : jsstring)
| XRequestFile (index : Z)
| XUploadImage
| XCropModal
| XInputPrompt
| XFindSubmit                 (* is there an enabled submit button? *)
| XSubmit                     (* the click on it *)
| XWaitForGeneration (index : Z) (videoCountBeforeSubmit : Z)
| XDownload (url filename : jsstring).

Inductive Reply : Type :=
| ROk
| RFail                       (* the awaited promise is rejected *)
| RFile (named : bool)        (* file data, with or without a name *)
| RNoFile
| RUrl (url : jsstring).

Inductive Err : Type :=
| EInvalidIndex (index total : Z)
| ETypeError
| ENoFileData (index : Z)
| ESubmitNotFound
| ERejected (c : ExecCall).

(** Asynchronous methods started without being awaited. *)
Inductive ThreadSpec : Type :=
| SStartQueue (metadata : TaskMetadata)     (* FLOW_BATCH_START *)
| SPauseQueue                               (* FLOW_BATCH_PAUSE *)
| SClearQueue                               (* FLOW_BATCH_CLEAR *)
| SAutoResume                               (* from the constructor *)
| SProcessQueue (resumed : bool)
| SWatch (taskIndex : Z) (prompt : jsstring) (videoCountBeforeSubmit : Z).

(** What a suspended function waits for. *)
Inductive Wait : Type :=
| WSleep (ms : Z)                 (* setTimeout *)
| WStorage                        (* callback of a chrome.storage call *)
| WPromise (p : nat)              (* a promise of this script *)
| WExec (c : ExecCall)
| WStart (s : ThreadSpec)         (* a call that is not awaited *)
| WLap.                           (* a loop lap that did not suspend *)

Inductive Level : Type := info | warning | error | success.

(** Log lines and messages to the popup, by their meaning. *)
Inductive Msg : Type :=
| MStartRequested | MForceClearing | MPendingWarning | MNewQueueCache (id : Z)
| MStartingFresh (total : Z) | MQueueStartError
| MQueuePaused | MQueueCleared
| MCapacityFull (pending : Z) | MCapacityTimeout | MCapacityStopped
| MCapacityPaused | MCapacityRecheck | MCapacityFree (pending : Z)
| MProcessingStarted | MStateMissing | MWaitingPending (pending : Z)
| MQueueCompleted | MSyncPointer (from to : Z) | MProcessingTask (index : Z)
| MTaskAdvanced (index : Z) | MLoopError (e : Err) | MLoopStopped | MLoopExited
| MProcessingError (e : Err)
| MTaskBegin (index : Z) | MRequestingFile (index : Z) | MFileReceived (index : Z)
| MUploaded | MCropped | MPromptEntered | MVideoCount (n : Z)
| MLookingForSubmit | MSubmitFound | MWaitingSubmit | MStillFull
| MClickingSubmit | MSubmitClicked
| MSubmitted (pending : Z) | MTaskFailed (index : Z) (e : Err)
| MWatchBackgroundError (index : Z)
| MWatchBegin (index : Z) | MGenerationDone (index : Z)
| MDownloadSent (index : Z) | MDownloadRequestFailed (index : Z) (e : Err)
| MDownloadStarted | MDownloadRejected
| MTaskDone (index : Z) | MSuccessMismatch (expected actual : Z)
| MSuccessRepairFailed | MSuccessRepaired
| MStateUpdated (index successes pending : Z) | MCapacityAvailable (pending : Z)
| MWatchFailed (index : Z) (e : Err) | MQueueUpdatedOnFailure (pending : Z)
| MAutoResuming | MMetadataMissing | MModeCheckFailed | MResumeError
| MMarkedCompleted | MAutoResumeFailed.

(** What the script sends out, newest first. *)
Inductive Event : Type :=
| Log (l : Level) (m : Msg)                 (* this.log *)
| ToPopup (l : Level) (m : Msg)             (* this.logToPopup *)
| StatusUpdate (s : QueueState)             (* FLOW_BATCH_STATUS_UPDATE *)
| DownloadRequest (url filename : jsstring). (* FLOW_BATCH_DOWNLOAD *)

(** The extension's local storage, the fields of the content script
    object, the promises it made, the clock and the page. *)
Record Mem : Type := mkMem {
  flowBatchQueueState : option QueueState;
  flowBatchTaskMetadata : option TaskMetadata;
  queueRunning : bool;
  currentTaskPointer : Z;
  currentQueueId : option Z;
  metadata : option TaskMetadata;
  updatingState : option nat;
  promises : nat;
  resolved : gset nat;
  now : Z;
  videoCards : Z;
  events : list Event
}.

End Model.

(** ** The popup controller *)

Module Popup.
Import Model.

(** popup.js, [startQueue()]: the queue state and the metadata it
    builds, and then stores and sends with FLOW_BATCH_START when every
    file of the tasks can be read (the preloading of the files, which
    a file that cannot be read ends with an error, is part of
    [PopupFiles.startQueue_prepare]); [prompts] is the value of
    [getPrompts()], [filenames] the names of the chosen files, [t0] and
    [t1] its two readings of [Date.now()].  Without a task it reports
    an error and neither stores nor sends anything. *)
Definition startQueue (t0 t1 : Z) (prompts filenames : list jsstring)
    (flowMode cropMode : jsstring) : option (QueueState * TaskMetadata) :=
  let taskCount := Nat.min (length prompts) (length filenames) in
  match taskCount with
  | O => None
  | _ =>
      let queueId := of_Z t0 in
      let md :=
        {| md_totalTasks := Z.of_nat taskCount;
           md_promptList := Some (firstn taskCount prompts);
           md_filenameList := firstn taskCount filenames;
           md_flowMode := flowMode;
           md_cropMode := cropMode;
           md_createdAt := t1;
           md_queueId := queueId |} in
      let queueState :=
        {| totalTasks := Some (Z.of_nat taskCount);
           currentIndex := Some 0;
           running := Some true;
           paused := Some false;
           successCount := Some 0;
           failCount := Some 0;
           pendingTasks := Some 0;
           flowMode := Some flowMode;
           cropMode := Some cropMode;
           createdAt := Some t1;
           queueId := Some queueId |} in
      Some (queueState, md)
  end.

End Popup.

(** ** Asynchronous functions and the event loop *)

Module Async.
Import Model.

(** Field updates of the script state. *)
Definition with_queueState v (m : Mem) : Mem :=
  mkMem v (flowBatchTaskMetadata m) (queueRunning m) (currentTaskPointer m)
    (currentQueueId m) (metadata m) (updatingState m) (promises m) (resolved m)
    (now m) (videoCards m) (events m).
Definition with_taskMetadata v (m : Mem) : Mem :=
  mkMem (flowBatchQueueState m) v (queueRunning m) (currentTaskPointer m)
    (currentQueueId m) (metadata m) (updatingState m) (promises m) (resolved m)
    (now m) (videoCards m) (events m).
Definition with_queueRunning v (m : Mem) : Mem :=
  mkMem (flowBatchQueueState m) (flowBatchTaskMetadata m) v (currentTaskPointer m)
    (currentQueueId m) (metadata m) (updatingState m) (promises m) (resolved m)
    (now m) (videoCards m) (events m).
Definition with_currentTaskPointer v (m : Mem) : Mem :=
  mkMem (flowBatchQueueState m) (flowBatchTaskMetadata m) (queueRunning m) v
    (currentQueueId m) (metadata m) (updatingState m) (promises m) (resolved m)
    (now m) (videoCards m) (events m).
Definition with_currentQueueId v (m : Mem) : Mem :=
  mkMem (flowBatchQueueState m) (flowBatchTaskMetadata m) (queueRunning m)
    (currentTaskPointer m) v (metadata m) (updatingState m) (promises m)
    (resolved m) (now m) (videoCards m) (events m).
Definition with_metadata v (m : Mem) : Mem :=
  mkMem (flowBatchQueueState m) (flowBatchTaskMetadata m) (queueRunning m)
    (currentTaskPointer m) (currentQueueId m) v (updatingState m) (promises m)
    (resolved m) (now m) (videoCards m) (events m).
Definition with_updatingState v (m : Mem) : Mem :=
  mkMem (flowBatchQueueState m) (flowBatchTaskMetadata m) (queueRunning m)
    (currentTaskPointer m) (currentQueueId m) (metadata m) v (promises m)
    (resolved m) (now m) (videoCards m) (events m).
Definition with_promises v (m : Mem) : Mem :=
  mkMem (flowBatchQueueState m) (flowBatchTaskMetadata m) (queueRunning m)
    (currentTaskPointer m) (currentQueueId m) (metadata m) (updatingState m) v
    (resolved m) (now m) (videoCards m) (events m).
Definition with_resolved v (m : Mem) : Mem :=
  mkMem (flowBatchQueueState m) (flowBatchTaskMetadata m) (queueRunning m)
    (currentTaskPointer m) (currentQueueId m) (metadata m) (updatingState m)
    (promises m) v (now m) (videoCards m) (events m).
Definition with_now v (m : Mem) : Mem :=
  mkMem (flowBatchQueueState m) (flowBatchTaskMetadata m) (queueRunning m)
    (currentTaskPointer m) (currentQueueId m) (metadata m) (updatingState m)
    (promises m) (resolved m) v (videoCards m) (events m).
Definition with_videoCards v (m : Mem) : Mem :=
  mkMem (flowBatchQueueState m) (flowBatchTaskMetadata m) (queueRunning m)
    (currentTaskPointer m) (currentQueueId m) (metadata m) (updatingState m)
    (promises m) (resolved m) (now m) v (events m).
Definition with_events v (m : Mem) : Mem :=
  mkMem (flowBatchQueueState m) (flowBatchTaskMetadata m) (queueRunning m)
    (currentTaskPointer m) (currentQueueId m) (metadata m) (updatingState m)
    (promises m) (resolved m) (now m) (videoCards m) v.

(** An asynchronous function body: synchronous code ([Act]) between
    suspension points ([Await]), with exceptions and loops. *)
Inductive Async : Type -> Type :=
| Ret {R} (r : R) : Async R
| Throw {R} (e : Err) : Async R
| Act {R} (f : Mem -> R * Mem) : Async R
| Await (w : Wait) : Async Reply
| Bind {A R} (p : Async A) (k : A -> Async R) : Async R
| TryCatch {R} (p : Async R) (h : Err -> Async R) : Async R
| Iter {I R} (body : I -> Async (I + R)) (i : I) : Async R.

(** Where a function stands once its synchronous code has run. *)
Inductive Status (R : Type) : Type :=
| SDone (r : R)
| SFail (e : Err)
| SBlocked (w : Wait) (k : Reply -> Async R).
Arguments SDone {R} r.
Arguments SFail {R} e.
Arguments SBlocked {R} w k.

Definition iter_next {I R} (body : I -> Async (I + R)) (x : I + R) : Async R :=
  match x with
  | inl i => Iter body i
  | inr r => Ret r
  end.

(** Run the synchronous code of [p] up to its next suspension. *)
Fixpoint advance {R} (p : Async R) (m : Mem) {struct p} : Mem * Status R :=
  match p in Async R return Mem * Status R with
  | Ret r => (m, SDone r)
  | Throw e => (m, SFail e)
  | Act f => let '(r, m') := f m in (m', SDone r)
  | Await w => (m, SBlocked w (fun r => Ret r))
  | Bind p k =>
      match advance p m with
      | (m', SDone a) => advance (k a) m'
      | (m', SFail e) => (m', SFail e)
      | (m', SBlocked w k') => (m', SBlocked w (fun r => Bind (k' r) k))
      end
  | TryCatch p h =>
      match advance p m with
      | (m', SDone r) => (m', SDone r)
      | (m', SFail e) => advance (h e) m'
      | (m', SBlocked w k') => (m', SBlocked w (fun r => TryCatch (k' r) h))
      end
  | Iter body i =>
      match advance (body i) m with
      | (m', SDone (inl i')) => (m', SBlocked WLap (fun _ => Iter body i'))
      | (m', SDone (inr r)) => (m', SDone r)
      | (m', SFail e) => (m', SFail e)
      | (m', SBlocked w k') =>
          (m', SBlocked w (fun r => Bind (k' r) (iter_next body)))
      end
  end.

Declare Scope async_scope.
Delimit Scope async_scope with async.
Bind Scope async_scope with Async.
Notation "x <- p ;; q" := (Bind p (fun x => q))
  (at level 20, p at level 99, q at level 200, only parsing) : async_scope.
Notation "p ;; q" := (Bind p (fun _ => q))
  (at level 100, q at level 200, only parsing, right associativity) : async_scope.
#[local] Open Scope async_scope.

Definition get {A} (f : Mem -> A) : Async A := Act (fun m => (f m, m)).
Definition modify (f : Mem -> Mem) : Async unit := Act (fun m => (tt, f m)).
Definition emit (e : Event) : Async unit :=
  modify (fun m => with_events (e :: events m) m).
Definition log (m : Msg) (l : Level) : Async unit := emit (Log l m).
Definition logToPopup (m : Msg) (l : Level) : Async unit := emit (ToPopup l m).
Definition skip : Async unit := Ret ().
Definition when (b : bool) (p : Async unit) : Async unit := if b then p else skip.

(** [await this.sleep(ms)] *)
Definition sleep (ms : Z) : Async unit := Await (WSleep ms) ;; skip.

(** A call whose promise is not awaited: the callee runs up to its
    first suspension, then the caller goes on. *)
Definition start (s : ThreadSpec) : Async unit := Await (WStart s) ;; skip.

(** Where a function of the event loop stands. *)
Inductive Thread : Type :=
| Suspended (w : Wait) (since : Z) (k : Reply -> Async unit)
| Finished
| Crashed (e : Err)
| Starved.

(** A function of the event loop, with the call it comes from. *)
Record Task : Type := mkTask { origin : ThreadSpec; state : Thread }.

Record Config : Type := mkConfig { mem : Mem; threads : list Task }.

(** Messages of the popup to the content script. *)
Inductive Command : Type :=
| CmdStart (metadata : TaskMetadata)
| CmdPause
| CmdClear.

Definition handler (c : Command) : ThreadSpec :=
  match c with
  | CmdStart md => SStartQueue md
  | CmdPause => SPauseQueue
  | CmdClear => SClearQueue
  end.

(** What the environment does between two turns of the event loop. *)
Inductive Action : Type :=
| Resume (tid : nat) (r : Reply)   (* the awaited thing of [tid] happened *)
| Tick (ms : Z)                    (* time passes *)
| Deliver (c : Command)            (* chrome.runtime.onMessage *)
| Reload                           (* the page is loaded again *)
| PageVideos (n : Z)               (* the page shows [n] result cards *)
| PopupStart (prompts filenames : list jsstring) (flowMode cropMode : jsstring).
                                   (* the start button of the popup *)

(** Answers a step of the executor can give. *)
Definition answers (c : ExecCall) (r : Reply) : bool :=
  match c, r with
  | XRequestFile _, (RFile _ | RNoFile | RFail) => true
  | XWaitForGeneration _ _, (RUrl _ | RFail) => true
  | (XEnsureMode _ | XUploadImage | XCropModal | XInputPrompt | XFindSubmit
     | XSubmit | XDownload _ _), (ROk | RFail) => true
  | _, _ => false
  end.

(** May the function waiting for [w] since [since] go on with [r]? *)
Definition ready (m : Mem) (w : Wait) (since : Z) (r : Reply) : bool :=
  match w, r with
  | WSleep ms, ROk => since + ms <=? now m
  | WStorage, ROk => true
  | WPromise p, ROk => bool_decide (p ∈ resolved m)
  | WExec c, r => answers c r
  | WLap, ROk => true
  | _, _ => false
  end.

(** The page reload destroys the script object; storage stays. *)
Definition reloaded (m : Mem) : Mem :=
  mkMem (flowBatchQueueState m) (flowBatchTaskMetadata m) false 0 None None None
    (promises m) (resolved m) (now m) (videoCards m) (events m).

(** May [ms] milliseconds pass while function [t] waits?  Not when its
    storage callback or its promise has come, which the event loop runs
    at once, and not beyond the time its timer fires. *)
Definition allows (ms : Z) (m : Mem) (t : Task) : bool :=
  match state t with
  | Suspended (WSleep d) since _ => now m + ms <=? since + d
  | Suspended WStorage _ _ => false
  | Suspended WLap _ _ => false
  | Suspended (WPromise p) _ _ => negb (bool_decide (p ∈ resolved m))
  | _ => true
  end.

Definition may_pass (ms : Z) (c : Config) : bool :=
  (0 <=? ms) && (forallb (allows ms (mem c)) (threads c) || (ms =? 0)).

Section EventLoop.

(** The body of each function that is started without [await]. *)
Variable program : ThreadSpec -> Async unit.

(** One turn: run [p] until it suspends; functions it starts run
    their synchronous beginning at the call.  The result lists the
    started functions after the caller's own state. *)
Fixpoint drive (fuel : nat) (p : Async unit) (m : Mem)
  : Mem * Thread * list Task :=
  match advance p m with
  | (m1, SDone _) => (m1, Finished, [])
  | (m1, SFail e) => (m1, Crashed e, [])
  | (m1, SBlocked (WStart s) k) =>
      match fuel with
      | O => (m1, Starved, [])
      | S fuel' =>
          let '(m2, child, grand) := drive fuel' (program s) m1 in
          let '(m3, me, born) := drive fuel' (k ROk) m2 in
          (m3, me, mkTask s child :: grand ++ born)
      end
  | (m1, SBlocked w k) => (m1, Suspended w (now m1) k, [])
  end.

Definition turn_fuel : nat := 8.

(** Call [s] without awaiting it. *)
Definition spawn (s : ThreadSpec) (c : Config) : Config :=
  let '(m', me, born) := drive turn_fuel (program s) (mem c) in
  mkConfig m' (threads c ++ mkTask s me :: born).

Definition step (a : Action) (c : Config) : option Config :=
  match a with
  | Resume tid r =>
      match threads c !! tid with
      | Some (mkTask o (Suspended w since k)) =>
          if ready (mem c) w since r then
            let '(m', me, born) := drive turn_fuel (k r) (mem c) in
            Some (mkConfig m' (<[tid := mkTask o me]> (threads c) ++ born))
          else None
      | _ => None
      end
  | Tick ms =>
      if may_pass ms c
      then Some (mkConfig (with_now (now (mem c) + ms) (mem c)) (threads c))
      else None
  | Deliver cmd => Some (spawn (handler cmd) c)
  | Reload => Some (spawn SAutoResume (mkConfig (reloaded (mem c)) []))
  | PageVideos n =>
      Some (mkConfig (with_videoCards n (mem c)) (threads c))
  | PopupStart prompts filenames flowMode cropMode =>
      let t := now (mem c) in
      match Popup.startQueue t t prompts filenames flowMode cropMode with
      | None => Some c
      | Some (queueState, md) =>
          let m1 :=
            with_taskMetadata (Some md)
              (with_queueState (Some queueState) (mem c)) in
          Some (spawn (SStartQueue md) (mkConfig m1 (threads c)))
      end
  end.

Fixpoint run (schedule : list Action) (c : Config) : option Config :=
  match schedule with
  | [] => Some c
  | a :: rest =>
      match step a c with
      | Some c' => run rest c'
      | None => None
      end
  end.

End EventLoop.

End Async.

(** ** The content script *)

Module Script.
Import Model Async Download.
#[local] Open Scope async_scope.

(** [await chrome.storage.local.get(..)]: storage answers its callers
    in the order of their calls, so the value is the one at the call. *)
Definition loadQueueState : Async (option QueueState) :=
  result <- get flowBatchQueueState ;;
  Await WStorage ;;
  Ret result.

Definition storage_get_metadata : Async (option TaskMetadata) :=
  result <- get flowBatchTaskMetadata ;;
  Await WStorage ;;
  Ret result.

(** [await chrome.storage.local.set({ flowBatchQueueState: s })] *)
Definition storage_set_queueState (s : QueueState) : Async unit :=
  modify (with_queueState (Some s)) ;;
  Await WStorage ;;
  skip.

(** [await chrome.storage.local.remove([both keys])] *)
Definition storage_remove_queue : Async unit :=
  modify (fun m => with_taskMetadata None (with_queueState None m)) ;;
  Await WStorage ;;
  skip.

Definition new_promise : Async nat :=
  Act (fun m => (promises m, with_promises (S (promises m)) m)).

(** The [finally] block of [updateQueueState], after which the promise
    of the update settles. *)
Definition release (p : nat) : Async unit :=
  modify (with_updatingState None) ;;
  modify (fun m => with_resolved ({[ p ]} ∪ resolved m) m).

(** [updateQueueState(updates)] *)
Definition updateQueueState (updates : QueueState) : Async QueueState :=
  lock <- get updatingState ;;
  match lock with
  | Some p => Await (WPromise p) ;; skip
  | None => skip
  end ;;
  p <- new_promise ;;
  modify (with_updatingState (Some p)) ;;
  TryCatch
    (currentState <- loadQueueState ;;
     let newState := spread (default empty_object currentState) updates in
     storage_set_queueState newState ;;
     emit (StatusUpdate newState) ;;
     release p ;;
     Ret newState)
    (fun e => release p ;; Throw e).

(** [promise.catch(() => {})] *)
Definition ignore_errors {A} (p : Async A) : Async unit :=
  TryCatch (p ;; skip) (fun _ => skip).

(** An awaited step of the executor; a rejection is thrown. *)
Definition call (c : ExecCall) : Async Reply :=
  r <- Await (WExec c) ;;
  match r with
  | RFail => Throw (ERejected c)
  | _ => Ret r
  end.

Definition ensureCorrectMode (mode : jsstring) : Async unit :=
  call (XEnsureMode mode) ;; skip.

(** [{ running: false, paused: false, pendingTasks: 0 }] *)
Definition stopped : QueueState :=
  set_running false (set_paused false (set_pendingTasks 0 empty_object)).

Definition has_running (s : option QueueState) : bool :=
  match s with Some s => truthy (running s) | None => false end.

(** [handleStartQueue(metadata)] *)
Definition handleStartQueue (md : TaskMetadata) : Async unit :=
  log MStartRequested info ;;
  (* STEP 1 *)
  modify (with_queueRunning false) ;;
  (* STEP 2 *)
  ignore_errors (updateQueueState stopped) ;;
  (* STEP 3 *)
  sleep 800 ;;
  (* STEP 4 *)
  modify (with_queueRunning false) ;;
  currentState <- loadQueueState ;;
  when (has_running currentState)
    (log MForceClearing warning ;;
     ignore_errors
       (updateQueueState
          (set_running false (set_paused false (set_pendingTasks 0
             (set_currentIndex 0 (set_successCount 0
                (set_failCount 0 empty_object))))))) ;;
     sleep 300) ;;
  (* STEP 5 *)
  finalState <- loadQueueState ;;
  match finalState with
  | Some s =>
      when (truthy (running s) && negb (truthy (paused s)))
        (let hasPendingTasks := 0 <? or0 (pendingTasks s) in
         when hasPendingTasks
           (log MPendingWarning warning ;;
            logToPopup MPendingWarning warning) ;;
         ignore_errors (updateQueueState stopped))
  | None => skip
  end ;;
  (* STEP 6 *)
  modify (with_queueRunning false) ;;
  sleep CLICK_DELAY ;;
  (* STEP 7 *)
  t <- get now ;;
  modify (with_currentQueueId (Some t)) ;;
  modify (with_currentTaskPointer 0) ;;
  log (MNewQueueCache t) info ;;
  (* STEP 8 *)
  modify (with_queueRunning true) ;;
  modify (with_metadata (Some md)) ;;
  createdAt <- get now ;;
  let newQueueState :=
    {| totalTasks := Some (md_totalTasks md);
       currentIndex := Some 0;
       running := Some true;
       paused := Some false;
       successCount := Some 0;
       failCount := Some 0;
       pendingTasks := Some 0;
       flowMode := Some (md_flowMode md);
       cropMode := Some (md_cropMode md);
       createdAt := Some createdAt;
       queueId := None |} in
  updateQueueState newQueueState ;;
  log (MStartingFresh (md_totalTasks md)) success ;;
  logToPopup (MStartingFresh (md_totalTasks md)) info ;;
  ensureCorrectMode (md_flowMode md) ;;
  start (SProcessQueue false).

(** [handlePauseQueue()] *)
Definition handlePauseQueue : Async unit :=
  modify (with_queueRunning false) ;;
  updateQueueState (set_running false (set_paused true empty_object)) ;;
  log MQueuePaused warning ;;
  logToPopup MQueuePaused warning.

(** [handleClearQueue()] *)
Definition handleClearQueue : Async unit :=
  modify (with_queueRunning false) ;;
  modify (with_currentQueueId None) ;;
  modify (with_currentTaskPointer 0) ;;
  storage_remove_queue ;;
  log MQueueCleared success ;;
  logToPopup MQueueCleared success.

(** How the polling loop of [waitForQueueCapacity] ends: by a [return]
    inside it, or because its condition became false. *)
Inductive LoopEnd : Type :=
| Returned (b : bool)
| Left (pendingTasks : Z).

(** [waitForQueueCapacity(context)] *)
Definition waitForQueueCapacity : Async bool :=
  state <- loadQueueState ;;
  match state with
  | None => Ret false
  | Some state0 =>
      let pendingTasks0 := or0 (pendingTasks state0) in
      if pendingTasks0 <? QUEUE_LIMIT then Ret true
      else
        log (MCapacityFull pendingTasks0) warning ;;
        logToPopup (MCapacityFull pendingTasks0) warning ;;
        startTime <- get now ;;
        ended <-
          Iter (fun '(state, pending) =>
              if negb (QUEUE_LIMIT <=? pending)
              then Ret (inr (Left pending))
              else
                t <- get now ;;
                if QUEUE_CAPACITY_TIMEOUT <? t - startTime then
                  log MCapacityTimeout warning ;; Ret (inr (Returned false))
                else
                  qr <- get queueRunning ;;
                  if negb qr then
                    log MCapacityStopped info ;; Ret (inr (Returned false))
                  else if truthy (paused state) then
                    log MCapacityPaused info ;; Ret (inr (Returned false))
                  else
                    sleep QUEUE_THROTTLE_DELAY ;;
                    log MCapacityRecheck info ;;
                    state' <- loadQueueState ;;
                    match state' with
                    | None => Ret (inr (Returned false))
                    | Some s' => Ret (inl (s', or0 (pendingTasks s')))
                    end)
            (state0, pendingTasks0) ;;
        match ended with
        | Returned b => Ret b
        | Left p =>
            log (MCapacityFree p) success ;;
            logToPopup (MCapacityFree p) success ;;
            Ret true
        end
  end.

(** [submitForGeneration()].  Whether the page shows an enabled submit
    button ([waitForElement], [findSubmitButton], [isButtonEnabled]) and
    the click on it are steps of the executor; a button that is not
    there yet is the answer [RFail] of the first.  When the search
    times out, the last button found is tested once more. *)
Definition submitForGeneration : Async unit :=
  log MLookingForSubmit info ;;
  waitForQueueCapacity ;;
  startTime <- get now ;;
  let maxWait := 20000 in
  found <-
    Iter (fun _ : unit =>
        t <- get now ;;
        if negb (t - startTime <? maxWait) then
          button <- Await (WExec XFindSubmit) ;;
          Ret (inr (match button with ROk => true | _ => false end))
        else
          button <- Await (WExec XFindSubmit) ;;
          match button with
          | ROk =>
              log MSubmitFound success ;;
              Ret (inr true)
          | _ =>
              log MWaitingSubmit info ;;
              hasCapacity <- waitForQueueCapacity ;;
              when (negb hasCapacity) (log MStillFull warning) ;;
              sleep QUEUE_CHECK_INTERVAL ;;
              Ret (inl ())
          end)
      () ;;
  if negb found then Throw ESubmitNotFound
  else
    log MClickingSubmit info ;;
    call XSubmit ;;
    sleep 1500 ;;
    log MSubmitClicked success.

(** [needsImageUpload(flowMode)] *)
Definition needsImageUpload (flowMode : jsstring) : bool :=
  bool_decide (flowMode = lit "ingredients_to_video")
  || bool_decide (flowMode = lit "frames_to_video").

(** [requestFileData(index)], then the test
    [!fileData || !fileData.name] of [processTask]. *)
Definition requestFileData (index : Z) : Async Reply :=
  call (XRequestFile index).

Definition has_name (fileData : Reply) : bool :=
  match fileData with
  | RFile named => named
  | _ => false
  end.

(** [waitForGeneration(taskIndex, videoCountBeforeSubmit)]: the source
    of the finished video, or a rejection after the timeout. *)
Definition waitForGeneration (taskIndex videoCount : Z) : Async jsstring :=
  r <- call (XWaitForGeneration taskIndex videoCount) ;;
  match r with
  | RUrl url => Ret url
  | _ => Throw (ERejected (XWaitForGeneration taskIndex videoCount))
  end.

(** [downloadVideo(url, taskIndex, prompt)] *)
Definition downloadVideo (url : jsstring) (taskIndex : Z) (prompt : jsstring)
  : Async unit :=
  t <- get now ;;
  let filename := download_request_name taskIndex (Some prompt) t in
  emit (DownloadRequest url filename) ;;
  response <- Await (WExec (XDownload url filename)) ;;
  match response with
  | ROk => log MDownloadStarted success
  | _ =>
      log MDownloadRejected error ;;
      Throw (ERejected (XDownload url filename))
  end.

(** [waitForTaskCompletion(taskIndex, prompt, videoCountBeforeSubmit)].
    The class declares this method twice; a later declaration of a
    class member replaces the earlier one, so this is the second. *)
Definition waitForTaskCompletion (taskIndex : Z) (prompt : jsstring)
    (videoCountBeforeSubmit : Z) : Async unit :=
  TryCatch
    (log (MWatchBegin taskIndex) info ;;
     logToPopup (MWatchBegin taskIndex) info ;;
     downloadUrl <- waitForGeneration taskIndex videoCountBeforeSubmit ;;
     log (MGenerationDone taskIndex) info ;;
     logToPopup (MGenerationDone taskIndex) info ;;
     TryCatch
       (downloadVideo downloadUrl taskIndex prompt ;;
        log (MDownloadSent taskIndex) success)
       (fun downloadError =>
          log (MDownloadRequestFailed taskIndex downloadError) warning) ;;
     log (MTaskDone taskIndex) success ;;
     logToPopup (MTaskDone taskIndex) success ;;
     state <- loadQueueState ;;
     match state with
     | None => skip
     | Some state =>
         let currentSuccessCount := or0 (successCount state) in
         let currentPendingTasks := or0 (pendingTasks state) in
         let newSuccessCount := currentSuccessCount + 1 in
         let newPendingTasks := Z.max 0 (currentPendingTasks - 1) in
         updateQueueState
           (set_successCount newSuccessCount
              (set_pendingTasks newPendingTasks empty_object)) ;;
         verifyState <- loadQueueState ;;
         match verifyState with
         | None => skip
         | Some verifyState =>
             let actualSuccessCount := or0 (successCount verifyState) in
             when (negb (actualSuccessCount =? newSuccessCount))
               (log (MSuccessMismatch newSuccessCount actualSuccessCount) warning ;;
                updateQueueState (set_successCount newSuccessCount empty_object) ;;
                retryState <- loadQueueState ;;
                match retryState with
                | Some r =>
                    if js_strict_ne (successCount r) newSuccessCount
                    then log MSuccessRepairFailed error
                    else log MSuccessRepaired success
                | None => log MSuccessRepaired success
                end)
         end ;;
         finalState <- loadQueueState ;;
         let finalSuccessCount :=
           or0 (from_option successCount None finalState) in
         log (MStateUpdated taskIndex finalSuccessCount newPendingTasks) success ;;
         logToPopup (MStateUpdated taskIndex finalSuccessCount newPendingTasks)
           success ;;
         when (newPendingTasks <? QUEUE_LIMIT)
           (logToPopup (MCapacityAvailable newPendingTasks) success)
     end)
    (fun e =>
       log (MWatchFailed taskIndex e) error ;;
       logToPopup (MWatchFailed taskIndex e) error ;;
       state <- loadQueueState ;;
       match state with
       | None => skip
       | Some state =>
           let newPendingTasks := Z.max 0 (or0 (pendingTasks state) - 1) in
           updateQueueState
             (set_pendingTasks newPendingTasks
                (set_failCount (or0 (failCount state) + 1) empty_object)) ;;
           log (MQueueUpdatedOnFailure newPendingTasks) warning
       end).

(** [processTask(taskIndex)] *)
Definition processTask (taskIndex : Z) : Async unit :=
  md <- get metadata ;;
  match md with
  | None => Throw ETypeError
  | Some md =>
      if (taskIndex <? 0) || (md_totalTasks md <=? taskIndex)
      then Throw (EInvalidIndex taskIndex (md_totalTasks md))
      else
        match md_promptList md ≫= (.!! Z.to_nat taskIndex) with
        | None => Throw ETypeError   (* prompt.substring on undefined *)
        | Some prompt =>
            log (MTaskBegin taskIndex) info ;;
            logToPopup (MTaskBegin taskIndex) info ;;
            TryCatch
              (log (MRequestingFile taskIndex) info ;;
               fileData <- requestFileData taskIndex ;;
               (if has_name fileData then skip
                else Throw (ENoFileData taskIndex)) ;;
               log (MFileReceived taskIndex) success ;;
               (* Step 1 *)
               when (needsImageUpload (md_flowMode md))
                 (call XUploadImage ;; logToPopup MUploaded success) ;;
               (* Step 2 *)
               when (needsImageUpload (md_flowMode md))
                 (call XCropModal ;; logToPopup MCropped success) ;;
               (* Step 3 *)
               call XInputPrompt ;;
               logToPopup MPromptEntered success ;;
               (* Step 4 *)
               videoCountBeforeSubmit <- get videoCards ;;
               log (MVideoCount videoCountBeforeSubmit) info ;;
               submitForGeneration ;;
               state <- loadQueueState ;;
               match state with
               | Some state =>
                   let newPendingTasks := or0 (pendingTasks state) + 1 in
                   updateQueueState
                     (set_pendingTasks newPendingTasks empty_object) ;;
                   logToPopup (MSubmitted newPendingTasks) info
               | None => skip
               end ;;
               (* Step 5 *)
               start (SWatch taskIndex prompt videoCountBeforeSubmit))
              (fun e =>
                 log (MTaskFailed taskIndex e) error ;;
                 state <- loadQueueState ;;
                 match state with
                 | Some state =>
                     updateQueueState
                       (set_pendingTasks
                          (Z.max 0 (or0 (pendingTasks state) - 1))
                          (set_failCount (or0 (failCount state) + 1)
                             empty_object)) ;;
                     skip
                 | None => skip
                 end ;;
                 Throw e)
        end
  end.

(** The two ways a lap of [while (this.queueRunning)] ends. *)
Definition continue : Async (unit + unit) := Ret (inl ()).
Definition break : Async (unit + unit) := Ret (inr ()).

(** The [try] block of one lap of [processQueue]. *)
Definition processQueue_try : Async (unit + unit) :=
  state <- loadQueueState ;;
  match state with
  | None =>
      log MStateMissing warning ;;
      modify (with_queueRunning false) ;;
      modify (with_currentTaskPointer 0) ;;
      break
  | Some state =>
      if js_ge (currentIndex state) (or0 (totalTasks state)) then
        let pending := or0 (pendingTasks state) in
        if 0 <? pending then
          log (MWaitingPending pending) info ;;
          logToPopup (MWaitingPending pending) info ;;
          sleep PENDING_TASKS_WAIT ;;
          continue
        else
          log MQueueCompleted success ;;
          logToPopup MQueueCompleted success ;;
          modify (with_queueRunning false) ;;
          modify (with_currentTaskPointer (or0 (totalTasks state))) ;;
          updateQueueState stopped ;;
          break
      else if truthy (paused state) then
        sleep 1000 ;;
        continue
      else
        (* typeof state.currentIndex !== 'number' *)
        let index := default 0 (currentIndex state) in
        pointer <- get currentTaskPointer ;;
        when (negb (pointer =? index))
          (log (MSyncPointer pointer index) warning ;;
           modify (with_currentTaskPointer index)) ;;
        let pending := or0 (pendingTasks state) in
        if QUEUE_LIMIT <=? pending then
          waitForQueueCapacity ;;
          continue
        else
          currentTaskIndex <- get currentTaskPointer ;;
          log (MProcessingTask currentTaskIndex) info ;;
          processTask currentTaskIndex ;;
          loaded <- loadQueueState ;;
          let updatedState := default empty_object loaded in
          modify (with_currentTaskPointer (currentTaskIndex + 1)) ;;
          pointer' <- get currentTaskPointer ;;
          updateQueueState (set_currentIndex pointer' updatedState) ;;
          log (MTaskAdvanced currentTaskIndex) info ;;
          sleep TASK_DELAY ;;
          continue
  end.

(** The [catch] block of one lap of [processQueue]. *)
Definition processQueue_catch (e : Err) : Async (unit + unit) :=
  log (MLoopError e) error ;;
  logToPopup (MProcessingError e) error ;;
  qr <- get queueRunning ;;
  if negb qr then
    log MLoopStopped info ;;
    break
  else
    state <- loadQueueState ;;
    match state with
    | Some state =>
        let index := or0 (currentIndex state) + 1 in
        let state' :=
          set_currentIndex index
            (set_failCount (or0 (failCount state) + 1) state) in
        modify (with_currentTaskPointer index) ;;
        updateQueueState state' ;;
        sleep 1000 ;;
        continue
    | None =>
        modify (with_queueRunning false) ;;
        break
    end.

Definition processQueue_lap (_ : unit) : Async (unit + unit) :=
  qr <- get queueRunning ;;
  if qr then TryCatch processQueue_try processQueue_catch
  else break.

(** [processQueue()] *)
Definition processQueue : Async unit :=
  log MProcessingStarted info ;;
  Iter processQueue_lap () ;;
  log MLoopExited info ;;
  qr <- get queueRunning ;;
  when qr
    (modify (with_queueRunning false) ;;
     ignore_errors (updateQueueState (set_running false empty_object))).

(** [initializeAutoResume()] *)
Definition initializeAutoResume : Async unit :=
  TryCatch
    (state <- loadQueueState ;;
     stored <- storage_get_metadata ;;
     match state with
     | None => skip
     | Some state =>
         if bool_decide (or0 (totalTasks state) = 0) then skip
         else
           match stored with
           | Some md =>
               match md_promptList md with
               | None => log MMetadataMissing warning
               | Some _ =>
                   if truthy (running state) && negb (truthy (paused state))
                   then
                     let isQueueActive :=
                       js_lt (currentIndex state) (totalTasks state) in
                     let hasPendingTasks := 0 <? or0 (pendingTasks state) in
                     if isQueueActive || hasPendingTasks then
                       log MAutoResuming warning ;;
                       logToPopup MAutoResuming warning ;;
                       modify (with_metadata (Some md)) ;;
                       modify (with_queueRunning true) ;;
                       modify (with_currentTaskPointer
                                 (or0 (currentIndex state))) ;;
                       TryCatch (ensureCorrectMode (md_flowMode md))
                         (fun _ => log MModeCheckFailed warning) ;;
                       start (SProcessQueue true)
                     else
                       log MMarkedCompleted info ;;
                       updateQueueState stopped ;;
                       modify (with_queueRunning false)
                   else
                     modify (with_queueRunning false) ;;
                     modify (with_currentTaskPointer 0)
               end
           | None => log MMetadataMissing warning
           end
     end)
    (fun _ => log MAutoResumeFailed error).

(** The calls that are not awaited, each with the [.catch] handler of
    its call site. *)
Definition program (s : ThreadSpec) : Async unit :=
  match s with
  | SStartQueue md =>
      TryCatch (handleStartQueue md) (fun _ => log MQueueStartError error)
  | SPauseQueue => handlePauseQueue
  | SClearQueue => handleClearQueue
  | SAutoResume => initializeAutoResume
  | SProcessQueue resumed =>
      TryCatch processQueue
        (fun e =>
           log (if resumed then MResumeError else MLoopError e) error ;;
           modify (with_queueRunning false) ;;
           ignore_errors (updateQueueState (set_running false empty_object)))
  | SWatch taskIndex prompt videoCount =>
      TryCatch (waitForTaskCompletion taskIndex prompt videoCount)
        (fun _ => log (MWatchBackgroundError taskIndex) error)
  end.

End Script.

(** ** Runs of the whole system *)

Module System.
Import Model Async Script.

(** A freshly loaded page with empty storage. *)
Definition fresh : Config :=
  mkConfig (mkMem None None false 0 None None None 0 ∅ 0 0 []) [].

Definition spawn := Async.spawn program.
Definition step := Async.step program.
Definition run := Async.run program.

Definition waiting (c : Config) (tid : nat) : option Wait :=
  match threads c !! tid with
  | Some (mkTask _ (Suspended w _ _)) => Some w
  | _ => None
  end.

Definition finished (c : Config) (tid : nat) : bool :=
  match threads c !! tid with
  | Some (mkTask _ Finished) => true
  | _ => false
  end.

(** The actions that let function [tid] alone take its next turn:
    time passes until its timer fires, the executor answers [oracle]. *)
Definition solo_turn (oracle : ExecCall -> Reply) (tid : nat) (c : Config)
  : option (list Action) :=
  match threads c !! tid with
  | Some (mkTask _ (Suspended (WSleep ms) since _)) =>
      Some [Tick (Z.max 0 (since + ms - now (mem c))); Resume tid ROk]
  | Some (mkTask _ (Suspended (WExec x) _ _)) => Some [Resume tid (oracle x)]
  | Some (mkTask _ (Suspended _ _ _)) => Some [Resume tid ROk]
  | _ => None
  end.

(** Let function [tid] run alone for at most [fuel] turns; it stops
    early when the function has ended, and there is no result when a
    turn is not possible. *)
Fixpoint solo (fuel : nat) (oracle : ExecCall -> Reply) (tid : nat) (c : Config)
  : option Config :=
  match fuel with
  | O => Some c
  | S fuel' =>
      match solo_turn oracle tid c with
      | None => Some c
      | Some acts =>
          match run acts c with
          | Some c' => solo fuel' oracle tid c'
          | None => None
          end
      end
  end.

(** Exactly [n] turns of function [tid], alone. *)
Fixpoint turns (n : nat) (oracle : ExecCall -> Reply) (tid : nat) (c : Config)
  : option Config :=
  match n with
  | O => Some c
  | S n' =>
      match solo_turn oracle tid c with
      | None => None
      | Some acts =>
          match run acts c with
          | Some c' => turns n' oracle tid c'
          | None => None
          end
      end
  end.

(** A run told in phases. *)
Inductive Phase : Type :=
| Do (a : Action)
| Turns (n : nat) (tid : nat) (oracle : ExecCall -> Reply)
| Solo (tid : nat) (oracle : ExecCall -> Reply).   (* until [tid] has ended *)

Definition solo_fuel : nat := 400.

Definition phase (p : Phase) (c : Config) : option Config :=
  match p with
  | Do a => step a c
  | Turns n tid oracle => turns n oracle tid c
  | Solo tid oracle =>
      match solo solo_fuel oracle tid c with
      | Some c' => if finished c' tid then Some c' else None
      | None => None
      end
  end.

Fixpoint play (script : list Phase) (c : Config) : option Config :=
  match script with
  | [] => Some c
  | p :: rest =>
      match phase p c with
      | Some c' => play rest c'
      | None => None
      end
  end.

(** Executors: every step succeeds and the video is at [url]; the
    download is refused; the generation times out; no file arrives. *)
Definition all_ok (url : jsstring) (x : ExecCall) : Reply :=
  match x with
  | XRequestFile _ => RFile true
  | XWaitForGeneration _ _ => RUrl url
  | _ => ROk
  end.

Definition download_refused (url : jsstring) (x : ExecCall) : Reply :=
  match x with
  | XDownload _ _ => RFail
  | _ => all_ok url x
  end.

Definition generation_fails (x : ExecCall) : Reply :=
  match x with
  | XWaitForGeneration _ _ => RFail
  | _ => all_ok [] x
  end.

Definition submission_fails (x : ExecCall) : Reply :=
  match x with
  | XEnsureMode _ => ROk
  | _ => RFail
  end.

End System.

(** ** Scenarios *)

Module Scenarios.
Import Model Async Script System.

(** What the store says. *)
Definition stored (c : Config) : option QueueState := flowBatchQueueState (mem c).
Definition stored_pending (c : Config) : option Z := stored c ≫= pendingTasks.
Definition stored_success (c : Config) : option Z := stored c ≫= successCount.
Definition stored_fail (c : Config) : option Z := stored c ≫= failCount.
Definition stored_index (c : Config) : option Z := stored c ≫= currentIndex.
Definition stored_total (c : Config) : option Z := stored c ≫= totalTasks.
Definition stored_running (c : Config) : option bool := stored c ≫= running.
Definition stored_paused (c : Config) : option bool := stored c ≫= paused.
Definition stored_queueId (c : Config) : option jsstring := stored c ≫= queueId.

(** The submission loops that have not ended, with what they wait for. *)
Definition live_loop (t : Task) : option Wait :=
  match origin t, state t with
  | SProcessQueue _, Suspended w _ _ => Some w
  | _, _ => None
  end.

Definition live_loops (c : Config) : list Wait := omap live_loop (threads c).

(** The completion watches that have not ended, by task index. *)
Definition live_watch (t : Task) : option Z :=
  match origin t, state t with
  | SWatch i _ _, Suspended _ _ _ => Some i
  | _, _ => None
  end.

Definition live_watches (c : Config) : list Z := omap live_watch (threads c).

(** What a script, played on a fresh page, leads to. *)
Definition outcome {A} (script : list Phase) (f : Config -> A) : option A :=
  f <$> play script fresh.

(** How many times the loop log says it takes task [i]. *)
Definition takes_task (i : Z) (e : Event) : bool :=
  match e with
  | Log info (MProcessingTask j) => i =? j
  | _ => false
  end.

Definition times_taken (i : Z) (c : Config) : nat :=
  length (List.filter (takes_task i) (events (mem c))).

Definition reports_completion (e : Event) : bool :=
  match e with
  | Log success MQueueCompleted => true
  | _ => false
  end.

Definition completion_reported (c : Config) : bool :=
  existsb reports_completion (events (mem c)).

Definition url : jsstring := lit "blob:video".
Definition ok : ExecCall -> Reply := all_ok url.
Definition text_to_video : jsstring := lit "text_to_video".
Definition no_crop : jsstring := lit "none".

(** The user starts a run of the given prompts, one picture each, and
    the start handler runs to its end; it is function [handler]. *)
Definition start_run (prompts : list jsstring) (handler : nat) : list Phase :=
  [Do (PopupStart prompts prompts text_to_video no_crop); Solo handler ok].

(** One lap of the loop [tid] that submits a task, from the reading of
    the state to the pause between two tasks: fourteen turns. *)
Definition submit_lap (tid : nat) : Phase := Turns 14 tid ok.

(** The first six turns of such a lap: the loop has clicked on the
    submit button and sleeps the 1500 ms that follow the click. *)
Definition click (tid : nat) : Phase := Turns 6 tid ok.

(** The next seven: the loop wakes up, counts the task as pending,
    starts its watch, stores the next index and pauses. *)
Definition count_and_advance (tid : nat) : Phase := Turns 7 tid ok.

(** *** Two watches finish together

    A run of two tasks, both submitted, the loop draining.  Both
    watches see their video, both downloads are acknowledged, and both
    read the queue state before either writes it. *)
Definition both_submitted : list Phase :=
  Do (Tick 1000) :: start_run [lit "a"; lit "b"] 0
    ++ [submit_lap 1; submit_lap 1; Turns 1 1 ok].

Definition watches_finish_together : list Phase :=
  both_submitted
    ++ [Turns 2 2 ok;    (* watch of task 0: video ready, download sent, state read *)
        Turns 2 3 ok;    (* watch of task 1: the same, before task 0 has written *)
        Solo 2 ok;       (* watch of task 0 writes and ends *)
        Solo 3 ok].      (* watch of task 1 writes and ends *)

Definition watches_finish_in_turn : list Phase :=
  both_submitted ++ [Solo 2 ok; Solo 3 ok].

(** *** Every submission fails

    Scenario D: three tasks, and the executor rejects the first step
    of each one. *)
Definition all_submissions_fail : list Phase :=
  [Do (Tick 1000);
   Do (PopupStart [lit "a"; lit "b"; lit "c"] [lit "a"; lit "b"; lit "c"]
         text_to_video no_crop);
   Solo 0 submission_fails;
   Solo 1 submission_fails].

(** *** A second start while the first loop drains

    A run of one task is submitted and its loop sleeps the five
    seconds of the drain, from 3800 to 8800.  At 7300 the user starts
    a run of two tasks; the forced reset takes one second.  The new
    loop takes task 0 at 8300; at 8800 the old loop wakes up. *)
Definition first_run_draining : list Phase :=
  Do (Tick 1000) :: start_run [lit "a"] 0 ++ [submit_lap 1; Turns 1 1 ok].

Definition second_start : list Phase :=
  first_run_draining
    ++ Do (Tick 3500) :: start_run [lit "b"; lit "c"] 3.

Definition both_loops_submit : list Phase :=
  second_start
    ++ [Turns 2 4 ok;    (* the new loop reads the state and takes task 0 *)
        Turns 2 1 ok].   (* the old loop wakes, reads the state, takes task 0 *)

(** The same with a pause before the second start: after a pause the
    popup enables its start button again. *)
Definition paused_then_started : list Phase :=
  first_run_draining
    ++ [Do (Tick 3000); Do (Deliver CmdPause); Solo 3 ok; Do (Tick 500)]
    ++ start_run [lit "b"; lit "c"] 4.

Definition both_loops_submit_after_pause : list Phase :=
  paused_then_started ++ [Turns 2 5 ok; Turns 2 1 ok].

(** *** A second start while the first loop is inside a task

    The loop of a run of two tasks has submitted task 0 and has
    clicked on the submit button for task 1: it sleeps from 3800 to
    5300.  At 3900 the user starts a run of one task, whose loop takes
    task 0 at 4900 and clicks.  The old loop wakes up at 5300, the new
    one at 6400. *)
Definition first_run_in_task : list Phase :=
  Do (Tick 1000) :: start_run [lit "a"; lit "b"] 0
    ++ [submit_lap 1; click 1].

Definition restarted_in_task : list Phase :=
  first_run_in_task ++ Do (Tick 100) :: start_run [lit "c"] 3 ++ [click 4].

Definition old_loop_advances : list Phase :=
  restarted_in_task
    ++ [count_and_advance 1;
        Turns 2 1 ok].   (* its next lap: the old loop drains *)

Definition new_loop_advances : list Phase :=
  old_loop_advances ++ [count_and_advance 4].

(** *** The old loop completes beyond the total

    As before, a run of one task is started while the loop of the
    previous run sleeps after its click for task 1.  That loop wakes
    up, counts its task and stores [currentIndex = 2].  The watch of
    task 0 of the previous run ends.  Then the old loop begins its
    next lap. *)
Definition old_loop_counts : list Phase :=
  restarted_in_task ++ [count_and_advance 1].

Definition first_watch_ends : list Phase := old_loop_counts ++ [Solo 2 ok].

Definition old_loop_examines : list Phase := first_watch_ends ++ [Turns 2 1 ok].

Definition old_loop_ends : list Phase := first_watch_ends ++ [Solo 1 ok].

(** *** Two loops fill the queue

    The loop of a run of one task drains, from 3800 to 8800.  At 7300
    the user starts a run of five tasks.  From 8800 on the old loop and
    the new one both submit the tasks of the new run, each in its own
    rhythm. *)
Definition five : list jsstring :=
  [lit "p0"; lit "p1"; lit "p2"; lit "p3"; lit "p4"].

Definition two_loops : list Phase :=
  first_run_draining ++ Do (Tick 3500) :: start_run five 3.

Definition three_pending : list Phase :=
  two_loops
    ++ [click 4;               (*  8300: the new loop clicks for task 0 *)
        Turns 7 1 ok;          (*  8800: the old loop wakes and clicks for task 0 *)
        count_and_advance 4;   (*  9800: pending 1 *)
        Turns 7 4 ok;          (* 10100: the new loop clicks for task 1 *)
        count_and_advance 1;   (* 10300: pending 2 *)
        Turns 7 1 ok;          (* 10600: the old loop clicks for task 1 *)
        count_and_advance 4].  (* 11600: pending 3 *)

Definition new_loop_passes : list Phase :=
  three_pending
    ++ [Turns 7 4 ok].         (* 11900: 3 < 4, the new loop clicks for task 2 *)

Definition old_loop_submits : list Phase :=
  new_loop_passes
    ++ [count_and_advance 1;   (* 12100: pending 4 *)
        Turns 3 1 ok].         (* 12400: the old loop finds the queue full *)

Definition new_loop_submits : list Phase :=
  old_loop_submits
    ++ [Turns 4 4 ok].         (* 13400: pending 5 *)

(** *** A watch outlives its run

    A run of one task is submitted, then cleared; its loop ends at its
    next lap.  A new run of one task is started and submitted.  Then
    the video of the first run is ready. *)
Definition cleared : list Phase :=
  first_run_draining ++ [Do (Deliver CmdClear); Solo 3 ok; Solo 1 ok].

Definition new_run_pending : list Phase :=
  cleared ++ start_run [lit "b"] 4 ++ [submit_lap 5; Turns 1 5 ok].

Definition stale_watch_ends : list Phase := new_run_pending ++ [Solo 2 ok].
Definition new_run_ends : list Phase := stale_watch_ends ++ [Solo 5 ok].

Definition watch_ends_after_clear : list Phase := cleared ++ [Solo 2 ok].

(** *** A clear between the reading and the writing of a watch

    A run of one task is submitted.  The video is ready: the watch
    asks for the download and reads the state.  Then the queue is
    cleared.  Then the watch goes on. *)
Definition watch_has_read : list Phase := first_run_draining ++ [Turns 2 2 ok].

Definition cleared_after_the_read : list Phase :=
  watch_has_read ++ [Do (Deliver CmdClear); Solo 3 ok].

Definition watch_writes_after_the_clear : list Phase :=
  cleared_after_the_read ++ [Solo 2 ok].

(** *** One function at a time

    Configurations in which a single function is followed: the memory
    is arbitrary but for the stated parts, and the log starts empty. *)

(** The state a watch stores for a video that is ready. *)
Definition success_write (st : QueueState) : QueueState :=
  spread st
    (set_successCount (or0 (successCount st) + 1)
       (set_pendingTasks (Z.max 0 (or0 (pendingTasks st) - 1)) empty_object)).

(** The state a watch stores when the generation failed. *)
Definition failure_write (st : QueueState) : QueueState :=
  spread st
    (set_pendingTasks (Z.max 0 (or0 (pendingTasks st) - 1))
       (set_failCount (or0 (failCount st) + 1) empty_object)).

(** The log is newest first: [first] was logged, and later [second]. *)
Definition logged_in_order (first second : Event) (log : list Event) : Prop :=
  exists l1 l2 l3, log = l1 ++ second :: l2 ++ first :: l3.

Definition writes_state (e : Event) : bool :=
  match e with
  | StatusUpdate _ => true
  | _ => false
  end.

(** Did an update of the queue state go through? *)
Definition state_written (c : Config) : bool := existsb writes_state (events (mem c)).

Definition warns_no_metadata (e : Event) : bool :=
  match e with
  | Log warning MMetadataMissing => true
  | _ => false
  end.

(** The page of a watch: the video comes at [gen], or never; the
    download is acknowledged or not. *)
Definition watch_env (gen : option jsstring) (download : bool) (x : ExecCall) : Reply :=
  match x with
  | XWaitForGeneration _ _ =>
      match gen with
      | Some u => RUrl u
      | None => RFail
      end
  | XDownload _ _ => if download then ROk else RFail
  | _ => ROk
  end.

(** A watch of task [i] is started while [q] is stored. *)
Definition watch_at (m : Mem) (q : option QueueState) (i : Z) (prompt : jsstring)
    (videoCount : Z) : Config :=
  spawn (SWatch i prompt videoCount)
    (mkConfig (with_events [] (with_updatingState None (with_queueState q m))) []).

(** [processQueue] is called while [st] is stored and the script is
    marked running. *)
Definition loop_at (m : Mem) (st : QueueState) : Config :=
  spawn (SProcessQueue false)
    (mkConfig
       (with_events []
          (with_updatingState None
             (with_queueRunning true (with_queueState (Some st) m)))) []).

(** The page is loaded while [q] and [md] are stored. *)
Definition boot (m : Mem) (q : option QueueState) (md : option TaskMetadata) : Config :=
  spawn SAutoResume
    (mkConfig
       (reloaded (with_events [] (with_taskMetadata md (with_queueState q m)))) []).

(** FLOW_BATCH_START with [md] arrives while [q] is stored. *)
Definition start_at (m : Mem) (q : option QueueState) (md : TaskMetadata) : Config :=
  spawn (SStartQueue md)
    (mkConfig (with_events [] (with_updatingState None (with_queueState q m))) []).

(** The state the forced reset stores first. *)
Definition reset_state (q : option QueueState) : QueueState :=
  spread (default empty_object q) stopped.

(** The state the start handler stores in the end, at time [t]: the
    [queueId] is the one found in the store. *)
Definition fresh_state (q : option QueueState) (md : TaskMetadata) (t : Z)
  : QueueState :=
  {| totalTasks := Some (md_totalTasks md);
     currentIndex := Some 0;
     running := Some true;
     paused := Some false;
     successCount := Some 0;
     failCount := Some 0;
     pendingTasks := Some 0;
     flowMode := Some (md_flowMode md);
     cropMode := Some (md_cropMode md);
     createdAt := Some t;
     queueId := q ≫= queueId |}.

(** What function [tid] waits for and how it goes on. *)
Definition resumption (c : Config) (tid : nat) : option (Wait * (Reply -> Async unit)) :=
  match threads c !! tid with
  | Some (mkTask _ (Suspended w _ k)) => Some (w, k)
  | _ => None
  end.

(** The queue is cleared while a watch waits for its video; then the
    video comes, or the wait times out. *)
Definition clear_then_watch (gen : option jsstring) (download : bool) : list Phase :=
  [Do (Deliver CmdClear); Solo 1 ok; Solo 0 (watch_env gen download)].

(** Other functions have run since the last turn of the one that is
    followed: the memory is now [m]. *)
Definition meanwhile (m : Mem) (c : Config) : Config := mkConfig m (threads c).

(** Function [tid] takes one turn for each element of the list: before
    the turn the other functions have left the memory [m], and the turn
    begins with the answer [r]. *)
Fixpoint interleaved (tid : nat) (turns : list (Mem * Reply)) (c : Config)
  : option Config :=
  match turns with
  | [] => Some c
  | (m, r) :: rest =>
      match step (Resume tid r) (meanwhile m c) with
      | Some c' => interleaved tid rest c'
      | None => None
      end
  end.

(** What a watch passes to [updateQueueState] for a video that is
    ready, and for a generation that failed, having read [st]. *)
Definition success_updates (st : QueueState) : QueueState :=
  set_successCount (or0 (successCount st) + 1)
    (set_pendingTasks (Z.max 0 (or0 (pendingTasks st) - 1)) empty_object).

Definition failure_updates (st : QueueState) : QueueState :=
  set_pendingTasks (Z.max 0 (or0 (pendingTasks st) - 1))
    (set_failCount (or0 (failCount st) + 1) empty_object).

Definition acknowledged (download : bool) : Reply := if download then ROk else RFail.

(** *** A reload in the middle of a run of ten

    Three tasks are submitted and the first one has ended when the page
    is loaded again.  In the second run the popup's clear command came
    while the start handler was in its first wait: the handler went on,
    stored its fresh state and started the loop, but the metadata the
    popup had stored was removed by the clear. *)
Definition ten : list jsstring :=
  [lit "p0"; lit "p1"; lit "p2"; lit "p3"; lit "p4";
   lit "p5"; lit "p6"; lit "p7"; lit "p8"; lit "p9"].

Definition interrupted_with_metadata : list Phase :=
  [Do (Tick 1000); Do (PopupStart ten ten text_to_video no_crop); Solo 0 ok;
   submit_lap 1; submit_lap 1; submit_lap 1;
   Solo 2 ok].       (* the watch of task 0 *)

Definition interrupted_without_metadata : list Phase :=
  [Do (Tick 1000); Do (PopupStart ten ten text_to_video no_crop);
   Turns 1 0 ok;     (* the start handler reaches its first wait *)
   Do (Deliver CmdClear); Solo 1 ok;
   Solo 0 ok;
   submit_lap 2; submit_lap 2; submit_lap 2;
   Solo 3 ok].       (* the watch of task 0 *)

Definition reload : list Phase := [Do Reload; Solo 0 ok].

(** The indices of the tasks the loop log says it took, newest first. *)
Definition taken_task (e : Event) : option Z :=
  match e with
  | Log info (MProcessingTask j) => Some j
  | _ => None
  end.

Definition taken (c : Config) : list Z := omap taken_task (events (mem c)).

(** Stored metadata with a prompt list. *)
Definition with_prompts (prompts : list jsstring) (md : TaskMetadata) : TaskMetadata :=
  mkTaskMetadata (md_totalTasks md) (Some prompts) (md_filenameList md)
    (md_flowMode md) (md_cropMode md) (md_createdAt md) (md_queueId md).

Definition without_prompts (md : TaskMetadata) : TaskMetadata :=
  mkTaskMetadata (md_totalTasks md) None (md_filenameList md)
    (md_flowMode md) (md_cropMode md) (md_createdAt md) (md_queueId md).

(** A stored state with the three numbers the loop and the reload
    examine. *)
Definition indexed (ci tt p : Z) (st : QueueState) : QueueState :=
  set_currentIndex ci (set_totalTasks tt (set_pendingTasks p st)).

(** How the loop goes on at the beginning of a lap, when the storage
    answers the reading of the state [st]. *)
Definition lap_start (st : QueueState) : Reply -> Async unit :=
  match resumption (loop_at (mem fresh) st) 0 with
  | Some (_, k) => k
  | None => fun _ => skip
  end.

(** The loop alone, at the beginning of a lap. *)
Definition at_lap_start (st : QueueState) (m : Mem) : Config :=
  mkConfig m
    [mkTask (SProcessQueue false) (Suspended WStorage (now m) (lap_start st))].

(** What a lap of the drain does to the memory: two log lines, and
    [PENDING_TASKS_WAIT] later. *)
Definition drained_once (p : Z) (m : Mem) : Mem :=
  with_now (now m + PENDING_TASKS_WAIT)
    (with_events
       (ToPopup info (MWaitingPending p) :: Log info (MWaitingPending p)
          :: events m) m).

Fixpoint drained (n : nat) (p : Z) (m : Mem) : Mem :=
  match n with
  | O => m
  | S n' => drained n' p (drained_once p m)
  end.

(** The same, marked running and not paused. *)
Definition interrupted (ci tt p : Z) (st : QueueState) : QueueState :=
  set_running true (set_paused false (indexed ci tt p st)).

(** The page after a reload: the check of the mode goes through or not. *)
Definition reload_env (mode_ok : bool) (x : ExecCall) : Reply :=
  match x with
  | XEnsureMode _ => if mode_ok then ROk else RFail
  | _ => ROk
  end.

(** [initializeAutoResume] has ended and has done nothing: the store is
    [q] as before, no update of the state went through, the script is
    not marked running and there is no loop. *)
Definition left_idle (q : option QueueState) (r : option Config) : Prop :=
  exists c, r = Some c
    /\ finished c 0 = true
    /\ stored c = q
    /\ state_written c = false
    /\ queueRunning (mem c) = false
    /\ live_loops c = [].

(** The warning about missing metadata was logged. *)
Definition warned (r : option Config) : Prop :=
  exists c, r = Some c /\ existsb warns_no_metadata (events (mem c)) = true.

(** The page is loaded, and the loop it starts takes its first turn. *)
Definition reload_then_lap (mode_ok : bool) : list Phase :=
  [Solo 0 (reload_env mode_ok); Turns 1 1 ok].

(** The turns of a lap that submits a task: two more when a picture is
    uploaded and cropped. *)
Definition lap_turns (flowMode : jsstring) : nat :=
  if needsImageUpload flowMode then 16%nat else 14%nat.

(** The page is loaded, the loop it starts submits a task and begins
    its next lap. *)
Definition reload_then_two_laps (mode_ok : bool) (flowMode : jsstring) : list Phase :=
  [Solo 0 (reload_env mode_ok); Turns (lap_turns flowMode) 1 ok; Turns 1 1 ok].

End Scenarios.

(** ** A function run on its own *)

Module Alone.
Import Model Async Script System Scenarios.

(** How a function that is awaited ends. *)
Inductive Outcome (A : Type) : Type :=
| Gave (a : A)
| Raised (e : Err).
Arguments Gave {A} a.
Arguments Raised {A} e.

(** Run [p] to its end with nothing else in the event loop: a timer
    fires after its delay, the storage answers, the executor answers
    [oracle].  There is no result when [p] starts a function without
    awaiting it, or waits for a promise that nobody settles. *)
Fixpoint alone {A} (fuel : nat) (oracle : ExecCall -> Reply) (p : Async A) (m : Mem)
  : option (Mem * Outcome A) :=
  match advance p m with
  | (m', SDone a) => Some (m', Gave a)
  | (m', SFail e) => Some (m', Raised e)
  | (m', SBlocked w k) =>
      match fuel with
      | O => None
      | S fuel' =>
          match w with
          | WSleep ms => alone fuel' oracle (k ROk) (with_now (now m' + ms) m')
          | WStorage | WLap => alone fuel' oracle (k ROk) m'
          | WExec c => alone fuel' oracle (k (oracle c)) m'
          | WPromise p =>
              if bool_decide (p ∈ resolved m') then alone fuel' oracle (k ROk) m'
              else None
          | WStart _ => None
          end
      end
  end.

(** The page never shows an enabled submit button. *)
Definition no_button (x : ExecCall) : Reply :=
  match x with
  | XFindSubmit => RFail
  | _ => ok x
  end.

End Alone.

(** ** More runs of one function *)

Module Cases.
Import Model Async Script System Scenarios.

(** [processQueue] is called while [q] is stored, or nothing is, and
    the script is marked running. *)
Definition loop_in (m : Mem) (q : option QueueState) : Config :=
  spawn (SProcessQueue false)
    (mkConfig
       (with_events []
          (with_updatingState None
             (with_queueRunning true (with_queueState q m)))) []).

(** The loop takes a turn; then the command comes and its handler runs
    to the end; then the loop runs to its end. *)
Definition interrupt (cmd : Command) : list Phase :=
  [Turns 1 0 ok; Do (Deliver cmd); Solo 1 ok; Solo 0 ok].

(** [{ running: false, paused: true }] *)
Definition paused_object : QueueState :=
  set_running false (set_paused true empty_object).

(** Metadata of a run of ten tasks of text to video. *)
Definition metadata_of_ten : TaskMetadata :=
  {| md_totalTasks := 10;
     md_promptList := Some ten;
     md_filenameList := ten;
     md_flowMode := text_to_video;
     md_cropMode := no_crop;
     md_createdAt := 1000;
     md_queueId := lit "1000" |}.

(** A click on the submit button was announced in the log. *)
Definition announces_click (e : Event) : bool :=
  match e with
  | Log info MClickingSubmit => true
  | _ => false
  end.

End Cases.

(** ** What the functions of a resumed run keep *)

Module Safety.
Import Model Async Script System Scenarios Cases.

(** The indices of the tasks the loop log says it took, and of those
    [processTask] says it began, newest first. *)
Definition begun_task (e : Event) : option Z :=
  match e with
  | Log info (MProcessingTask j) => Some j
  | Log info (MTaskBegin j) => Some j
  | _ => None
  end.

Definition begun (c : Config) : list Z := omap begun_task (events (mem c)).

(** The stored state has an index, not below [floor], and no task below
    [floor] was taken or begun. *)
Definition kept (floor : Z) (m : Mem) : Prop :=
  (exists s j,
      flowBatchQueueState m = Some s /\ currentIndex s = Some j /\ floor <= j)
  /\ Forall (fun i => floor <= i) (omap begun_task (events m)).

Definition keeps (floor : Z) {A : Type} (_ : A) (m : Mem) : Prop := kept floor m.

(** [p] run from [m], for [n] suspensions at most: whenever it is
    suspended the memory is [kept], and so it is when a function it
    starts is; whatever the others do to the memory in between, as long
    as they leave it [kept], [p] ends in [Q] or fails in [E]. *)
Fixpoint safe (floor : Z) (n : nat) (A : Type) (p : Async A) (m : Mem)
    (Q : A -> Mem -> Prop) (E : Err -> Mem -> Prop) {struct n} : Prop :=
  match advance p m with
  | (m', SDone a) => Q a m'
  | (m', SFail e) => E e m'
  | (m', SBlocked w k) =>
      kept floor m'
      /\ match n with
         | O => True
         | S n' =>
             match w with
             | WStart s =>
                 safe floor n' unit (program s) m' (keeps floor) (keeps floor)
             | _ => True
             end
             /\ forall (r : Reply) (m'' : Mem),
                  kept floor m'' -> safe floor n' A (k r) m'' Q E
         end
  end.

Definition Safe (floor : Z) {A : Type} (p : Async A) (m : Mem)
    (Q : A -> Mem -> Prop) (E : Err -> Mem -> Prop) : Prop :=
  forall n : nat, safe floor n A p m Q E.

(** A function of the event loop that goes on safely from any memory
    that is [kept]. *)
Definition good_thread (floor : Z) (t : Task) : Prop :=
  match state t with
  | Suspended _ _ k =>
      forall (r : Reply) (m : Mem),
        kept floor m -> Safe floor (k r) m (keeps floor) (keeps floor)
  | _ => True
  end.

Definition good (floor : Z) (c : Config) : Prop :=
  kept floor (mem c) /\ Forall (good_thread floor) (threads c).

(** What may happen to a run that is neither started anew nor cleared:
    its functions take their turns, with any answer; time passes; the
    page changes; the run is paused; the page is loaded again. *)
Definition quiet (a : Action) : bool :=
  match a with
  | Resume _ _ | Tick _ | PageVideos _ | Reload | Deliver CmdPause => true
  | Deliver (CmdStart _) | Deliver CmdClear | PopupStart _ _ _ _ => false
  end.

(** After a reload the storage answers the two readings of
    [initializeAutoResume], the page is found in the right mode, and
    the storage answers the first reading of the loop. *)
Definition first_resumed_turns : list Action :=
  [Resume 0 ROk; Resume 0 ROk; Resume 0 ROk; Resume 1 ROk].

(** A state that was read from a memory that is [kept]. *)
Definition read_above (floor : Z) (q : option QueueState) : Prop :=
  exists s j, q = Some s /\ currentIndex s = Some j /\ floor <= j.

(** Updates that leave the index alone or put one not below [floor]. *)
Definition update_above (floor : Z) (u : QueueState) : Prop :=
  match currentIndex u with
  | Some j => floor <= j
  | None => True
  end.

(** What a lap of a loop leaves: when the loop goes on, it lets the
    others run first. *)
Definition lap_post (floor : Z) {J R : Type} (inv : J -> Prop)
    (Q : R -> Mem -> Prop) (x : J + R) (m : Mem) : Prop :=
  match x with
  | inl i => kept floor m /\ inv i
  | inr r => Q r m
  end.

End Safety.

(** ** Shapes of strings *)

Module Shapes.
Import Download.

(** Nothing to trim at the start. *)
Definition starts_clean (s : jsstring) : Prop :=
  match s with
  | [] => True
  | c :: _ => is_ws c = false
  end.

(** None of the nine characters. *)
Definition free (s : jsstring) : Prop := Forall (fun c => forbidden c = false) s.

(** No white space. *)
Definition solid (s : jsstring) : Prop := Forall (fun c => is_ws c = false) s.

End Shapes.

(** ** The popup: prompts, the list of files, the file cache *)

Module PopupFiles.
Import Model.

(** [s.split('\n')]; [cur] is the line being read, reversed. *)
Fixpoint split_lines_go (cur : jsstring) (s : jsstring) : list jsstring :=
  match s with
  | [] => [rev cur]
  | c :: s' =>
      if (c =? 10)%N then rev cur :: split_lines_go [] s'
      else split_lines_go (c :: cur) s'
  end.

Definition split_lines (s : jsstring) : list jsstring := split_lines_go [] s.

(** [Boolean(s)] of a string. *)
Definition nonempty (s : jsstring) : bool :=
  match s with
  | [] => false
  | _ :: _ => true
  end.

(** popup.js, [getPrompts()]; [value] is [this.promptInput.value]. *)
Definition getPrompts (value : jsstring) : list jsstring :=
  List.filter nonempty (map trim (split_lines value)).

(** A line as [getPrompts] returns them: not empty, nothing to trim,
    no line feed. *)
Definition prompt_line (p : jsstring) : Prop :=
  p <> [] /\ trim p = p /\ 10%N ∉ p.

(** [array.splice(start, deleteCount, ...items)] for integers [start]
    and [deleteCount]: the removed elements and the array afterwards.
    A negative [start] counts from the end; both numbers are clamped
    to the array. *)
Definition splice {A} (start deleteCount : Z) (items array : list A)
  : list A * list A :=
  let len := Z.of_nat (length array) in
  let actualStart :=
    if start <? 0 then Z.max (len + start) 0 else Z.min start len in
  let actualDeleteCount := Z.min (Z.max deleteCount 0) (len - actualStart) in
  let s := Z.to_nat actualStart in
  let d := Z.to_nat actualDeleteCount in
  (take d (drop s array), take s array ++ items ++ drop (s + d) array).

(** popup.js, [reorderFiles(fromIndex, toIndex)], on [this.currentFiles];
    [undefined] is what the destructuring of an empty array gives. *)
Definition reorderFiles {A} (undefined : A) (fromIndex toIndex : Z)
    (currentFiles : list A) : list A :=
  let '(removed, currentFiles) := splice fromIndex 1 [] currentFiles in
  let movedFile := default undefined (head removed) in
  snd (splice toIndex 0 [movedFile] currentFiles).

(** popup.js, [removeFile(index)], on [this.currentFiles]. *)
Definition removeFile {A} (index : Z) (currentFiles : list A) : list A :=
  if (index <? 0) || (Z.of_nat (length currentFiles) <=? index) then currentFiles
  else snd (splice index 1 [] currentFiles).

(** A chosen file; [file_data] is what reading it gives in base 64
    ([fileToArrayBuffer], then [arrayBufferToBase64]), nothing when
    the reader reports an error. *)
Record File : Type := mkFile {
  file_name : jsstring;
  file_type : jsstring;
  file_size : Z;
  file_data : option jsstring
}.

(** An entry of [this.preloadedFiles], also the [fileData] of an answer
    to FLOW_BATCH_REQUEST_FILE. *)
Record Entry : Type := mkEntry {
  entry_index : Z;
  entry_name : jsstring;
  entry_type : jsstring;
  entry_size : Z;
  base64Data : jsstring
}.

(** What [setUIState] is called with. *)
Inductive UIState : Type :=
| ui_idle | ui_preparing | ui_running | ui_paused | ui_error.

(** [setUIState(state)]: the two buttons. *)
Definition startDisabled (s : UIState) : bool :=
  match s with
  | ui_preparing | ui_running => true
  | ui_idle | ui_paused | ui_error => false
  end.

Definition pauseDisabled (s : UIState) : bool :=
  match s with
  | ui_running => false
  | ui_idle | ui_preparing | ui_paused | ui_error => true
  end.

(** The fields of the popup controller that the file cache and the
    status display use: [this.queueState], [this.queueId],
    [this.currentFiles], [this.preloadedFiles] and the state last given
    to [setUIState].  [this.fileCacheDB] is [null] from the constructor
    on and never assigned again. *)
Record Controller : Type := mkController {
  popup_queueState : option QueueState;
  popup_queueId : option jsstring;
  currentFiles : list File;
  preloadedFiles : gmap jsstring Entry;
  uiState : UIState
}.

Definition set_popup_queueState v (p : Controller) : Controller :=
  mkController v (popup_queueId p) (currentFiles p) (preloadedFiles p) (uiState p).
Definition set_popup_queueId v (p : Controller) : Controller :=
  mkController (popup_queueState p) v (currentFiles p) (preloadedFiles p) (uiState p).
Definition set_currentFiles v (p : Controller) : Controller :=
  mkController (popup_queueState p) (popup_queueId p) v (preloadedFiles p) (uiState p).
Definition set_preloadedFiles v (p : Controller) : Controller :=
  mkController (popup_queueState p) (popup_queueId p) (currentFiles p) v (uiState p).
Definition setUIState v (p : Controller) : Controller :=
  mkController (popup_queueState p) (popup_queueId p) (currentFiles p)
    (preloadedFiles p) v.

(** A queue id that is not falsy: neither missing nor the empty string. *)
Definition truthy_id (a : option jsstring) : option jsstring :=
  match a with
  | Some (c :: s) => Some (c :: s)
  | _ => None
  end.

(** [a || b] on queue ids. *)
Definition or_id (a b : option jsstring) : option jsstring :=
  match truthy_id a with
  | Some q => Some q
  | None => b
  end.

(** The key [`${queueId}:${index}`] of the cache. *)
Definition cache_key (queueId : jsstring) (index : Z) : jsstring :=
  queueId ++ lit ":" ++ of_Z index.

(** [this.currentFiles[index]] *)
Definition file_at (index : Z) (p : Controller) : option File :=
  if index <? 0 then None else currentFiles p !! Z.to_nat index.

(** The entry made of a file that was read. *)
Definition entry_of (index : Z) (file : File) (base64 : jsstring) : Entry :=
  {| entry_index := index;
     entry_name := file_name file;
     entry_type := file_type file;
     entry_size := file_size file;
     base64Data := base64 |}.

(** [loadStoredFileCache(queueId)]: without a queue id, and without a
    [fileCacheDB], it clears the cache. *)
Definition loadStoredFileCache (queueId : option jsstring) (p : Controller)
  : Controller :=
  match truthy_id queueId with
  | None => set_preloadedFiles ∅ p
  | Some _ => set_preloadedFiles ∅ p
  end.

(** [getStoredFileEntry(queueId, fileIndex)] *)
Definition getStoredFileEntry (queueId : option jsstring) (fileIndex : Z)
    (p : Controller) : Controller * option Entry :=
  match truthy_id (or_id queueId (popup_queueId p)) with
  | None => (p, None)
  | Some effectiveQueueId =>
      let cacheKey := cache_key effectiveQueueId fileIndex in
      match preloadedFiles p !! cacheKey with
      | Some entry => (p, Some entry)
      | None =>
          let p := loadStoredFileCache (Some effectiveQueueId) p in
          (p, preloadedFiles p !! cacheKey)
      end
  end.

(** [clearPreloadedFiles(queueId)] *)
Definition clearPreloadedFiles (queueId : option jsstring) (p : Controller)
  : Controller :=
  match truthy_id (or_id queueId (popup_queueId p)) with
  | None => p
  | Some effectiveQueueId =>
      if bool_decide (popup_queueId p = Some effectiveQueueId)
      then set_preloadedFiles ∅ p
      else p
  end.

(** How a function of the popup ends. *)
Inductive Ended : Type := Fulfilled | Rejected.

(** The loop of [preloadQueueFiles], from index [i] with [n] laps to
    go; it breaks at the first index without a file, and a file that
    cannot be read ends it with the reader's error. *)
Fixpoint preload_from (queueId : jsstring) (i n : nat) (p : Controller)
  : Controller * Ended :=
  match n with
  | O => (p, Fulfilled)
  | S n' =>
      match currentFiles p !! i with
      | None => (p, Fulfilled)
      | Some file =>
          match file_data file with
          | None => (p, Rejected)
          | Some base64 =>
              let entry := entry_of (Z.of_nat i) file base64 in
              preload_from queueId (S i) n'
                (set_preloadedFiles
                   (<[cache_key queueId (Z.of_nat i) := entry]> (preloadedFiles p)) p)
          end
      end
  end.

(** [preloadQueueFiles(taskCount, queueId)]; [persistPreloadedFiles]
    does nothing without a [fileCacheDB]. *)
Definition preloadQueueFiles (taskCount : Z) (queueId : option jsstring)
    (p : Controller) : Controller * Ended :=
  match truthy_id queueId with
  | None => (p, Fulfilled)
  | Some queueId =>
      preload_from queueId 0 (Z.to_nat taskCount) (set_preloadedFiles ∅ p)
  end.

(** The answer to FLOW_BATCH_REQUEST_FILE. *)
Inductive Source : Type := from_cache | live.

Inductive Response : Type :=
| FileData (fileData : Entry) (source : Source)   (* ok: true *)
| InvalidIndex (fileIndex : Z)                    (* ok: false *)
| ReadError.                                      (* ok: false *)

(** [handleFileRequest(fileIndex, sendResponse)]: the controller
    afterwards and the response sent. *)
Definition handleFileRequest (fileIndex : Z) (p : Controller)
  : Controller * Response :=
  let queueId :=
    or_id (popup_queueId p) (or_id (popup_queueState p ≫= Model.queueId) None) in
  let cacheKey :=
    match truthy_id queueId with
    | Some q => Some (cache_key q fileIndex)
    | None => None
    end in
  let '(p, fileEntry) :=
    match cacheKey with
    | Some _ => getStoredFileEntry queueId fileIndex p
    | None => (p, None)
    end in
  match fileEntry with
  | Some entry => (p, FileData entry from_cache)
  | None =>
      match file_at fileIndex p with
      | None => (p, InvalidIndex fileIndex)
      | Some file =>
          match file_data file with
          | None => (p, ReadError)
          | Some base64 =>
              let fileEntry := entry_of fileIndex file base64 in
              let p :=
                match cacheKey with
                | Some k => set_preloadedFiles (<[k := fileEntry]> (preloadedFiles p)) p
                | None => p
                end in
              (p, FileData fileEntry live)
          end
      end
  end.

(** [updateUIFromState()]: the state it gives to [setUIState]. *)
Definition updateUIFromState (p : Controller) : Controller :=
  match popup_queueState p with
  | None => p
  | Some s =>
      if truthy (Model.running s) && negb (truthy (Model.paused s))
      then setUIState ui_running p
      else if truthy (Model.paused s) then setUIState ui_paused p
      else setUIState ui_idle p
  end.

(** [handleStatusUpdate(data)] *)
Definition handleStatusUpdate (data : option QueueState) (p : Controller)
  : Controller :=
  let p := set_popup_queueState data p in
  let p :=
    match data with
    | Some d =>
        if negb (truthy (Model.running d)) then
          let isCompleted :=
            match totalTasks d with
            | Some t => negb (t =? 0) && js_ge (currentIndex d) t
            | None => false
            end in
          let hasNoPending := or0 (pendingTasks d) =? 0 in
          if isCompleted || hasNoPending
          then clearPreloadedFiles (or_id (Model.queueId d) (popup_queueId p)) p
          else p
        else p
    | None => p
    end in
  updateUIFromState p.

(** [startQueue()] up to the message FLOW_BATCH_START: the controller
    and, unless an error was caught, the state and the metadata that
    were stored and are sent.  [value], [flowMode] and [cropMode] are
    the values of the three inputs, [t0] and [t1] the two readings of
    the clock. *)
Definition startQueue_prepare (t0 t1 : Z) (value flowMode cropMode : jsstring)
    (p : Controller) : Controller * option (QueueState * TaskMetadata) :=
  let p := setUIState ui_preparing p in
  let prompts := getPrompts value in
  match Popup.startQueue t0 t1 prompts (map file_name (currentFiles p))
          flowMode cropMode with
  | None => (setUIState ui_idle p, None)
  | Some (queueState, metadata) =>
      let previousQueueId := popup_queueId p in
      let queueId := of_Z t0 in
      let p := set_popup_queueId (Some queueId) p in
      let p := clearPreloadedFiles previousQueueId p in
      match preloadQueueFiles (md_totalTasks metadata) (Some queueId) p with
      | (p, Rejected) => (setUIState ui_idle p, None)
      | (p, Fulfilled) =>
          (set_popup_queueState (Some queueState) p, Some (queueState, metadata))
      end
  end.

(** The rest of [startQueue()]: [success] is what [sendToActiveTab]
    gave. *)
Definition startQueue_sent (success : bool) (p : Controller) : Controller :=
  if success then setUIState ui_running p else setUIState ui_idle p.

(** The status updates that the content script sent, oldest first. *)
Definition status_updates (log : list Event) : list QueueState :=
  omap (fun e => match e with StatusUpdate s => Some s | _ => None end) (rev log).

(** The popup receives status updates one after the other. *)
Definition receive (updates : list QueueState) (p : Controller) : Controller :=
  foldl (fun p s => handleStatusUpdate (Some s) p) p updates.

End PopupFiles.

(** ** The page tests of the launcher and of the popup *)

Module Pages.

(** [s.startsWith(prefix)] *)
Fixpoint startsWith (prefix s : jsstring) : bool :=
  match prefix, s with
  | [], _ => true
  | _ :: _, [] => false
  | c :: prefix', d :: s' => (c =? d)%N && startsWith prefix' s'
  end.

(** [s.includes(part)] *)
Fixpoint includes (part s : jsstring) : bool :=
  startsWith part s
  || match s with
     | [] => false
     | _ :: s' => includes part s'
     end.

(** launcher.js, [FLOW_URL]: the page the launcher opens. *)
Definition FLOW_URL : jsstring := lit "https://labs.google/fx/tools/flow".

(** launcher.js, [detectActiveTab]: the value of [detected] for the URL
    of the active tab, which a tab may not have. *)
Definition detectActiveTab (url : option jsstring) : bool :=
  startsWith (lit "https://labs.google/fx") (or_default url []).

(** popup.js, [sendToActiveTab]: the test of the URL that a command
    has to pass before it is sent. *)
Definition accepted (url : option jsstring) : bool :=
  match url with
  | Some (c :: s) => includes (lit "labs.google/fx") (c :: s)
  | _ => false
  end.

End Pages.

(** * Properties *)

(** ** File names given to the download API *)

Module DownloadFacts.
Import Download.

Lemma trim_start_nil (s : jsstring) :
  trim_start s = [] <-> forallb is_ws s = true.
Proof.
  induction s as [|c s IH]; simpl; [tauto|].
  destruct (is_ws c); simpl; [exact IH|].
  split; discriminate.
Qed.

Lemma trim_start_suffix (s : jsstring) :
  exists ws, s = ws ++ trim_start s /\ forallb is_ws ws = true.
Proof.
  induction s as [|c s (ws & E & W)]; simpl.
  - by exists [].
  - destruct (is_ws c) eqn:C.
    + exists (c :: ws). simpl. rewrite C, W. split; [by f_equal | done].
    + by exists [].
Qed.

Lemma forallb_rev {A} (f : A -> bool) (l : list A) :
  forallb f (rev l) = forallb f l.
Proof.
  induction l as [|x l IH]; simpl; [done|].
  rewrite forallb_app, IH. simpl. rewrite andb_true_r. apply andb_comm.
Qed.

(** A string trims to nothing exactly when it is all white space. *)
Lemma trim_nil (s : jsstring) : trim s = [] <-> forallb is_ws s = true.
Proof.
  unfold trim. split.
  - intros H.
    assert (H1 : trim_start (rev (trim_start s)) = []).
    { apply (f_equal (@rev N)) in H. rewrite rev_involutive in H. exact H. }
    apply trim_start_nil in H1. rewrite forallb_rev in H1.
    destruct (trim_start_suffix s) as (ws & E & W).
    rewrite E, forallb_app, W, H1. done.
  - intros H. apply trim_start_nil in H. rewrite H. done.
Qed.

Lemma forbidden_not_ws (c : N) : forbidden c = true -> is_ws c = false.
Proof.
  unfold forbidden, forbidden_codes. simpl. rewrite !orb_true_iff.
  intros H. repeat destruct H as [H|H]; try discriminate;
    apply N.eqb_eq in H; subst c; reflexivity.
Qed.

Lemma replace_forbidden_ws (s : jsstring) :
  forallb is_ws (replace_forbidden s) = forallb is_ws s.
Proof.
  induction s as [|c s IH]; simpl; [done|].
  rewrite IH. destruct (forbidden c) eqn:F; [|done].
  by rewrite (forbidden_not_ws c F).
Qed.

Lemma replace_forbidden_free (s : jsstring) :
  Forall (fun c => forbidden c = false) (replace_forbidden s).
Proof.
  induction s as [|c s IH]; simpl; constructor; [|exact IH].
  by destruct (forbidden c) eqn:F.
Qed.

Lemma default_name_clean : clean default_name.
Proof.
  split; [|by vm_compute].
  unfold default_name. cbv [lit list_ascii_of_string map].
  repeat (constructor; [reflexivity|]). constructor.
Qed.

Lemma no_prompt_clean : clean no_prompt.
Proof.
  split; [|by vm_compute].
  unfold no_prompt. cbv [lit list_ascii_of_string map].
  repeat (constructor; [reflexivity|]). constructor.
Qed.

Lemma not_blank_trim (s : jsstring) : trim s <> [] -> blank s = false.
Proof.
  intros H. unfold blank. destruct (forallb is_ws s) eqn:W; [|done].
  apply trim_nil in W. contradiction.
Qed.

Lemma sanitizeFilename_clean (name : option jsstring) :
  clean (sanitizeFilename name).
Proof.
  unfold sanitizeFilename.
  destruct (trim (replace_forbidden (or_default name default_name))) eqn:T.
  - apply default_name_clean.
  - split; [apply replace_forbidden_free|].
    apply not_blank_trim. rewrite T. discriminate.
Qed.

(** What [sanitizeFilename] returns, by cases on the name. *)
Lemma sanitizeFilename_cases (n : jsstring) :
  sanitizeFilename (Some n) =
    if blank n then default_name else replace_forbidden n.
Proof.
  unfold sanitizeFilename, blank.
  destruct n as [|c n]; [reflexivity|]. cbn [or_default].
  destruct (trim (replace_forbidden (c :: n))) eqn:T.
  - apply trim_nil in T. rewrite replace_forbidden_ws in T. by rewrite T.
  - destruct (forallb is_ws (c :: n)) eqn:W; [|done].
    rewrite <- replace_forbidden_ws in W. apply trim_nil in W.
    rewrite W in T. discriminate.
Qed.

(** The snippet has none of the nine characters and is not empty. *)
Lemma snippet_free (prompt : option jsstring) :
  Forall (fun c => forbidden c = false) (generatePromptSnippet prompt)
  /\ (0 < length (generatePromptSnippet prompt))%nat.
Proof.
  assert (N0 : Forall (fun c => forbidden c = false) no_prompt
               /\ (0 < length no_prompt)%nat).
  { split; [apply no_prompt_clean | vm_compute; lia]. }
  unfold generatePromptSnippet.
  destruct prompt as [[|c p]|]; try exact N0.
  match goal with |- context [replace_forbidden ?s] =>
    generalize (replace_forbidden_free s); destruct (replace_forbidden s) end.
  - intros _. exact N0.
  - intros F. split; [exact F | simpl; lia].
Qed.

(** [replace_forbidden] changes the nine characters alone. *)
Lemma replace_forbidden_pointwise (s : jsstring) :
  length (replace_forbidden s) = length s
  /\ forall (i : nat) (c : N),
       s !! i = Some c ->
       replace_forbidden s !! i = Some (if forbidden c then underscore else c).
Proof.
  unfold replace_forbidden. split; [apply length_map|].
  induction s as [|d s IH]; intros [|i] c H; try discriminate; simpl in *.
  - by injection H as ->.
  - by apply IH.
Qed.

Lemma trim_start_solid (s : jsstring) :
  Forall (fun c => is_ws c = false) s -> trim_start s = s.
Proof. destruct 1 as [|c s Hc _]; simpl; [done|]. by rewrite Hc. Qed.

Lemma Forall_rev' {A} (P : A -> Prop) (l : list A) : Forall P l -> Forall P (rev l).
Proof.
  rewrite !Forall_forall. intros H x Hx. apply H.
  apply list_elem_of_In, in_rev, list_elem_of_In in Hx. exact Hx.
Qed.

(** A string without white space is trimmed already, and is one word. *)
Lemma trim_solid (s : jsstring) :
  Forall (fun c => is_ws c = false) s -> trim s = s.
Proof.
  intros H. unfold trim. rewrite (trim_start_solid s H).
  rewrite (trim_start_solid (rev s)) by (by apply Forall_rev').
  apply rev_involutive.
Qed.

Lemma split_ws_go_word (cur : jsstring) (skipping : bool) (w rest : jsstring) :
  Forall (fun c => is_ws c = false) w -> w <> [] ->
  split_ws_go cur skipping (w ++ rest) = split_ws_go (rev w ++ cur) false rest.
Proof.
  intros H. revert cur skipping.
  induction H as [|c w Hc Hw IH]; intros cur skipping Hne; [done|].
  simpl. rewrite Hc. destruct w as [|d w].
  - simpl. reflexivity.
  - rewrite IH by discriminate. simpl. by rewrite <- !app_assoc.
Qed.

Lemma split_ws_one_word (w : jsstring) :
  Forall (fun c => is_ws c = false) w -> split_ws w = [w].
Proof.
  intros H. unfold split_ws. destruct w as [|c w]; [reflexivity|].
  rewrite <- (app_nil_r (c :: w)) at 1.
  rewrite split_ws_go_word by done. simpl.
  rewrite app_nil_r. change (rev w ++ [c]) with (rev (c :: w)).
  by rewrite rev_involutive.
Qed.


Lemma split_ws_go_words (skipping : bool) (ws : list jsstring) :
  ws <> [] -> Forall (fun w : jsstring => w <> [] /\ Forall (fun c => is_ws c = false) w) ws ->
  split_ws_go [] skipping (join [32%N] ws) = ws.
Proof.
  intros Hne H. revert skipping.
  induction H as [|w ws [Hw1 Hw2] Hws IH]; intros skipping; [done|].
  destruct ws as [|w' ws].
  - simpl. rewrite <- (app_nil_r w) at 1.
    rewrite split_ws_go_word by done. simpl.
    by rewrite app_nil_r, rev_involutive.
  - change (join [32%N] (w :: w' :: ws)) with (w ++ 32%N :: join [32%N] (w' :: ws)).
    rewrite split_ws_go_word by done.
    cbn [split_ws_go]. change (is_ws 32) with true. cbn iota.
    rewrite app_nil_r, rev_involutive. f_equal. apply IH. discriminate.
Qed.

Lemma join_solid_ends (ws : list jsstring) :
  ws <> [] -> Forall (fun w : jsstring => w <> [] /\ Forall (fun c => is_ws c = false) w) ws ->
  trim (join [32%N] ws) = join [32%N] ws.
Proof.
  intros Hne H.
  assert (S : forall s, (exists c t, s = c :: t /\ is_ws c = false) -> trim_start s = s).
  { intros s (c & t & -> & Hc). simpl. by rewrite Hc. }
  unfold trim.
  assert (E1 : trim_start (join [32%N] ws) = join [32%N] ws).
  { apply S. destruct H as [|w ws [Hw1 Hw2] Hws]; [done|].
    destruct w as [|c w]; [done|]. inversion Hw2; subst.
    destruct ws; simpl; eauto. }
  rewrite E1, S; [apply rev_involutive|].
  (* the last code unit of the last word *)
  clear S E1. induction H as [|w ws [Hw1 Hw2] Hws IH]; [done|].
  destruct ws as [|w' ws].
  - simpl. destruct (rev w) as [|c t] eqn:R.
    { apply (f_equal (@rev N)) in R. rewrite rev_involutive in R.
      simpl in R. contradiction. }
    exists c, t. split; [done|].
    apply Forall_rev' in Hw2. rewrite R in Hw2. by inversion Hw2.
  - change (join [32%N] (w :: w' :: ws)) with (w ++ 32%N :: join [32%N] (w' :: ws)).
    rewrite rev_app_distr. cbn [rev]. rewrite <- !app_assoc.
    destruct (IH ltac:(discriminate)) as (c & t & E & Hc).
    rewrite E. exists c, (t ++ [32%N] ++ rev w). split; [reflexivity | exact Hc].
Qed.

(** What the snippet is made of, for a prompt that is not empty. *)
Lemma snippet_is_made_of_the_prompt (c : N) (p : jsstring) :
  generatePromptSnippet (Some (c :: p))
  = or_default
      (Some (replace_forbidden
               (if (1 <? length (split_ws (trim (c :: p))))%nat
                then join [underscore] (firstn 5 (split_ws (trim (c :: p))))
                else slice0 15 (trim (c :: p)))))
      no_prompt.
Proof. reflexivity. Qed.

Lemma or_default_nonempty (s d : jsstring) : s <> [] -> or_default (Some s) d = s.
Proof. by destruct s. Qed.

Lemma replace_forbidden_nonempty (s : jsstring) : s <> [] -> replace_forbidden s <> [].
Proof. by destruct s. Qed.

Lemma snippet_of_one_word (w : jsstring) :
  w <> [] -> Forall (fun c => is_ws c = false) w ->
  generatePromptSnippet (Some w) = replace_forbidden (firstn 15 w).
Proof.
  intros Hne H. destruct w as [|c w]; [done|].
  rewrite snippet_is_made_of_the_prompt, (trim_solid _ H), (split_ws_one_word _ H).
  cbn [length Nat.ltb Nat.leb]. unfold slice0.
  apply or_default_nonempty, replace_forbidden_nonempty. discriminate.
Qed.

Lemma join_nonempty (sep w : jsstring) (ws : list jsstring) :
  w <> [] -> join sep (w :: ws) <> [].
Proof. destruct w; [done|]. by destruct ws. Qed.

Lemma snippet_of_words (ws : list jsstring) :
  (2 <= length ws)%nat -> Forall (fun w : jsstring => w <> [] /\ Forall (fun c => is_ws c = false) w) ws ->
  generatePromptSnippet (Some (join [32%N] ws))
  = replace_forbidden (join [underscore] (firstn 5 ws)).
Proof.
  intros Hlen H.
  assert (Hne : ws <> []) by (destruct ws; [simpl in Hlen; lia | done]).
  destruct (join [32%N] ws) as [|c p] eqn:J.
  { destruct H as [|w ws [Hw _] _]; [done|]. by apply join_nonempty in J. }
  rewrite snippet_is_made_of_the_prompt, <- J.
  rewrite (join_solid_ends ws Hne H). unfold split_ws.
  rewrite (split_ws_go_words false ws Hne H).
  rewrite (proj2 (Nat.ltb_lt 1 (length ws))) by lia.
  apply or_default_nonempty, replace_forbidden_nonempty.
  destruct H as [|w ws [Hw _] _]; [done|]. cbn [firstn]. by apply join_nonempty.
Qed.

Lemma snippet_of_blank (p : jsstring) :
  blank p = true -> generatePromptSnippet (Some p) = no_prompt.
Proof.
  intros B. destruct p as [|c p]; [reflexivity|].
  rewrite snippet_is_made_of_the_prompt.
  apply trim_nil in B. rewrite B. reflexivity.
Qed.

(** C10.  Whatever URL and name a download message carries, the name
    given to the download API, when there is a download, has none of the
    characters backslash, slash, colon, star, question mark, double
    quote, less, greater and bar, and is neither empty nor white space
    only.  [sanitizeFilename] puts an underscore for each of these
    characters and returns flow_video.mp4 for a missing or blank name.
    The prompt snippet of the generated name has none of these
    characters either, is not empty, and is no_prompt for a missing,
    an empty or a blank prompt.  Otherwise it is made of the trimmed
    prompt: of its first five words joined by underscores when there is
    more than one word, of its first fifteen code units when there is
    one, with an underscore for each of the nine characters and every
    other code unit as it is. *)
Theorem download_filename_is_clean :
  (forall url filename : option jsstring,
     clean_if_any (download_api_filename url filename))
  /\ (forall (c : N) (url : jsstring) (taskIndex now : Z) (prompt : option jsstring),
       download_api_filename (Some (c :: url))
         (Some (download_request_name taskIndex prompt now))
       = Some (sanitizeFilename (Some (download_request_name taskIndex prompt now))))
  /\ (forall name : option jsstring, clean (sanitizeFilename name))
  /\ sanitizeFilename None = lit "flow_video.mp4"
  /\ (forall n : jsstring,
       sanitizeFilename (Some n)
       = if blank n then lit "flow_video.mp4" else replace_forbidden n)
  /\ (forall prompt : option jsstring,
       Forall (fun c => forbidden c = false) (generatePromptSnippet prompt)
       /\ (0 < length (generatePromptSnippet prompt))%nat)
  /\ generatePromptSnippet None = lit "no_prompt"
  /\ generatePromptSnippet (Some []) = lit "no_prompt"
  /\ (forall p : jsstring,
       blank p = true -> generatePromptSnippet (Some p) = lit "no_prompt")
  /\ (forall (c : N) (p : jsstring),
       generatePromptSnippet (Some (c :: p))
       = or_default
           (Some (replace_forbidden
                    (if (1 <? length (split_ws (trim (c :: p))))%nat
                     then join [underscore] (firstn 5 (split_ws (trim (c :: p))))
                     else slice0 15 (trim (c :: p)))))
           (lit "no_prompt"))
  /\ (forall s : jsstring,
       length (replace_forbidden s) = length s
       /\ forall (i : nat) (c : N),
            s !! i = Some c ->
            replace_forbidden s !! i = Some (if forbidden c then underscore else c))
  /\ (forall w : jsstring,
       w <> [] -> Forall (fun c => is_ws c = false) w ->
       generatePromptSnippet (Some w) = replace_forbidden (firstn 15 w))
  /\ (forall ws : list jsstring,
       (2 <= length ws)%nat ->
       Forall (fun w : jsstring => w <> [] /\ Forall (fun c => is_ws c = false) w) ws ->
       generatePromptSnippet (Some (join [32%N] ws))
       = replace_forbidden (join [underscore] (firstn 5 ws)))
  /\ generatePromptSnippet (Some (lit "a cat: on a mat / rug 1 2"))
     = lit "a_cat__on_a_mat"
  /\ generatePromptSnippet (Some (lit "  what/ever?  ")) = lit "what_ever_"
  /\ download_request_name 0 (Some (lit "a cat: on a mat")) 1700000000000
     = lit "1_a_cat__on_a_mat_1700000000000.mp4".
Proof.
  repeat match goal with |- _ /\ _ => apply conj end.
  - intros [[|c u]|] filename; simpl; try exact I. apply sanitizeFilename_clean.
  - intros c u taskIndex now prompt. unfold download_api_filename.
    destruct (download_request_name taskIndex prompt now); reflexivity.
  - apply sanitizeFilename_clean.
  - reflexivity.
  - apply sanitizeFilename_cases.
  - apply snippet_free.
  - reflexivity.
  - reflexivity.
  - apply snippet_of_blank.
  - apply snippet_is_made_of_the_prompt.
  - apply replace_forbidden_pointwise.
  - apply snippet_of_one_word.
  - apply snippet_of_words.
  - vm_compute. reflexivity.
  - vm_compute. reflexivity.
  - vm_compute. reflexivity.
Qed.

End DownloadFacts.

(** ** Races between the loop, the watches and the start handler *)

Module Races.
Import Model Async Script System Scenarios.

(** Facts about played scripts hold by evaluation. *)
Ltac by_evaluation :=
  repeat match goal with |- _ /\ _ => apply conj end;
  vm_compute; reflexivity.

(** C1 (fails on the code).  Two watches that each take one from
    [pendingTasks] start from 2 and leave 1, not 0: each computes its
    new value from a state it read before calling [updateQueueState],
    so the second write repeats the first.  One after the other, the
    same two watches leave 0. *)
Theorem concurrent_watches_lose_an_update :
  outcome both_submitted stored_pending = Some (Some 2)
  /\ outcome both_submitted live_watches = Some [0; 1]
  /\ outcome watches_finish_together live_watches = Some []
  /\ outcome watches_finish_together stored_pending = Some (Some 1)
  /\ outcome watches_finish_together stored_success = Some (Some 1)
  /\ outcome watches_finish_in_turn stored_pending = Some (Some (2 + (-1) + (-1)))
  /\ outcome watches_finish_in_turn stored_success = Some (Some 2).
Proof. by_evaluation. Qed.

(** C2 (fails on the code).  When each of three submissions is
    rejected by the executor, the run ends completed with
    [currentIndex = 3], no success and nothing pending, but with
    [failCount = 6]: the [catch] of [processTask] counts the failure
    and rethrows, and the [catch] of [processQueue] counts it again. *)
Theorem failed_submissions_are_counted_twice :
  outcome all_submissions_fail stored_fail = Some (Some 6)
  /\ outcome all_submissions_fail stored_success = Some (Some 0)
  /\ outcome all_submissions_fail stored_index = Some (Some 3)
  /\ outcome all_submissions_fail stored_total = Some (Some 3)
  /\ outcome all_submissions_fail stored_pending = Some (Some 0)
  /\ outcome all_submissions_fail stored_running = Some (Some false)
  /\ outcome all_submissions_fail stored_paused = Some (Some false)
  /\ outcome all_submissions_fail completion_reported = Some true
  /\ outcome all_submissions_fail live_loops = Some []
  /\ outcome all_submissions_fail live_watches = Some [].
Proof. by_evaluation. Qed.

(** C4 (fails on the code).  A second start during the drain of the
    first run leaves two submission loops: the old loop sleeps through
    the whole forced reset, finds [queueRunning] true again when it
    wakes, and takes task 0 of the new run, as the new loop has done.
    A pause between the two starts changes nothing. *)
Theorem second_start_leaves_two_loops :
  outcome first_run_draining live_loops = Some [WSleep PENDING_TASKS_WAIT]
  /\ outcome first_run_draining (fun c => now (mem c)) = Some 3800
  /\ outcome second_start (fun c => now (mem c)) = Some 8300
  /\ outcome second_start live_loops = Some [WSleep PENDING_TASKS_WAIT; WStorage]
  /\ outcome second_start stored_index = Some (Some 0)
  /\ outcome second_start stored_pending = Some (Some 0)
  /\ outcome second_start (fun c => queueRunning (mem c)) = Some true
  /\ outcome second_start (times_taken 0) = Some 1%nat
  /\ outcome both_loops_submit (fun c => now (mem c)) = Some 8800
  /\ outcome both_loops_submit live_loops
     = Some [WExec (XRequestFile 0); WExec XInputPrompt]
  /\ outcome both_loops_submit (times_taken 0) = Some 3%nat
  /\ outcome paused_then_started live_loops
     = Some [WSleep PENDING_TASKS_WAIT; WStorage]
  /\ outcome both_loops_submit_after_pause live_loops
     = Some [WExec (XRequestFile 0); WExec XInputPrompt].
Proof. by_evaluation. Qed.

(** C6 (fails on the code).  A run of one task is started while the
    loop of the previous run sleeps after its click for task 1.  When
    that loop wakes up it stores [currentIndex = 2], above
    [totalTasks = 1]; the loop of the new run then stores
    [currentIndex = 1], below the stored value. *)
Theorem surviving_loop_breaks_the_index :
  outcome first_run_in_task live_loops = Some [WSleep 1500]
  /\ outcome restarted_in_task stored_total = Some (Some 1)
  /\ outcome restarted_in_task stored_index = Some (Some 0)
  /\ outcome restarted_in_task live_loops = Some [WSleep 1500; WSleep 1500]
  /\ outcome old_loop_advances stored_total = Some (Some 1)
  /\ outcome old_loop_advances stored_index = Some (Some 2)
  /\ outcome new_loop_advances stored_total = Some (Some 1)
  /\ outcome new_loop_advances stored_index = Some (Some 1)
  /\ outcome restarted_in_task stored_queueId
     = outcome new_loop_advances stored_queueId.
Proof. by_evaluation. Qed.

(** C7 (fails on the code).  With the loop of a previous run still
    alive, two loops submit the tasks of the new run.  At
    [pendingTasks = 3] the new loop passes the capacity tests and
    clicks; while it sleeps after the click the old loop stores 4; then
    the new loop stores 5, above [QUEUE_LIMIT]. *)
Theorem two_loops_exceed_the_limit :
  outcome two_loops live_loops = Some [WSleep PENDING_TASKS_WAIT; WStorage]
  /\ outcome three_pending stored_pending = Some (Some 3)
  /\ outcome three_pending live_loops = Some [WSleep 1500; WSleep TASK_DELAY]
  /\ outcome new_loop_passes stored_pending = Some (Some 3)
  /\ outcome new_loop_passes live_loops = Some [WSleep 1500; WSleep 1500]
  /\ outcome old_loop_submits stored_pending = Some (Some 4)
  /\ outcome old_loop_submits live_loops
     = Some [WSleep QUEUE_THROTTLE_DELAY; WSleep 1500]
  /\ outcome new_loop_submits stored_pending = Some (Some 5)
  /\ outcome new_loop_submits live_watches = Some [0; 0; 0; 1; 1; 2]
  /\ QUEUE_LIMIT = 4.
Proof. by_evaluation. Qed.

(** C8 (counterexample).  The watch of a cleared run, function 2,
    ends while the state of a newer run is stored: it takes one from
    the [pendingTasks] of the new run and adds one to its
    [successCount], although the only task of the new run is still
    watched; the loop of the new run then reports completion. *)
Lemma stale_watch_changes_the_new_run :
  outcome first_run_draining stored_queueId = Some (Some (lit "1000"))
  /\ outcome first_run_draining live_watches = Some [0]
  /\ outcome cleared stored = Some None
  /\ outcome cleared live_watches = Some [0]
  /\ outcome new_run_pending stored_queueId = Some (Some (lit "8800"))
  /\ outcome new_run_pending stored_pending = Some (Some 1)
  /\ outcome new_run_pending stored_success = Some (Some 0)
  /\ outcome new_run_pending live_watches = Some [0; 0]
  /\ outcome new_run_pending completion_reported = Some false
  /\ outcome stale_watch_ends stored_queueId = Some (Some (lit "8800"))
  /\ outcome stale_watch_ends stored_pending = Some (Some 0)
  /\ outcome stale_watch_ends stored_success = Some (Some 1)
  /\ outcome stale_watch_ends live_watches = Some [0]
  /\ outcome new_run_ends completion_reported = Some true
  /\ outcome new_run_ends live_watches = Some [0].
Proof. by_evaluation. Qed.

(** C5 (counterexample).  The stored state says running and not
    paused, at index 3 of 10 with 2 pending, but no metadata is stored
    (a clear command came while the start handler was waiting): after a
    reload nothing is resumed.  With the metadata stored, the same
    state is resumed. *)
Lemma no_resume_without_metadata :
  outcome interrupted_without_metadata stored_running = Some (Some true)
  /\ outcome interrupted_without_metadata stored_paused = Some (Some false)
  /\ outcome interrupted_without_metadata stored_index = Some (Some 3)
  /\ outcome interrupted_without_metadata stored_total = Some (Some 10)
  /\ outcome interrupted_without_metadata stored_pending = Some (Some 2)
  /\ outcome interrupted_without_metadata
        (fun c => flowBatchTaskMetadata (mem c)) = Some None
  /\ outcome (interrupted_without_metadata ++ reload) live_loops = Some []
  /\ outcome (interrupted_without_metadata ++ reload)
        (fun c => queueRunning (mem c)) = Some false
  /\ outcome (interrupted_without_metadata ++ reload) stored_index = Some (Some 3)
  /\ outcome interrupted_with_metadata stored_index = Some (Some 3)
  /\ outcome interrupted_with_metadata stored_pending = Some (Some 2)
  /\ outcome (interrupted_with_metadata ++ reload) live_loops = Some [WStorage]
  /\ outcome (interrupted_with_metadata ++ reload)
        (fun c => queueRunning (mem c)) = Some true.
Proof. by_evaluation. Qed.

(** C3 (counterexample).  The loop reports completion, and stores
    [running = false] and [paused = false], while the stored
    [currentIndex] is 2 and the stored [totalTasks] is 1: the loop of a
    previous run, still alive, has stored its next index in the state
    of the new run, and the test of the loop is
    [currentIndex >= totalTasks]. *)
Lemma completion_above_the_total :
  outcome old_loop_counts stored_index = Some (Some 2)
  /\ outcome old_loop_counts stored_total = Some (Some 1)
  /\ outcome old_loop_counts stored_pending = Some (Some 1)
  /\ outcome first_watch_ends stored_index = Some (Some 2)
  /\ outcome first_watch_ends stored_total = Some (Some 1)
  /\ outcome first_watch_ends stored_pending = Some (Some 0)
  /\ outcome first_watch_ends completion_reported = Some false
  /\ outcome old_loop_examines completion_reported = Some true
  /\ outcome old_loop_ends completion_reported = Some true
  /\ outcome old_loop_ends stored_index = Some (Some 2)
  /\ outcome old_loop_ends stored_total = Some (Some 1)
  /\ outcome old_loop_ends stored_running = Some (Some false)
  /\ outcome old_loop_ends stored_paused = Some (Some false)
  /\ outcome old_loop_ends live_watches = Some [1].
Proof. by_evaluation. Qed.

(** A clear that comes between the reading and the writing of a watch
    is followed by a stored state again: the one the watch writes, with
    its two counters and nothing else. *)
Lemma watch_writes_into_the_cleared_store :
  outcome watch_has_read stored_pending = Some (Some 1)
  /\ outcome watch_has_read stored_success = Some (Some 0)
  /\ outcome watch_has_read live_watches = Some [0]
  /\ outcome cleared_after_the_read stored = Some None
  /\ outcome cleared_after_the_read live_watches = Some [0]
  /\ outcome watch_writes_after_the_clear live_watches = Some []
  /\ outcome watch_writes_after_the_clear stored_pending = Some (Some 0)
  /\ outcome watch_writes_after_the_clear stored_success = Some (Some 1)
  /\ outcome watch_writes_after_the_clear stored_queueId = Some None
  /\ outcome watch_writes_after_the_clear stored_total = Some None
  /\ outcome watch_writes_after_the_clear stored_index = Some None.
Proof. by_evaluation. Qed.

End Races.

(** ** Running a function step by step

    The equations of the event loop, used as rewriting rules: a run is
    unfolded one construct at a time, so that a test on unknown values
    stays in sight until a fact about the values settles it. *)

Module Symbolic.
Import Model Async Script System Scenarios.

Lemma advance_Ret {R} (r : R) (m : Mem) : advance (Ret r) m = (m, SDone r).
Proof. reflexivity. Qed.

Lemma advance_Throw {R} (e : Err) (m : Mem) : advance (@Throw R e) m = (m, SFail e).
Proof. reflexivity. Qed.

Lemma advance_Act {R} (f : Mem -> R * Mem) (m : Mem) :
  advance (Act f) m = let '(r, m') := f m in (m', SDone r).
Proof. reflexivity. Qed.

Lemma advance_Await (w : Wait) (m : Mem) :
  advance (Await w) m = (m, SBlocked w (fun r => Ret r)).
Proof. reflexivity. Qed.

Lemma advance_Bind {A R} (p : Async A) (k : A -> Async R) (m : Mem) :
  advance (Bind p k) m =
  match advance p m with
  | (m', SDone a) => advance (k a) m'
  | (m', SFail e) => (m', SFail e)
  | (m', SBlocked w k') => (m', SBlocked w (fun r => Bind (k' r) k))
  end.
Proof. reflexivity. Qed.

Lemma advance_TryCatch {R} (p : Async R) (h : Err -> Async R) (m : Mem) :
  advance (TryCatch p h) m =
  match advance p m with
  | (m', SDone r) => (m', SDone r)
  | (m', SFail e) => advance (h e) m'
  | (m', SBlocked w k') => (m', SBlocked w (fun r => TryCatch (k' r) h))
  end.
Proof. reflexivity. Qed.

Lemma advance_Iter {I R} (body : I -> Async (I + R)) (i : I) (m : Mem) :
  advance (Iter body i) m =
  match advance (body i) m with
  | (m', SDone (inl i')) => (m', SBlocked WLap (fun _ => Iter body i'))
  | (m', SDone (inr r)) => (m', SDone r)
  | (m', SFail e) => (m', SFail e)
  | (m', SBlocked w k') => (m', SBlocked w (fun r => Bind (k' r) (iter_next body)))
  end.
Proof. reflexivity. Qed.

(** The same equations, as rules that compose runs of the parts. *)
Section BigStep.
Context {A R : Type}.

Lemma Act_runs (f : Mem -> R * Mem) (m m' : Mem) (r : R) :
  f m = (r, m') -> advance (Act f) m = (m', SDone r).
Proof. intros H. rewrite advance_Act, H. reflexivity. Qed.

Lemma Bind_goes_on (p : Async A) (k : A -> Async R) (m m' : Mem) (a : A)
    (s : Mem * Status R) :
  advance p m = (m', SDone a) -> advance (k a) m' = s -> advance (Bind p k) m = s.
Proof. intros H1 H2. rewrite advance_Bind, H1. exact H2. Qed.

Lemma Bind_fails (p : Async A) (k : A -> Async R) (m m' : Mem) (e : Err) :
  advance p m = (m', SFail e) -> advance (Bind p k) m = (m', SFail e).
Proof. intros H. rewrite advance_Bind, H. reflexivity. Qed.

Lemma Bind_blocks (p : Async A) (k : A -> Async R) (m m' : Mem) (w : Wait) k' :
  advance p m = (m', SBlocked w k') ->
  advance (Bind p k) m = (m', SBlocked w (fun r => Bind (k' r) k)).
Proof. intros H. rewrite advance_Bind, H. reflexivity. Qed.

Lemma TryCatch_returns (p : Async R) (h : Err -> Async R) (m m' : Mem) (r : R) :
  advance p m = (m', SDone r) -> advance (TryCatch p h) m = (m', SDone r).
Proof. intros H. rewrite advance_TryCatch, H. reflexivity. Qed.

Lemma TryCatch_catches (p : Async R) (h : Err -> Async R) (m m' : Mem) (e : Err)
    (s : Mem * Status R) :
  advance p m = (m', SFail e) -> advance (h e) m' = s ->
  advance (TryCatch p h) m = s.
Proof. intros H1 H2. rewrite advance_TryCatch, H1. exact H2. Qed.

Lemma TryCatch_blocks (p : Async R) (h : Err -> Async R) (m m' : Mem) (w : Wait) k' :
  advance p m = (m', SBlocked w k') ->
  advance (TryCatch p h) m = (m', SBlocked w (fun r => TryCatch (k' r) h)).
Proof. intros H. rewrite advance_TryCatch, H. reflexivity. Qed.

Lemma Iter_again (body : A -> Async (A + R)) (i i' : A) (m m' : Mem) :
  advance (body i) m = (m', SDone (inl i')) ->
  advance (Iter body i) m = (m', SBlocked WLap (fun _ => Iter body i')).
Proof. intros H. rewrite advance_Iter, H. reflexivity. Qed.

Lemma Iter_leaves (body : A -> Async (A + R)) (i : A) (m m' : Mem) (r : R) :
  advance (body i) m = (m', SDone (inr r)) ->
  advance (Iter body i) m = (m', SDone r).
Proof. intros H. rewrite advance_Iter, H. reflexivity. Qed.

Lemma Iter_fails (body : A -> Async (A + R)) (i : A) (m m' : Mem) (e : Err) :
  advance (body i) m = (m', SFail e) ->
  advance (Iter body i) m = (m', SFail e).
Proof. intros H. rewrite advance_Iter, H. reflexivity. Qed.

Lemma Iter_blocks (body : A -> Async (A + R)) (i : A) (m m' : Mem) (w : Wait) k' :
  advance (body i) m = (m', SBlocked w k') ->
  advance (Iter body i) m
  = (m', SBlocked w (fun r => Bind (k' r) (iter_next body))).
Proof. intros H. rewrite advance_Iter, H. reflexivity. Qed.

End BigStep.

Lemma drive_S (fuel : nat) (p : Async unit) (m : Mem) :
  drive program (S fuel) p m =
  match advance p m with
  | (m1, SDone _) => (m1, Finished, [])
  | (m1, SFail e) => (m1, Crashed e, [])
  | (m1, SBlocked (WStart s) k) =>
      let '(m2, child, grand) := drive program fuel (program s) m1 in
      let '(m3, me, born) := drive program fuel (k ROk) m2 in
      (m3, me, mkTask s child :: grand ++ born)
  | (m1, SBlocked w k) => (m1, Suspended w (now m1) k, [])
  end.
Proof. reflexivity. Qed.

Lemma spawn_eq (s : ThreadSpec) (c : Config) :
  spawn s c =
  let '(m', me, born) := drive program turn_fuel (program s) (mem c) in
  mkConfig m' (threads c ++ mkTask s me :: born).
Proof. reflexivity. Qed.

Lemma step_Resume (tid : nat) (r : Reply) (c : Config) :
  step (Resume tid r) c =
  match threads c !! tid with
  | Some (mkTask o (Suspended w since k)) =>
      if ready (mem c) w since r then
        let '(m', me, born) := drive program turn_fuel (k r) (mem c) in
        Some (mkConfig m' (<[tid := mkTask o me]> (threads c) ++ born))
      else None
  | _ => None
  end.
Proof. reflexivity. Qed.

Lemma step_Tick (ms : Z) (c : Config) :
  step (Tick ms) c =
  if (0 <=? ms) && (forallb (allows ms (mem c)) (threads c) || (ms =? 0))
  then Some (mkConfig (with_now (now (mem c) + ms) (mem c)) (threads c))
  else None.
Proof. reflexivity. Qed.

Lemma step_Deliver (cmd : Command) (c : Config) :
  step (Deliver cmd) c = Some (spawn (handler cmd) c).
Proof. reflexivity. Qed.

Lemma run_nil (c : Config) : run [] c = Some c.
Proof. reflexivity. Qed.

Lemma run_cons (a : Action) (rest : list Action) (c : Config) :
  run (a :: rest) c =
  match step a c with
  | Some c' => run rest c'
  | None => None
  end.
Proof. reflexivity. Qed.

Lemma solo_O (oracle : ExecCall -> Reply) (tid : nat) (c : Config) :
  solo 0 oracle tid c = Some c.
Proof. reflexivity. Qed.

Lemma solo_S (fuel : nat) (oracle : ExecCall -> Reply) (tid : nat) (c : Config) :
  solo (S fuel) oracle tid c =
  match solo_turn oracle tid c with
  | None => Some c
  | Some acts =>
      match run acts c with
      | Some c' => solo fuel oracle tid c'
      | None => None
      end
  end.
Proof. reflexivity. Qed.

Lemma turns_O (oracle : ExecCall -> Reply) (tid : nat) (c : Config) :
  turns 0 oracle tid c = Some c.
Proof. reflexivity. Qed.

Lemma turns_S (n : nat) (oracle : ExecCall -> Reply) (tid : nat) (c : Config) :
  turns (S n) oracle tid c =
  match solo_turn oracle tid c with
  | None => None
  | Some acts =>
      match run acts c with
      | Some c' => turns n oracle tid c'
      | None => None
      end
  end.
Proof. reflexivity. Qed.

Lemma turns_plus (n k : nat) (oracle : ExecCall -> Reply) (tid : nat) (c : Config) :
  turns (n + k) oracle tid c = turns n oracle tid c ≫= turns k oracle tid.
Proof.
  revert c. induction n as [|n IH]; intros c.
  - rewrite turns_O. reflexivity.
  - change (S n + k)%nat with (S (n + k)). rewrite !turns_S.
    destruct (solo_turn oracle tid c) as [acts|]; [|reflexivity].
    destruct (run acts c) as [c'|]; [|reflexivity]. apply IH.
Qed.

Lemma play_nil (c : Config) : play [] c = Some c.
Proof. reflexivity. Qed.

Lemma play_cons (p : Phase) (rest : list Phase) (c : Config) :
  play (p :: rest) c =
  match phase p c with
  | Some c' => play rest c'
  | None => None
  end.
Proof. reflexivity. Qed.

(** The timer of a sleeper has fired once the clock was moved for it. *)
Lemma wake_ready (since ms t : Z) :
  (since + ms <=? t + Z.max 0 (since + ms - t)) = true.
Proof. apply Z.leb_le. lia. Qed.

Lemma tick_allowed (x : Z) : (0 <=? Z.max 0 x) = true.
Proof. apply Z.leb_le. lia. Qed.

(** Time may pass until the timer of the sleeper itself fires. *)
Lemma own_timer (since d t : Z) :
  t <= since + d -> (t + Z.max 0 (since + d - t) <=? since + d) = true.
Proof. intros H. apply Z.leb_le. lia. Qed.

(** The memory is kept as a record of its twelve parts. *)
#[global] Arguments with_queueState _ !_ /.
#[global] Arguments with_taskMetadata _ !_ /.
#[global] Arguments with_queueRunning _ !_ /.
#[global] Arguments with_currentTaskPointer _ !_ /.
#[global] Arguments with_currentQueueId _ !_ /.
#[global] Arguments with_metadata _ !_ /.
#[global] Arguments with_updatingState _ !_ /.
#[global] Arguments with_promises _ !_ /.
#[global] Arguments with_resolved _ !_ /.
#[global] Arguments with_now _ !_ /.
#[global] Arguments with_videoCards _ !_ /.
#[global] Arguments with_events _ !_ /.
#[global] Arguments reloaded !_ /.
#[global] Arguments js_ge !_ _ /.
#[global] Arguments js_lt !_ !_ /.
#[global] Arguments js_strict_ne !_ _ /.

#[global] Opaque advance drive step run solo turns play spawn.
#[global] Opaque Z.eqb Z.ltb Z.leb Z.add Z.sub Z.max.
#[global] Opaque Download.download_request_name.

(** Side conditions on the delays of the script. *)
Ltac delays :=
  unfold PENDING_TASKS_WAIT, TASK_DELAY, CLICK_DELAY, QUEUE_CHECK_INTERVAL,
    QUEUE_THROTTLE_DELAY, QUEUE_CAPACITY_TIMEOUT, QUEUE_LIMIT in *; lia.

Ltac head_of t :=
  lazymatch t with
  | ?f _ => head_of f
  | _ => t
  end.

(** Unfold the name of the function that runs next. *)
Ltac expose :=
  match goal with
  | |- context [advance ?p _] =>
      let h := head_of p in
      lazymatch h with
      | @Bind => fail
      | @Ret => fail
      | @Throw => fail
      | @Act => fail
      | @Await => fail
      | @TryCatch => fail
      | @Iter => fail
      | _ => progress unfold h
      end
  end.

(** A test on numbers that the hypotheses decide. *)
Ltac settle :=
  match goal with
  | |- context [?a <? ?b] =>
      first [ rewrite (proj2 (Z.ltb_lt a b)) by delays
            | rewrite (proj2 (Z.ltb_ge a b)) by delays ]
  | |- context [?a <=? ?b] =>
      first [ rewrite (proj2 (Z.leb_le a b)) by delays
            | rewrite (proj2 (Z.leb_gt a b)) by delays ]
  | |- context [?a =? ?b] =>
      first [ rewrite (proj2 (Z.eqb_eq a b)) by delays
            | rewrite (proj2 (Z.eqb_neq a b)) by delays ]
  | |- context [bool_decide ?P] =>
      first [ rewrite (bool_decide_eq_true_2 P) by first [assumption | delays]
            | rewrite (bool_decide_eq_false_2 P) by first [assumption | delays] ]
  end.

(** Use what is known about the test that comes next. *)
Ltac known x :=
  match goal with
  | H : x = _ |- _ => rewrite H
  | H : ?y = _ |- _ => match x with context [y] => rewrite H end
  end.

Ltac decide_test x :=
  first [ known x | settle ];
  rewrite ?orb_true_r, ?orb_false_r, ?andb_true_r, ?andb_false_r; cbn.

(** The run of a function up to its next suspension, from the runs of
    its parts; it fails at a test that nothing decides. *)
Ltac big_step :=
  cbn;
  lazymatch goal with
  | |- advance ?p ?m = _ =>
      lazymatch p with
      | Ret _ => exact (advance_Ret _ _)
      | Throw _ => exact (advance_Throw _ _)
      | Await _ => exact (advance_Await _ _)
      | Act _ => apply Act_runs; cbn; reflexivity
      | Bind ?p1 ?k =>
          let H := fresh "H" in
          eassert (H : advance p1 m = _) by big_step;
          lazymatch type of H with
          | _ = (_, SDone _) =>
              eapply (Bind_goes_on _ _ _ _ _ _ H); clear H; big_step
          | _ = (_, SFail _) => exact (Bind_fails _ _ _ _ _ H)
          | _ = (_, SBlocked _ _) => exact (Bind_blocks _ _ _ _ _ _ H)
          end
      | TryCatch ?p1 ?h =>
          let H := fresh "H" in
          eassert (H : advance p1 m = _) by big_step;
          lazymatch type of H with
          | _ = (_, SDone _) => exact (TryCatch_returns _ _ _ _ _ H)
          | _ = (_, SFail _) =>
              eapply (TryCatch_catches _ _ _ _ _ _ H); clear H; big_step
          | _ = (_, SBlocked _ _) => exact (TryCatch_blocks _ _ _ _ _ _ H)
          end
      | Iter ?body ?i =>
          let H := fresh "H" in
          eassert (H : advance (body i) m = _) by big_step;
          lazymatch type of H with
          | _ = (_, SDone (inl _)) => exact (Iter_again _ _ _ _ _ H)
          | _ = (_, SDone (inr _)) => exact (Iter_leaves _ _ _ _ _ H)
          | _ = (_, SFail _) => exact (Iter_fails _ _ _ _ _ H)
          | _ = (_, SBlocked _ _) => exact (Iter_blocks _ _ _ _ _ _ H)
          end
      | match ?x with _ => _ end => decide_test x; big_step
      | _ => let h := head_of p in progress unfold h; big_step
      end
  end.

Ltac whole_turn :=
  match goal with
  | |- context [advance ?p ?m] =>
      let H := fresh "H" in
      eassert (H : advance p m = _) by big_step;
      rewrite H; clear H
  end.

Ltac forward1 :=
  first
    [ whole_turn
    | rewrite advance_Bind | rewrite advance_TryCatch | rewrite advance_Iter
    | rewrite advance_Ret | rewrite advance_Throw | rewrite advance_Act
    | rewrite advance_Await | rewrite drive_S | rewrite spawn_eq
    | rewrite step_Resume | rewrite step_Tick | rewrite step_Deliver
    | rewrite run_cons | rewrite run_nil
    | rewrite solo_S | rewrite solo_O | rewrite turns_S | rewrite turns_O
    | rewrite play_cons | rewrite play_nil
    | rewrite wake_ready | rewrite tick_allowed | rewrite own_timer by delays
    | progress unfold turn_fuel, solo_fuel, solo_turn, phase
    | expose ];
  cbn.

(** Run as far as the known values allow. *)
Ltac forward := repeat forward1.

Ltac conjuncts := repeat match goal with |- _ /\ _ => apply conj end.

(** A test of the program: decided by what is known, or else both
    ways. *)
Ltac case_test :=
  match goal with
  | |- context [advance (if ?b then _ else _) _] =>
      first [ decide_test b | destruct b eqn:? ]
  | |- context [advance (match ?x with Some _ => _ | None => _ end) _] =>
      first [ decide_test x | destruct x eqn:? ]
  end.

Ltac all_paths := repeat (forward; try case_test; cbn).

(** The run is evaluated: it is the witness, and the facts about it
    hold by computation. *)
Ltac reached := eexists; split; [reflexivity|]; conjuncts; reflexivity.

End Symbolic.

(** ** What one function does when nothing interleaves *)

Module Sequential.
Import Model Async Script System Scenarios Symbolic.

(** C9.  A watch whose video is ready and whose download is refused
    logs the refusal as a warning and then stores [successCount + 1] and
    [pendingTasks - 1] (not below 0), leaving [failCount] as it was: the
    same state as when the download is acknowledged. *)
Theorem refused_download_counts_as_success :
  forall (m : Mem) (st : QueueState) (i : Z) (prompt : jsstring)
         (videoCount : Z) (u : jsstring),
    let c0 := watch_at m (Some st) i prompt videoCount in
    let refused := solo 12 (watch_env (Some u) false) 0 c0 in
    let acknowledged := solo 12 (watch_env (Some u) true) 0 c0 in
    stored <$> refused = Some (Some (success_write st))
    /\ stored <$> acknowledged = Some (Some (success_write st))
    /\ (fun c => finished c 0) <$> refused = Some true
    /\ successCount (success_write st) = Some (or0 (successCount st) + 1)
    /\ pendingTasks (success_write st) = Some (Z.max 0 (or0 (pendingTasks st) - 1))
    /\ failCount (success_write st) = failCount st
    /\ (exists e log,
          (fun c => events (mem c)) <$> refused = Some log
          /\ logged_in_order (Log warning (MDownloadRequestFailed i e))
               (StatusUpdate (success_write st)) log).
Proof.
  intros m st i prompt videoCount u c0 refused acknowledged.
  subst refused acknowledged c0. destruct m, st. unfold watch_at. cbn.
  destruct (Z.max 0 (or0 pendingTasks0 - 1) <? QUEUE_LIMIT) eqn:Hroom; unfold or0 in Hroom.
  all: forward; conjuncts; try reflexivity.
  - do 2 eexists. split; [reflexivity|].
    eexists [_; _; _], [_; _], _. reflexivity.
  - do 2 eexists. split; [reflexivity|].
    eexists [_; _], [_; _], _. reflexivity.
Qed.

(** *** The start handler and the loop, alone *)

(** Alone, the start handler stores [running = false], waits 800 ms and
    [CLICK_DELAY], stores the fresh state and starts the loop. *)
Lemma start_resets_then_stores_fresh_state (m : Mem) (q : option QueueState)
    (md : TaskMetadata) :
  exists c log,
    solo 12 ok 0 (start_at m q md) = Some c
    /\ finished c 0 = true
    /\ now (mem c) = now m + 800 + CLICK_DELAY
    /\ stored c = Some (fresh_state q md (now m + 800 + CLICK_DELAY))
    /\ queueRunning (mem c) = true
    /\ currentTaskPointer (mem c) = 0
    /\ metadata (mem c) = Some md
    /\ live_loops c = [WStorage]
    /\ events (mem c) = log
    /\ logged_in_order (StatusUpdate (reset_state q))
         (StatusUpdate (fresh_state q md (now m + 800 + CLICK_DELAY))) log.
Proof.
  destruct m, md. unfold start_at. cbn.
  destruct q as [[]|]; cbn; forward.
  all: replace (Z.max 0 (now0 + 800 - now0)) with 800 by lia.
  all: replace (Z.max 0 (now0 + 800 + CLICK_DELAY - (now0 + 800)))
         with CLICK_DELAY by delays.
  all: do 2 eexists; conjuncts; try reflexivity.
  all: eexists [_; _; _], [_], _; reflexivity.
Qed.

(** A submission that the executor rejects at its first step is counted
    twice in [failCount]: by the [catch] of [processTask] and by the
    [catch] of [processQueue], which also moves to the next index. *)
Lemma failed_submission_counted_twice (m : Mem) (st : QueueState)
    (md : TaskMetadata) (prompts : list jsstring) (a : jsstring) (ci tt p f : Z) :
  0 <= ci -> ci < tt -> ci < md_totalTasks md -> p < QUEUE_LIMIT ->
  prompts !! Z.to_nat ci = Some a ->
  exists c,
    turns 8 submission_fails 0
      (loop_at (with_metadata (Some (with_prompts prompts md)) m)
         (set_failCount f (interrupted ci tt p st))) = Some c
    /\ waiting c 0 = Some (WSleep 1000)
    /\ stored_fail c = Some (f + 1 + 1)
    /\ stored_index c = Some (ci + 1)
    /\ live_watches c = [].
Proof.
  intros H0 Hi Hmd Hp Ha. destruct m, st, md. cbn in Hmd.
  unfold loop_at, interrupted, indexed. cbn.
  destruct (Z.eqb_spec currentTaskPointer0 ci) as [->|Hptr]; forward; reached.
Qed.

(** *** A watch and the stored state *)

(** After a clear, a watch that ends finds no state and stores none. *)
Lemma cleared_watch_writes_nothing (m : Mem) (q : option QueueState) (i : Z)
    (prompt : jsstring) (videoCount : Z) (gen : option jsstring) (download : bool) :
  exists c,
    play (clear_then_watch gen download) (watch_at m q i prompt videoCount) = Some c
    /\ finished c 0 = true
    /\ stored c = None
    /\ flowBatchTaskMetadata (mem c) = None
    /\ state_written c = false.
Proof.
  destruct m. unfold watch_at, clear_then_watch. cbn.
  destruct gen as [u|], download; cbn; forward; reached.
Qed.

(** A watch that ends while a state is stored updates that state. *)
Lemma watch_updates_stored_state (m : Mem) (st : QueueState) (i : Z)
    (prompt : jsstring) (videoCount : Z) (gen : option jsstring) (download : bool) :
  exists c,
    solo 12 (watch_env gen download) 0 (watch_at m (Some st) i prompt videoCount) = Some c
    /\ finished c 0 = true
    /\ stored c = Some (match gen with
                        | Some _ => success_write st
                        | None => failure_write st
                        end).
Proof.
  destruct m, st. unfold watch_at. cbn.
  destruct (Z.max 0 (or0 pendingTasks0 - 1) <? QUEUE_LIMIT) eqn:Hroom; unfold or0 in Hroom.
  all: destruct gen as [u|], download; cbn; forward; reached.
Qed.

Lemma interleaved_cons (tid : nat) (m : Mem) (r : Reply) rest (c : Config) :
  interleaved tid ((m, r) :: rest) c
  = match step (Resume tid r) (meanwhile m c) with
    | Some c' => interleaved tid rest c'
    | None => None
    end.
Proof. reflexivity. Qed.

Lemma interleaved_nil (tid : nat) (c : Config) : interleaved tid [] c = Some c.
Proof. reflexivity. Qed.

Ltac among := repeat (rewrite ?interleaved_cons, ?interleaved_nil; unfold meanwhile; cbn; forward).

(** A watch whose video is ready reads the store after the download
    was asked for.  When it reads no state, it ends at its next turn
    and leaves the memory as the others have left it. *)
Lemma ready_watch_reads_nothing (m ma m1 m2 : Mem) (q : option QueueState) (i : Z)
    (prompt : jsstring) (videoCount : Z) (u : jsstring) (download : bool) :
  flowBatchQueueState m1 = None ->
  exists c,
    interleaved 0 [(ma, RUrl u); (m1, acknowledged download); (m2, ROk)]
      (watch_at m q i prompt videoCount) = Some c
    /\ finished c 0 = true
    /\ mem c = m2.
Proof.
  intros H1. destruct m, ma, m1, m2. cbn in H1. subst. unfold watch_at. cbn.
  forward. destruct download; among; reached.
Qed.

(** When it reads a state, it passes the counters computed from that
    state to [updateQueueState], which merges them into the state that
    is stored when it reads the store itself, or into an empty object. *)
Lemma ready_watch_writes (m ma m1 m2 m3 : Mem) (q : option QueueState) (i : Z)
    (prompt : jsstring) (videoCount : Z) (u : jsstring) (download : bool)
    (s1 : QueueState) :
  flowBatchQueueState m1 = Some s1 -> updatingState m2 = None ->
  exists c,
    interleaved 0
      [(ma, RUrl u); (m1, acknowledged download); (m2, ROk); (m3, ROk)]
      (watch_at m q i prompt videoCount) = Some c
    /\ waiting c 0 = Some WStorage
    /\ stored c
       = Some (spread (default empty_object (flowBatchQueueState m2))
                 (success_updates s1)).
Proof.
  intros H1 H2. destruct m, ma, m1, m2, m3. cbn in H1, H2. subst.
  unfold watch_at. cbn.
  forward. destruct download; among; reached.
Qed.

(** The same when another update holds the lock: the watch waits for
    its promise and then goes on alike. *)
Lemma ready_watch_writes_after_the_lock (m ma m1 m2 m2' m3 : Mem)
    (q : option QueueState) (i : Z) (prompt : jsstring) (videoCount : Z)
    (u : jsstring) (download : bool) (s1 : QueueState) (p : nat) :
  flowBatchQueueState m1 = Some s1 -> updatingState m2 = Some p ->
  p ∈ resolved m2' ->
  exists c,
    interleaved 0
      [(ma, RUrl u); (m1, acknowledged download); (m2, ROk); (m2', ROk); (m3, ROk)]
      (watch_at m q i prompt videoCount) = Some c
    /\ waiting c 0 = Some WStorage
    /\ stored c
       = Some (spread (default empty_object (flowBatchQueueState m2'))
                 (success_updates s1)).
Proof.
  intros H1 H2 H3. destruct m, ma, m1, m2, m2', m3. cbn in H1, H2, H3. subst.
  unfold watch_at. cbn.
  forward.
  destruct download; among; rewrite (bool_decide_eq_true_2 _ H3); among; reached.
Qed.

(** A watch whose generation failed reads the store in the same turn. *)
Lemma failed_watch_reads_nothing (m m1 m2 : Mem) (q : option QueueState) (i : Z)
    (prompt : jsstring) (videoCount : Z) :
  flowBatchQueueState m1 = None ->
  exists c,
    interleaved 0 [(m1, RFail); (m2, ROk)] (watch_at m q i prompt videoCount) = Some c
    /\ finished c 0 = true
    /\ mem c = m2.
Proof.
  intros H1. destruct m, m1, m2. cbn in H1. subst. unfold watch_at. cbn.
  forward. among; reached.
Qed.

Lemma failed_watch_writes (m m1 m2 m3 : Mem) (q : option QueueState) (i : Z)
    (prompt : jsstring) (videoCount : Z) (s1 : QueueState) :
  flowBatchQueueState m1 = Some s1 -> updatingState m2 = None ->
  exists c,
    interleaved 0 [(m1, RFail); (m2, ROk); (m3, ROk)]
      (watch_at m q i prompt videoCount) = Some c
    /\ waiting c 0 = Some WStorage
    /\ stored c
       = Some (spread (default empty_object (flowBatchQueueState m2))
                 (failure_updates s1)).
Proof.
  intros H1 H2. destruct m, m1, m2, m3. cbn in H1, H2. subst.
  unfold watch_at. cbn.
  forward. among; reached.
Qed.

Lemma failed_watch_writes_after_the_lock (m m1 m2 m2' m3 : Mem)
    (q : option QueueState) (i : Z) (prompt : jsstring) (videoCount : Z)
    (s1 : QueueState) (p : nat) :
  flowBatchQueueState m1 = Some s1 -> updatingState m2 = Some p ->
  p ∈ resolved m2' ->
  exists c,
    interleaved 0 [(m1, RFail); (m2, ROk); (m2', ROk); (m3, ROk)]
      (watch_at m q i prompt videoCount) = Some c
    /\ waiting c 0 = Some WStorage
    /\ stored c
       = Some (spread (default empty_object (flowBatchQueueState m2'))
                 (failure_updates s1)).
Proof.
  intros H1 H2 H3. destruct m, m1, m2, m2', m3. cbn in H1, H2, H3. subst.
  unfold watch_at. cbn.
  forward. among. rewrite (bool_decide_eq_true_2 _ H3). among. reached.
Qed.

(** What is stored when the counters of a watch are merged into [q]. *)
Lemma merged_counters (q : option QueueState) (s1 : QueueState) :
  let ready := spread (default empty_object q) (success_updates s1) in
  let failed := spread (default empty_object q) (failure_updates s1) in
  pendingTasks ready = Some (Z.max 0 (or0 (pendingTasks s1) - 1))
  /\ successCount ready = Some (or0 (successCount s1) + 1)
  /\ pendingTasks failed = Some (Z.max 0 (or0 (pendingTasks s1) - 1))
  /\ failCount failed = Some (or0 (failCount s1) + 1)
  /\ queueId ready = q ≫= queueId
  /\ queueId failed = q ≫= queueId
  /\ totalTasks ready = q ≫= totalTasks
  /\ currentIndex ready = q ≫= currentIndex
  /\ failCount ready = q ≫= failCount
  /\ successCount failed = q ≫= successCount.
Proof. destruct q as [[]|]; cbn; conjuncts; reflexivity. Qed.

(** C8 (amended).  A watch carries no identity of its run, and no
    function of the script compares one.  A watch that has reached its
    end, with a video or with a failed generation, reads the store
    once.  When it reads no state it writes nothing and ends, leaving
    the memory as the other functions have left it; so it does when the
    queue was cleared before and nothing was stored since.  When it
    reads a state [s1], of whatever run, it passes to
    [updateQueueState] one less than the [pendingTasks] of [s1] (not
    below 0) and one more than its [successCount], or than its
    [failCount] when the generation failed; [updateQueueState], at once
    or after the update that holds the lock, merges these two numbers
    into the state that is stored when it reads the store itself, whose
    other keys, [queueId] among them, are kept, or into an empty object
    when no state is stored then, as after a clear: the state that is
    then stored has the two numbers and no [queueId]; a run of one
    task, cleared between the reading and the writing of its watch,
    comes to this.  Undisturbed, the watch stores the state it has read
    with the two numbers changed. *)
Theorem watch_writes_what_it_has_read :
  forall (m ma m1 m2 m2' m3 : Mem) (q : option QueueState) (st s1 : QueueState)
         (i : Z) (prompt : jsstring) (videoCount : Z) (u : jsstring)
         (gen : option jsstring) (download : bool) (p : nat),
    let c0 := watch_at m q i prompt videoCount in
    let had := acknowledged download in
    let ready (q2 : option QueueState) :=
      spread (default empty_object q2) (success_updates s1) in
    let failed (q2 : option QueueState) :=
      spread (default empty_object q2) (failure_updates s1) in
    (flowBatchQueueState m1 = None ->
     exists c,
       interleaved 0 [(ma, RUrl u); (m1, had); (m2, ROk)] c0 = Some c
       /\ finished c 0 = true /\ mem c = m2)
    /\ (flowBatchQueueState m1 = None ->
        exists c,
          interleaved 0 [(m1, RFail); (m2, ROk)] c0 = Some c
          /\ finished c 0 = true /\ mem c = m2)
    /\ (flowBatchQueueState m1 = Some s1 -> updatingState m2 = None ->
        exists c,
          interleaved 0 [(ma, RUrl u); (m1, had); (m2, ROk); (m3, ROk)] c0 = Some c
          /\ waiting c 0 = Some WStorage
          /\ stored c = Some (ready (flowBatchQueueState m2)))
    /\ (flowBatchQueueState m1 = Some s1 -> updatingState m2 = Some p ->
        p ∈ resolved m2' ->
        exists c,
          interleaved 0
            [(ma, RUrl u); (m1, had); (m2, ROk); (m2', ROk); (m3, ROk)] c0 = Some c
          /\ waiting c 0 = Some WStorage
          /\ stored c = Some (ready (flowBatchQueueState m2')))
    /\ (flowBatchQueueState m1 = Some s1 -> updatingState m2 = None ->
        exists c,
          interleaved 0 [(m1, RFail); (m2, ROk); (m3, ROk)] c0 = Some c
          /\ waiting c 0 = Some WStorage
          /\ stored c = Some (failed (flowBatchQueueState m2)))
    /\ (flowBatchQueueState m1 = Some s1 -> updatingState m2 = Some p ->
        p ∈ resolved m2' ->
        exists c,
          interleaved 0 [(m1, RFail); (m2, ROk); (m2', ROk); (m3, ROk)] c0 = Some c
          /\ waiting c 0 = Some WStorage
          /\ stored c = Some (failed (flowBatchQueueState m2')))
    /\ (forall q2 : option QueueState,
         pendingTasks (ready q2) = Some (Z.max 0 (or0 (pendingTasks s1) - 1))
         /\ successCount (ready q2) = Some (or0 (successCount s1) + 1)
         /\ pendingTasks (failed q2) = Some (Z.max 0 (or0 (pendingTasks s1) - 1))
         /\ failCount (failed q2) = Some (or0 (failCount s1) + 1)
         /\ queueId (ready q2) = q2 ≫= queueId
         /\ queueId (failed q2) = q2 ≫= queueId
         /\ totalTasks (ready q2) = q2 ≫= totalTasks
         /\ currentIndex (ready q2) = q2 ≫= currentIndex
         /\ failCount (ready q2) = q2 ≫= failCount
         /\ successCount (failed q2) = q2 ≫= successCount)
    /\ ready None = success_updates s1
    /\ failed None = failure_updates s1
    /\ ready (Some s1) = success_write s1
    /\ failed (Some s1) = failure_write s1
    /\ (exists c,
          play (clear_then_watch gen download) c0 = Some c
          /\ finished c 0 = true
          /\ stored c = None
          /\ flowBatchTaskMetadata (mem c) = None
          /\ state_written c = false)
    /\ (exists c,
          solo 12 (watch_env gen download) 0 (watch_at m (Some st) i prompt videoCount)
          = Some c
          /\ finished c 0 = true
          /\ stored c = Some (match gen with
                              | Some _ => success_write st
                              | None => failure_write st
                              end))
    /\ outcome cleared_after_the_read stored = Some None
    /\ outcome cleared_after_the_read live_watches = Some [0]
    /\ outcome watch_writes_after_the_clear stored_pending = Some (Some 0)
    /\ outcome watch_writes_after_the_clear stored_success = Some (Some 1)
    /\ outcome watch_writes_after_the_clear stored_queueId = Some None.
Proof.
  intros m ma m1 m2 m2' m3 q st s1 i prompt videoCount u gen download p
    c0 had ready failed.
  subst c0 had ready failed. cbv beta.
  split; [apply ready_watch_reads_nothing|].
  split; [apply failed_watch_reads_nothing|].
  split; [apply ready_watch_writes|].
  split; [apply ready_watch_writes_after_the_lock|].
  split; [apply failed_watch_writes|].
  split; [apply failed_watch_writes_after_the_lock|].
  split; [intros q2; apply merged_counters|].
  split; [destruct s1; reflexivity|].
  split; [destruct s1; reflexivity|].
  split; [destruct s1; reflexivity|].
  split; [destruct s1; reflexivity|].
  split; [apply cleared_watch_writes_nothing|].
  split; [apply watch_updates_stored_state|].
  pose proof Races.watch_writes_into_the_cleared_store as R. tauto.
Qed.

(** *** The page is loaded again *)

Lemma nothing_stored (m : Mem) (md : option TaskMetadata) (page : ExecCall -> Reply) :
  left_idle None (solo 8 page 0 (boot m None md)).
Proof. destruct m. unfold boot, left_idle. cbn. forward. reached. Qed.

Lemma no_task_stored (m : Mem) (st : QueueState) (md : option TaskMetadata)
    (page : ExecCall -> Reply) :
  or0 (totalTasks st) = 0 ->
  left_idle (Some st) (solo 8 page 0 (boot m (Some st) md)).
Proof.
  intros H. destruct m. unfold boot, left_idle. cbn. forward. reached.
Qed.

Lemma no_metadata_stored (m : Mem) (st : QueueState) (page : ExecCall -> Reply) :
  or0 (totalTasks st) <> 0 ->
  let r := solo 8 page 0 (boot m (Some st) None) in
  left_idle (Some st) r /\ warned r.
Proof.
  intros H r. subst r. destruct m. unfold boot, left_idle, warned. cbn. forward.
  split; reached.
Qed.

Lemma no_prompts_stored (m : Mem) (st : QueueState) (md : TaskMetadata)
    (page : ExecCall -> Reply) :
  or0 (totalTasks st) <> 0 ->
  let r := solo 8 page 0 (boot m (Some st) (Some (without_prompts md))) in
  left_idle (Some st) r /\ warned r.
Proof.
  intros H r. subst r. destruct m. unfold boot, left_idle, warned. cbn. forward.
  split; reached.
Qed.

Lemma interrupted_run_resumed (m : Mem) (st : QueueState) (md : TaskMetadata)
    (prompts : list jsstring) (ci tt p : Z) (mode_ok : bool) :
  tt <> 0 -> ci < tt \/ 0 < p ->
  exists c,
    solo 8 (reload_env mode_ok) 0
      (boot m (Some (interrupted ci tt p st)) (Some (with_prompts prompts md))) = Some c
    /\ finished c 0 = true
    /\ stored c = Some (interrupted ci tt p st)
    /\ state_written c = false
    /\ queueRunning (mem c) = true
    /\ currentTaskPointer (mem c) = ci
    /\ metadata (mem c) = Some (with_prompts prompts md)
    /\ live_loops c = [WStorage].
Proof.
  intros Ht Hgo. destruct m, st, md. unfold boot, interrupted, indexed. cbn.
  destruct Hgo, mode_ok; forward; reached.
Qed.

Lemma resumed_loop_takes_stored_index (m : Mem) (st : QueueState) (md : TaskMetadata)
    (prompts : list jsstring) (ci tt p : Z) (mode_ok : bool) :
  tt <> 0 -> ci < tt -> p < QUEUE_LIMIT ->
  exists c,
    play (reload_then_lap mode_ok)
      (boot m (Some (interrupted ci tt p st)) (Some (with_prompts prompts md))) = Some c
    /\ taken c = [ci].
Proof.
  intros Ht Hi Hp. destruct m, st, md.
  unfold boot, reload_then_lap, interrupted, indexed. cbn.
  destruct mode_ok; all_paths; reached.
Qed.

Lemma resumed_loop_goes_on_from_stored_index (m : Mem) (st : QueueState)
    (md : TaskMetadata) (prompts : list jsstring) (a b : jsstring) (ci tt p : Z)
    (mode_ok : bool) :
  0 <= ci -> ci + 1 < tt -> ci + 1 < md_totalTasks md -> p + 1 < QUEUE_LIMIT ->
  prompts !! Z.to_nat ci = Some a -> prompts !! Z.to_nat (ci + 1) = Some b ->
  exists c,
    play (reload_then_two_laps mode_ok (md_flowMode md))
      (boot m (Some (interrupted ci tt p st)) (Some (with_prompts prompts md))) = Some c
    /\ taken c = [ci + 1; ci]
    /\ stored_index c = Some (ci + 1).
Proof.
  intros H0 Hi Hmd Hp Ha Hb. destruct m, st, md. cbn in Hmd.
  unfold boot, reload_then_two_laps, lap_turns, interrupted, indexed. cbn.
  destruct (needsImageUpload md_flowMode0) eqn:Hmode, mode_ok; forward; reached.
Qed.

Lemma exhausted_run_corrected (m : Mem) (st : QueueState) (md : TaskMetadata)
    (prompts : list jsstring) (ci tt p : Z) (page : ExecCall -> Reply) :
  tt <> 0 -> tt <= ci -> p <= 0 ->
  exists c,
    solo 8 page 0
      (boot m (Some (interrupted ci tt p st)) (Some (with_prompts prompts md))) = Some c
    /\ finished c 0 = true
    /\ stored c = Some (spread (interrupted ci tt p st) stopped)
    /\ queueRunning (mem c) = false
    /\ live_loops c = [].
Proof.
  intros Ht Hi Hp. destruct m, st, md. unfold boot, interrupted, indexed. cbn.
  forward. reached.
Qed.

(** *** The loop examines the stored state *)

(** The turn of the loop that examines the state reports completion
    exactly when the test [currentIndex >= totalTasks] passes and the
    test [pendingTasks > 0] does not. *)
Lemma examining_turn (m : Mem) (st : QueueState) (ci tt p : Z) :
  exists c,
    turns 1 ok 0 (loop_at m (indexed ci tt p st)) = Some c
    /\ completion_reported c = (tt <=? ci) && negb (0 <? p).
Proof.
  destruct m, st. unfold loop_at, indexed. cbn.
  destruct (tt <=? ci) eqn:Hi; [destruct (0 <? p) eqn:Hp|]; all_paths; reached.
Qed.

Lemma exhausted_and_drained_completes (m : Mem) (st : QueueState) (ci tt p : Z) :
  tt <= ci -> p <= 0 ->
  exists c,
    solo 8 ok 0 (loop_at m (indexed ci tt p st)) = Some c
    /\ finished c 0 = true
    /\ completion_reported c = true
    /\ stored c = Some (spread (indexed ci tt p st) stopped)
    /\ stored_running c = Some false
    /\ stored_paused c = Some false
    /\ queueRunning (mem c) = false.
Proof.
  intros Hi Hp. destruct m, st. unfold loop_at, indexed. cbn. forward. reached.
Qed.

Lemma exhausted_with_pending_drains (m : Mem) (st : QueueState) (ci tt p : Z) :
  tt <= ci -> 0 < p ->
  exists c c',
    turns 1 ok 0 (loop_at m (indexed ci tt p st)) = Some c
    /\ waiting c 0 = Some (WSleep PENDING_TASKS_WAIT)
    /\ stored c = Some (indexed ci tt p st)
    /\ state_written c = false
    /\ turns 2 ok 0 (loop_at m (indexed ci tt p st)) = Some c'
    /\ waiting c' 0 = Some WStorage
    /\ stored c' = Some (indexed ci tt p st)
    /\ state_written c' = false
    /\ completion_reported c' = false
    /\ queueRunning (mem c') = true.
Proof.
  intros Hi Hp. destruct m, st. unfold loop_at, indexed. cbn. forward.
  do 2 eexists. conjuncts; reflexivity.
Qed.

(** The loop that is started is at the beginning of a lap. *)
Lemma loop_at_lap_start (m : Mem) (st : QueueState) :
  loop_at m st = at_lap_start st (mem (loop_at m st))
  /\ stored (loop_at m st) = Some st
  /\ queueRunning (mem (loop_at m st)) = true
  /\ completion_reported (loop_at m st) = false.
Proof.
  destruct m. unfold at_lap_start, lap_start, resumption, fresh. unfold loop_at. cbn.
  forward. conjuncts; reflexivity.
Qed.

(** A lap of the drain ends at the beginning of the next lap. *)
Lemma drain_cycle (m : Mem) (st : QueueState) (ci tt p : Z) :
  flowBatchQueueState m = Some (indexed ci tt p st) -> queueRunning m = true ->
  tt <= ci -> 0 < p ->
  turns 2 ok 0 (at_lap_start (indexed ci tt p st) m)
  = Some (at_lap_start (indexed ci tt p st) (drained_once p m)).
Proof.
  intros Hst Hqr Hi Hp. destruct m, st. cbn in Hst, Hqr. subst.
  unfold at_lap_start, lap_start, resumption, drained_once, fresh.
  unfold loop_at, indexed. cbn. forward.
  replace (Z.max 0 (now0 + PENDING_TASKS_WAIT - now0)) with PENDING_TASKS_WAIT
    by delays.
  reflexivity.
Qed.

Lemma drained_keeps (n : nat) (p : Z) (m : Mem) :
  flowBatchQueueState (drained n p m) = flowBatchQueueState m
  /\ queueRunning (drained n p m) = queueRunning m
  /\ existsb reports_completion (events (drained n p m))
     = existsb reports_completion (events m).
Proof.
  revert m. induction n as [|n IH]; intros m; [auto|].
  cbn [drained]. destruct (IH (drained_once p m)) as (-> & -> & ->).
  destruct m. auto.
Qed.

Lemma draining_goes_on (n : nat) (m : Mem) (st : QueueState) (ci tt p : Z) :
  flowBatchQueueState m = Some (indexed ci tt p st) -> queueRunning m = true ->
  tt <= ci -> 0 < p ->
  turns (2 * n) ok 0 (at_lap_start (indexed ci tt p st) m)
  = Some (at_lap_start (indexed ci tt p st) (drained n p m)).
Proof.
  intros Hst Hqr Hi Hp. revert m Hst Hqr.
  induction n as [|n IH]; intros m Hst Hqr.
  - apply turns_O.
  - replace (2 * S n)%nat with (2 + 2 * n)%nat by lia.
    rewrite turns_plus, (drain_cycle m st ci tt p Hst Hqr Hi Hp).
    cbn [mbind option_bind].
    apply IH; destruct m; assumption.
Qed.

(** However often the loop looks at a state that is exhausted with
    tasks pending, it is back at the beginning of a lap, with the store
    as it was and no completion reported. *)
Lemma draining_never_completes (n : nat) (m : Mem) (st : QueueState) (ci tt p : Z) :
  tt <= ci -> 0 < p ->
  exists c,
    turns (2 * n) ok 0 (loop_at m (indexed ci tt p st)) = Some c
    /\ waiting c 0 = Some WStorage
    /\ stored c = Some (indexed ci tt p st)
    /\ queueRunning (mem c) = true
    /\ completion_reported c = false.
Proof.
  intros Hi Hp.
  destruct (loop_at_lap_start m (indexed ci tt p st)) as (E & Hst & Hqr & Hc).
  destruct (drained_keeps n p (mem (loop_at m (indexed ci tt p st))))
    as (Kst & Kqr & Kc).
  eexists. split.
  - rewrite E at 1. apply draining_goes_on; assumption.
  - unfold stored, completion_reported in *. cbn.
    rewrite Kst, Kqr, Kc. auto.
Qed.

(** The same of any stored state: a missing [totalTasks] or
    [pendingTasks] counts as 0, and a missing [currentIndex] does not
    pass the first test. *)
Lemma examining_turn_of_any_state (m : Mem) (st : QueueState) :
  exists c,
    turns 1 ok 0 (loop_at m st) = Some c
    /\ completion_reported c
       = js_ge (currentIndex st) (or0 (totalTasks st))
         && negb (0 <? or0 (pendingTasks st)).
Proof.
  destruct m, st as [tt ci r pa sc fc p fm cm ca qi]. unfold loop_at. cbn.
  destruct ci as [ci|]; cbn.
  - destruct (or0 tt <=? ci) eqn:Hi; [destruct (0 <? or0 p) eqn:Hp|];
      all_paths; reached.
  - all_paths; reached.
Qed.

(** The loop decides on the state it has read at the beginning of the
    lap, whatever is stored when the answer of the storage comes. *)
Lemma examining_turn_decides_on_the_state_read (m : Mem) (st : QueueState) :
  queueRunning m = true ->
  exists c,
    turns 1 ok 0 (at_lap_start st (with_events [] m)) = Some c
    /\ completion_reported c
       = js_ge (currentIndex st) (or0 (totalTasks st))
         && negb (0 <? or0 (pendingTasks st)).
Proof.
  intros Hqr. destruct m, st as [tt ci r pa sc fc p fm cm ca qi]. cbn in Hqr. subst.
  unfold at_lap_start, lap_start, resumption, fresh. unfold loop_at. cbn.
  destruct ci as [ci|]; cbn.
  - destruct (or0 tt <=? ci) eqn:Hi; [destruct (0 <? or0 p) eqn:Hp|];
      all_paths; reached.
  - all_paths; reached.
Qed.

(** C3 (amended).  The turn of the loop that examines the state
    reports completion if and only if the state has
    [currentIndex >= totalTasks] and a [pendingTasks] that is not
    above 0, whether or not the two are equal to [totalTasks] and to 0;
    a missing [totalTasks] or [pendingTasks] counts as 0 and a missing
    [currentIndex] does not pass.  The state examined is the one the
    loop has read at the beginning of the lap, whatever is stored when
    it is examined.  When the loop reports completion it stores
    [running = false] and [paused = false] and ends.  While
    [currentIndex >= totalTasks] and [pendingTasks > 0] the loop sleeps
    [PENDING_TASKS_WAIT], stores nothing, and then reads the state
    again, without a report of completion, however many times it does
    so. *)
Theorem completed_iff_both_tests_pass :
  forall (m : Mem) (st : QueueState) (ci tt p : Z),
    let c0 := loop_at m (indexed ci tt p st) in
    (exists c,
        turns 1 ok 0 c0 = Some c
        /\ (completion_reported c = true <-> tt <= ci /\ p <= 0))
    /\ (exists c,
          turns 1 ok 0 (loop_at m st) = Some c
          /\ completion_reported c
             = js_ge (currentIndex st) (or0 (totalTasks st))
               && negb (0 <? or0 (pendingTasks st)))
    /\ (queueRunning m = true ->
        exists c,
          turns 1 ok 0 (at_lap_start st (with_events [] m)) = Some c
          /\ completion_reported c
             = js_ge (currentIndex st) (or0 (totalTasks st))
               && negb (0 <? or0 (pendingTasks st)))
    /\ (tt <= ci -> p <= 0 ->
        exists c,
          solo 8 ok 0 c0 = Some c
          /\ finished c 0 = true
          /\ completion_reported c = true
          /\ stored c = Some (spread (indexed ci tt p st) stopped)
          /\ stored_running c = Some false
          /\ stored_paused c = Some false
          /\ queueRunning (mem c) = false)
    /\ (tt <= ci -> 0 < p ->
        exists c c',
          turns 1 ok 0 c0 = Some c
          /\ waiting c 0 = Some (WSleep PENDING_TASKS_WAIT)
          /\ stored c = Some (indexed ci tt p st)
          /\ state_written c = false
          /\ turns 2 ok 0 c0 = Some c'
          /\ waiting c' 0 = Some WStorage
          /\ stored c' = Some (indexed ci tt p st)
          /\ state_written c' = false
          /\ completion_reported c' = false
          /\ queueRunning (mem c') = true)
    /\ (tt <= ci -> 0 < p ->
        forall n : nat,
        exists c,
          turns (2 * n) ok 0 c0 = Some c
          /\ waiting c 0 = Some WStorage
          /\ stored c = Some (indexed ci tt p st)
          /\ queueRunning (mem c) = true
          /\ completion_reported c = false).
Proof.
  intros m st ci tt p c0. subst c0.
  split; [|split; [|split; [|split; [|split]]]].
  - destruct (examining_turn m st ci tt p) as (c & Hc & Hr).
    exists c. split; [exact Hc|]. rewrite Hr.
    rewrite andb_true_iff, negb_true_iff, Z.leb_le, Z.ltb_ge. tauto.
  - apply examining_turn_of_any_state.
  - apply examining_turn_decides_on_the_state_read.
  - apply exhausted_and_drained_completes.
  - apply exhausted_with_pending_drains.
  - intros Hi Hp n. apply draining_never_completes; assumption.
Qed.

End Sequential.

(** ** A resumed run does not go back *)

Module ResumeFacts.
Import Model Async Script System Scenarios Cases Symbolic Safety Sequential.

(** Each function of the script is followed through its suspensions
    while the others may change the memory in between in any way that
    leaves it [kept]; that every function leaves it [kept] in its turn
    is then an invariant of the event loop. *)

Section Rules.
Variable floor : Z.

(** *** One suspension more *)

Lemma safe_O {A} (p : Async A) (m : Mem) Q E :
  safe floor 0 A p m Q E =
  match advance p m with
  | (m', SDone a) => Q a m'
  | (m', SFail e) => E e m'
  | (m', SBlocked w k) => kept floor m' /\ True
  end.
Proof. reflexivity. Qed.

Lemma safe_S {A} (n : nat) (p : Async A) (m : Mem) Q E :
  safe floor (S n) A p m Q E =
  match advance p m with
  | (m', SDone a) => Q a m'
  | (m', SFail e) => E e m'
  | (m', SBlocked w k) =>
      kept floor m'
      /\ (match w with
          | WStart s => safe floor n unit (program s) m' (keeps floor) (keeps floor)
          | _ => True
          end
          /\ forall (r : Reply) (m'' : Mem),
               kept floor m'' -> safe floor n A (k r) m'' Q E)
  end.
Proof. reflexivity. Qed.

#[local] Opaque safe.

(** *** The rules of the constructs *)

Lemma safe_bind {A R} (k : A -> Async R) Q' Q E (n : nat) :
  forall (p : Async A) (m : Mem),
    safe floor n A p m Q' E ->
    (forall a m' n', (n' <= n)%nat -> Q' a m' -> safe floor n' R (k a) m' Q E) ->
    safe floor n R (Bind p k) m Q E.
Proof.
  induction n as [|n IH]; intros p m Hp Hk.
  - rewrite safe_O in Hp. rewrite safe_O, advance_Bind.
    destruct (advance p m) as [m' [a|e|w k']]; try assumption.
    specialize (Hk a m' 0%nat (le_n _) Hp). rewrite safe_O in Hk. exact Hk.
  - rewrite safe_S in Hp. rewrite safe_S, advance_Bind.
    destruct (advance p m) as [m' [a|e|w k']]; try assumption.
    + specialize (Hk a m' (S n) (le_n _) Hp). rewrite safe_S in Hk. exact Hk.
    + destruct Hp as (Hm & Hw & Hc). split; [exact Hm|]. split; [exact Hw|].
      intros r m'' Hm''. apply IH; [apply Hc, Hm''|].
      intros a m1 n' Hn. apply Hk. lia.
Qed.

Lemma safe_try {R} (h : Err -> Async R) Q E' E (n : nat) :
  forall (p : Async R) (m : Mem),
    safe floor n R p m Q E' ->
    (forall e m' n', (n' <= n)%nat -> E' e m' -> safe floor n' R (h e) m' Q E) ->
    safe floor n R (TryCatch p h) m Q E.
Proof.
  induction n as [|n IH]; intros p m Hp Hh.
  - rewrite safe_O in Hp. rewrite safe_O, advance_TryCatch.
    destruct (advance p m) as [m' [a|e|w k']]; try assumption.
    specialize (Hh e m' 0%nat (le_n _) Hp). rewrite safe_O in Hh. exact Hh.
  - rewrite safe_S in Hp. rewrite safe_S, advance_TryCatch.
    destruct (advance p m) as [m' [a|e|w k']]; try assumption.
    + specialize (Hh e m' (S n) (le_n _) Hp). rewrite safe_S in Hh. exact Hh.
    + destruct Hp as (Hm & Hw & Hc). split; [exact Hm|]. split; [exact Hw|].
      intros r m'' Hm''. apply IH; [apply Hc, Hm''|].
      intros e m1 n' Hn. apply Hh. lia.
Qed.

Lemma safe_ret {A} (a : A) (m : Mem) Q E (n : nat) :
  Q a m -> safe floor n A (Ret a) m Q E.
Proof. intros H. destruct n; [rewrite safe_O | rewrite safe_S]; exact H. Qed.

Lemma safe_iter {J R} (body : J -> Async (J + R)) (inv : J -> Prop) Q E (n : nat) :
  (forall i m n', (n' <= n)%nat -> inv i -> kept floor m ->
     safe floor n' (J + R) (body i) m (lap_post floor inv Q) E) ->
  forall (i : J) (m : Mem),
    inv i -> kept floor m -> safe floor n R (Iter body i) m Q E.
Proof.
  induction n as [n IH] using lt_wf_ind. intros Hbody i m Hi Hm.
  pose proof (Hbody i m n (le_n _) Hi Hm) as Hp.
  destruct n as [|n].
  - rewrite safe_O in Hp. rewrite safe_O, advance_Iter.
    destruct (advance (body i) m) as [m' [[i'|r]|e|w k']]; try assumption.
    split; [apply Hp | exact I].
  - rewrite safe_S in Hp. rewrite safe_S, advance_Iter.
    destruct (advance (body i) m) as [m' [[i'|r]|e|w k']]; try assumption.
    + destruct Hp as (Hm' & Hi'). split; [exact Hm'|]. split; [exact I|].
      intros _ m'' Hm''. apply IH; [lia | | exact Hi' | exact Hm''].
      intros i0 m0 n' Hn. apply Hbody. lia.
    + destruct Hp as (Hm' & Hw & Hc). split; [exact Hm'|]. split; [exact Hw|].
      intros r m'' Hm''. eapply safe_bind; [apply Hc, Hm''|].
      intros [i'|r'] m1 n' Hn Hpost.
      * destruct Hpost as (Hm1 & Hi'). apply IH; [lia | | exact Hi' | exact Hm1].
        intros i0 m0 n0 Hn0. apply Hbody. lia.
      * apply safe_ret. exact Hpost.
Qed.

Lemma safe_conseq (n : nat) :
  forall {A} (p : Async A) (m : Mem) (Q Q' : A -> Mem -> Prop)
         (E E' : Err -> Mem -> Prop),
    safe floor n A p m Q E ->
    (forall a m', Q a m' -> Q' a m') -> (forall e m', E e m' -> E' e m') ->
    safe floor n A p m Q' E'.
Proof.
  induction n as [|n IH]; intros A p m Q Q' E E' Hp HQ HE.
  - rewrite safe_O in Hp. rewrite safe_O.
    destruct (advance p m) as [m' [a|e|w k']]; auto.
  - rewrite safe_S in Hp. rewrite safe_S.
    destruct (advance p m) as [m' [a|e|w k']]; auto.
    destruct Hp as (Hm & Hw & Hc). split; [exact Hm|]. split; [exact Hw|].
    intros r m'' Hm''. eapply IH; [apply Hc, Hm'' | exact HQ | exact HE].
Qed.

(** The same rules for any number of suspensions. *)

Lemma Safe_ret {A} (a : A) (m : Mem) Q E : Q a m -> Safe floor (Ret a) m Q E.
Proof. intros H n. apply safe_ret, H. Qed.

Lemma Safe_throw {A} (e : Err) (m : Mem) (Q : A -> Mem -> Prop) E :
  E e m -> Safe floor (Throw e) m Q E.
Proof. intros H n. destruct n; [rewrite safe_O | rewrite safe_S]; exact H. Qed.

Lemma Safe_act {A} (f : Mem -> A * Mem) (m : Mem) Q E :
  Q (fst (f m)) (snd (f m)) -> Safe floor (Act f) m Q E.
Proof.
  intros H n.
  destruct n; [rewrite safe_O | rewrite safe_S]; rewrite advance_Act;
    destruct (f m); exact H.
Qed.

Lemma Safe_await (w : Wait) (m : Mem) (Q : Reply -> Mem -> Prop) E :
  kept floor m ->
  match w with
  | WStart s => Safe floor (program s) m (keeps floor) (keeps floor)
  | _ => True
  end ->
  (forall r m', kept floor m' -> Q r m') ->
  Safe floor (Await w) m Q E.
Proof.
  intros Hm Hw HQ n.
  destruct n; [rewrite safe_O | rewrite safe_S]; rewrite advance_Await.
  - split; [exact Hm | exact I].
  - split; [exact Hm|]. split.
    + destruct w; try exact I. apply Hw.
    + intros r m' Hm'. apply safe_ret, HQ, Hm'.
Qed.

Lemma Safe_bind {A R} (p : Async A) (k : A -> Async R) (m : Mem) Q E :
  Safe floor p m (fun a m' => Safe floor (k a) m' Q E) E ->
  Safe floor (Bind p k) m Q E.
Proof.
  intros H n. eapply safe_bind; [apply H|].
  intros a m' n' _ Hk. apply Hk.
Qed.

Lemma Safe_try {R} (p : Async R) (h : Err -> Async R) (m : Mem) Q E :
  Safe floor p m Q (fun e m' => Safe floor (h e) m' Q E) ->
  Safe floor (TryCatch p h) m Q E.
Proof.
  intros H n. eapply safe_try; [apply H|].
  intros e m' n' _ Hh. apply Hh.
Qed.

Lemma Safe_iter {J R} (body : J -> Async (J + R)) (inv : J -> Prop) (i : J)
    (m : Mem) Q E :
  inv i -> kept floor m ->
  (forall i m, inv i -> kept floor m ->
     Safe floor (body i) m (lap_post floor inv Q) E) ->
  Safe floor (Iter body i) m Q E.
Proof.
  intros Hi Hm Hbody n. apply safe_iter with inv; [|exact Hi | exact Hm].
  intros i0 m0 n' _ Hi0 Hm0. apply Hbody; assumption.
Qed.

Lemma Safe_conseq {A} (p : Async A) (m : Mem) (Q Q' : A -> Mem -> Prop)
    (E E' : Err -> Mem -> Prop) :
  Safe floor p m Q E ->
  (forall a m', Q a m' -> Q' a m') -> (forall e m', E e m' -> E' e m') ->
  Safe floor p m Q' E'.
Proof. intros H HQ HE n. eapply safe_conseq; [apply H | exact HQ | exact HE]. Qed.

End Rules.

(** *** The functions of the script *)

(** An index that is not below the floor, or no index. *)
Ltac above_index := cbn; first [exact I | assumption | lia].

Lemma spread_above (floor : Z) (s u : QueueState) (j : Z) :
  currentIndex s = Some j -> floor <= j -> update_above floor u ->
  exists s' j',
    Some (spread s u) = Some s' /\ currentIndex s' = Some j' /\ floor <= j'.
Proof.
  intros Hj Hle Hu. unfold update_above in Hu. exists (spread s u). cbn.
  destruct (currentIndex u) as [i|]; cbn; eauto.
Qed.

(** A memory that is [kept], by its parts. *)
Ltac kept :=
  unfold keeps;
  lazymatch goal with
  | |- kept _ _ =>
      split;
      [ first
          [ cbn; assumption
          | cbn; eapply spread_above; [eassumption | assumption | above_index]
          | cbn; do 2 eexists; split; [reflexivity|]; split; [eassumption|assumption]
          | cbn; do 2 eexists; split; [reflexivity|]; split; [reflexivity|]; cbn; lia ]
      | cbn; repeat first [assumption | constructor]; try lia ]
  end.

(** The small functions of the script, by their bodies. *)
Ltac primitives :=
  unfold continue, break, ignore_errors, new_promise, release, ensureCorrectMode,
    requestFileData, log, logToPopup, sleep, start, call, when;
  unfold emit, skip; unfold modify, get.

(** The others have run: the memory is another one, and is [kept]. *)
Ltac others :=
  let m := fresh "m" in
  let H := fresh "K" in
  intros ? m H; destruct m; destruct H as [? ?];
  cbn [flowBatchQueueState events] in *.

(** A lap of a loop begins: the others have run. *)
Ltac iterated :=
  let m := fresh "m" in
  let H := fresh "K" in
  intros ? m _ H; destruct m; destruct H as [? ?];
  cbn [flowBatchQueueState events] in *.

(** What a test of two numbers has found. *)
Ltac tidy :=
  repeat match goal with
    | H : negb _ = false |- _ => apply negb_false_iff in H
    | H : negb _ = true |- _ => apply negb_true_iff in H
    | H : (?a =? ?b) = true |- _ => apply Z.eqb_eq in H; try subst a
    end.

(** One step through the body of a function, by the rule of its first
    construct. *)
Ltac safe_step :=
  cbn beta iota zeta;
  lazymatch goal with
  | |- Safe _ (Bind _ _) _ _ _ => apply Safe_bind
  | |- Safe _ (Ret _) _ _ _ => apply Safe_ret
  | |- Safe _ (Throw _) _ _ _ => apply Safe_throw
  | |- Safe _ (Act _) _ _ _ => apply Safe_act; cbn
  | |- Safe _ (Await _) _ _ _ => apply Safe_await; [kept | try exact I | others]
  | |- Safe _ (TryCatch _ _) _ _ _ => apply Safe_try
  | |- Safe _ (Iter _ _) _ _ _ =>
      apply Safe_iter with (inv := fun _ => True); [exact I | kept | iterated]
  | |- Safe _ (if ?b then _ else _) _ _ _ => destruct b eqn:?; tidy
  | |- Safe _ (match ?x with _ => _ end) _ _ _ => destruct x eqn:?
  | |- keeps _ _ _ => kept
  | |- kept _ _ => kept
  | |- lap_post _ _ _ _ _ => unfold lap_post
  | |- match ?x with inl _ => _ | inr _ => _ end => destruct x
  | |- _ /\ _ => split
  | |- True => exact I
  end.

(** Calls of functions that were dealt with. *)
Ltac known := fail.

(** The storage has answered a reading of the state. *)
Ltac read :=
  let m := fresh "m" in
  let H := fresh "K" in
  let R := fresh "R" in
  let J := fresh "J" in
  intros ? m R H; destruct R as (? & ? & -> & J & ?); destruct m;
  destruct H as [? ?]; cbn [flowBatchQueueState events] in *;
  try rewrite J.

Ltac above := above_index.

Ltac go := repeat first [safe_step | known].

Lemma loadQueueState_Safe (floor : Z) (m : Mem) Q E :
  kept floor m ->
  (forall a m', read_above floor a -> kept floor m' -> Q a m') ->
  Safe floor loadQueueState m Q E.
Proof.
  intros K HQ. destruct m. destruct K as [Hs He]. cbn in Hs, He.
  unfold loadQueueState. primitives.
  go. apply HQ; [exact Hs | kept].
Qed.

Ltac known ::=
  lazymatch goal with
  | |- Safe _ loadQueueState _ _ _ => apply loadQueueState_Safe; [kept | read]
  end.

Lemma updateQueueState_Safe (floor : Z) (u : QueueState) (m : Mem) Q E :
  update_above floor u -> kept floor m ->
  (forall a m', kept floor m' -> Q a m') ->
  (forall e m', kept floor m' -> E e m') ->
  Safe floor (updateQueueState u) m Q E.
Proof.
  intros Hu K HQ HE. destruct m. destruct K as [Hs He]. cbn in Hs, He.
  unfold updateQueueState, storage_set_queueState. primitives.
  go.
  all: try (apply HQ; kept).
  all: try (apply HE; kept).
Qed.

(** A function that keeps the memory [kept], whatever it returns or
    throws. *)
Ltac standard :=
  let K := fresh "K" in
  let HQ := fresh "HQ" in
  let HE := fresh "HE" in
  intros K HQ HE;
  match goal with |- Safe _ _ ?m _ _ => destruct m end;
  destruct K as [? ?]; cbn [flowBatchQueueState events] in *;
  primitives; go;
  try (apply HQ; kept); try (apply HE; kept).

Ltac known ::=
  lazymatch goal with
  | |- Safe _ loadQueueState _ _ _ => apply loadQueueState_Safe; [kept | read]
  | |- Safe _ (updateQueueState _) _ _ _ =>
      apply updateQueueState_Safe; [above | kept | others | others]
  end.

Lemma waitForQueueCapacity_Safe (floor : Z) (m : Mem) Q E :
  kept floor m ->
  (forall a m', kept floor m' -> Q a m') ->
  (forall e m', kept floor m' -> E e m') ->
  Safe floor waitForQueueCapacity m Q E.
Proof. unfold waitForQueueCapacity. standard. Qed.

Ltac known ::=
  lazymatch goal with
  | |- Safe _ loadQueueState _ _ _ => apply loadQueueState_Safe; [kept | read]
  | |- Safe _ (updateQueueState _) _ _ _ =>
      apply updateQueueState_Safe; [above | kept | others | others]
  | |- Safe _ waitForQueueCapacity _ _ _ =>
      apply waitForQueueCapacity_Safe; [kept | others | others]
  end.

Lemma submitForGeneration_Safe (floor : Z) (m : Mem) Q E :
  kept floor m ->
  (forall a m', kept floor m' -> Q a m') ->
  (forall e m', kept floor m' -> E e m') ->
  Safe floor submitForGeneration m Q E.
Proof. unfold submitForGeneration. standard. Qed.

Lemma waitForTaskCompletion_Safe (floor : Z) (i : Z) (prompt : jsstring)
    (videoCount : Z) (m : Mem) Q E :
  kept floor m ->
  (forall a m', kept floor m' -> Q a m') ->
  (forall e m', kept floor m' -> E e m') ->
  Safe floor (waitForTaskCompletion i prompt videoCount) m Q E.
Proof.
  unfold waitForTaskCompletion, waitForGeneration, downloadVideo. standard.
Qed.

Lemma watch_Safe (floor : Z) (i : Z) (prompt : jsstring) (videoCount : Z) (m : Mem) :
  kept floor m ->
  Safe floor (program (SWatch i prompt videoCount)) m (keeps floor) (keeps floor).
Proof.
  intros K. unfold program. apply Safe_try.
  apply waitForTaskCompletion_Safe; [exact K | intros; assumption|].
  intros e m' K'. destruct m'. destruct K' as [? ?]. primitives. go.
Qed.

Ltac known ::=
  lazymatch goal with
  | |- Safe _ loadQueueState _ _ _ => apply loadQueueState_Safe; [kept | read]
  | |- Safe _ (updateQueueState _) _ _ _ =>
      apply updateQueueState_Safe; [above | kept | others | others]
  | |- Safe _ waitForQueueCapacity _ _ _ =>
      apply waitForQueueCapacity_Safe; [kept | others | others]
  | |- Safe _ submitForGeneration _ _ _ =>
      apply submitForGeneration_Safe; [kept | others | others]
  | |- Safe _ (program (SWatch _ _ _)) _ _ _ => apply watch_Safe; kept
  end.

Lemma processTask_Safe (floor : Z) (i : Z) (m : Mem) Q E :
  floor <= i ->
  kept floor m ->
  (forall a m', kept floor m' -> Q a m') ->
  (forall e m', kept floor m' -> E e m') ->
  Safe floor (processTask i) m Q E.
Proof. intros Hi. unfold processTask. standard. Qed.

Ltac known ::=
  lazymatch goal with
  | |- Safe _ loadQueueState _ _ _ => apply loadQueueState_Safe; [kept | read]
  | |- Safe _ (updateQueueState _) _ _ _ =>
      apply updateQueueState_Safe; [above | kept | others | others]
  | |- Safe _ waitForQueueCapacity _ _ _ =>
      apply waitForQueueCapacity_Safe; [kept | others | others]
  | |- Safe _ submitForGeneration _ _ _ =>
      apply submitForGeneration_Safe; [kept | others | others]
  | |- Safe _ (program (SWatch _ _ _)) _ _ _ => apply watch_Safe; kept
  | |- Safe _ (processTask _) _ _ _ =>
      apply processTask_Safe; [above | kept | others | others]
  end.

(** A lap of the loop takes the task at the index it has read. *)
Lemma processQueue_try_Safe (floor : Z) (m : Mem) Q E :
  kept floor m ->
  (forall a m', kept floor m' -> Q a m') ->
  (forall e m', kept floor m' -> E e m') ->
  Safe floor processQueue_try m Q E.
Proof. unfold processQueue_try. standard. Qed.

Lemma processQueue_catch_Safe (floor : Z) (e : Err) (m : Mem) Q E :
  kept floor m ->
  (forall a m', kept floor m' -> Q a m') ->
  (forall e m', kept floor m' -> E e m') ->
  Safe floor (processQueue_catch e) m Q E.
Proof. unfold processQueue_catch. standard. Qed.

Ltac known ::=
  lazymatch goal with
  | |- Safe _ loadQueueState _ _ _ => apply loadQueueState_Safe; [kept | read]
  | |- Safe _ (updateQueueState _) _ _ _ =>
      apply updateQueueState_Safe; [above | kept | others | others]
  | |- Safe _ waitForQueueCapacity _ _ _ =>
      apply waitForQueueCapacity_Safe; [kept | others | others]
  | |- Safe _ submitForGeneration _ _ _ =>
      apply submitForGeneration_Safe; [kept | others | others]
  | |- Safe _ (program (SWatch _ _ _)) _ _ _ => apply watch_Safe; kept
  | |- Safe _ (processTask _) _ _ _ =>
      apply processTask_Safe; [above | kept | others | others]
  | |- Safe _ processQueue_try _ _ _ =>
      apply processQueue_try_Safe; [kept | others | others]
  | |- Safe _ (processQueue_catch _) _ _ _ =>
      apply processQueue_catch_Safe; [kept | others | others]
  end.

Lemma processQueue_Safe (floor : Z) (m : Mem) Q E :
  kept floor m ->
  (forall a m', kept floor m' -> Q a m') ->
  (forall e m', kept floor m' -> E e m') ->
  Safe floor processQueue m Q E.
Proof. unfold processQueue, processQueue_lap. standard. Qed.

Lemma loop_Safe (floor : Z) (resumed : bool) (m : Mem) :
  kept floor m ->
  Safe floor (program (SProcessQueue resumed)) m (keeps floor) (keeps floor).
Proof.
  intros K. unfold program. apply Safe_try.
  apply processQueue_Safe; [exact K | intros; assumption|].
  intros e m' K'. destruct m'. destruct K' as [? ?]. primitives. go.
Qed.

Ltac known ::=
  lazymatch goal with
  | |- Safe _ loadQueueState _ _ _ => apply loadQueueState_Safe; [kept | read]
  | |- Safe _ (updateQueueState _) _ _ _ =>
      apply updateQueueState_Safe; [above | kept | others | others]
  | |- Safe _ (program (SProcessQueue _)) _ _ _ => apply loop_Safe; kept
  end.

Lemma initializeAutoResume_Safe (floor : Z) (m : Mem) :
  kept floor m ->
  Safe floor (program SAutoResume) m (keeps floor) (keeps floor).
Proof.
  intros K. destruct m. destruct K as [? ?]. cbn [flowBatchQueueState events] in *.
  unfold program, initializeAutoResume, storage_get_metadata. primitives. go.
Qed.

Lemma handlePauseQueue_Safe (floor : Z) (m : Mem) :
  kept floor m ->
  Safe floor (program SPauseQueue) m (keeps floor) (keeps floor).
Proof.
  intros K. destruct m. destruct K as [? ?]. cbn [flowBatchQueueState events] in *.
  unfold program, handlePauseQueue. primitives. go.
Qed.

(** *** The event loop *)

Lemma drive_O (p : Async unit) (m : Mem) :
  drive program 0 p m =
  match advance p m with
  | (m1, SDone _) => (m1, Finished, [])
  | (m1, SFail e) => (m1, Crashed e, [])
  | (m1, SBlocked (WStart s) k) => (m1, Starved, [])
  | (m1, SBlocked w k) => (m1, Suspended w (now m1) k, [])
  end.
Proof. reflexivity. Qed.

(** What a turn leaves: the memory, the function that took it, and the
    functions it started. *)
Lemma drive_good (floor : Z) (fuel : nat) :
  forall (p : Async unit) (m m' : Mem) (me : Thread) (born : list Task),
    Safe floor p m (keeps floor) (keeps floor) ->
    drive program fuel p m = (m', me, born) ->
    kept floor m'
    /\ (forall o, good_thread floor (mkTask o me))
    /\ Forall (good_thread floor) born.
Proof.
  induction fuel as [|fuel IH]; intros p m m' me born H D.
  - pose proof (H 1%nat) as H1. rewrite safe_S in H1.
    rewrite drive_O in D.
    destruct (advance p m) as [m1 [a|e|w k]] eqn:A.
    + injection D as <- <- <-. split; [exact H1|]. split; [intros o; exact I | constructor].
    + injection D as <- <- <-. split; [exact H1|]. split; [intros o; exact I | constructor].
    + destruct H1 as (Hm & Hw & Hc).
      assert (G : forall r m0, kept floor m0 ->
                    Safe floor (k r) m0 (keeps floor) (keeps floor)).
      { intros r m0 Hm0 n. specialize (H (S n)). rewrite safe_S, A in H.
        apply H, Hm0. }
      destruct w; injection D as <- <- <-;
        (split; [exact Hm|]); (split; [|constructor]); intros o;
        first [exact G | exact I].
  - rewrite drive_S in D.
    destruct (advance p m) as [m1 [a|e|w k]] eqn:A.
    + pose proof (H 0%nat) as H0. rewrite safe_O, A in H0.
      injection D as <- <- <-. split; [exact H0|]. split; [intros o; exact I | constructor].
    + pose proof (H 0%nat) as H0. rewrite safe_O, A in H0.
      injection D as <- <- <-. split; [exact H0|]. split; [intros o; exact I | constructor].
    + assert (Hm : kept floor m1).
      { specialize (H 0%nat). rewrite safe_O, A in H. apply H. }
      assert (G : forall r m0, kept floor m0 ->
                    Safe floor (k r) m0 (keeps floor) (keeps floor)).
      { intros r m0 Hm0 n. specialize (H (S n)). rewrite safe_S, A in H.
        apply H, Hm0. }
      destruct w;
        try (injection D as <- <- <-;
             (split; [exact Hm|]); (split; [|constructor]); intros o; exact G).
      assert (C : Safe floor (program s) m1 (keeps floor) (keeps floor)).
      { intros n. specialize (H (S n)). rewrite safe_S, A in H. apply H. }
      destruct (drive program fuel (program s) m1) as [[m2 child] grand] eqn:D1.
      destruct (drive program fuel (k ROk) m2) as [[m3 me'] born'] eqn:D2.
      injection D as <- <- <-.
      destruct (IH _ _ _ _ _ C D1) as (K2 & Gc & Gg).
      destruct (IH _ _ _ _ _ (G ROk m2 K2) D2) as (K3 & Gm & Gb).
      split; [exact K3|]. split; [exact Gm|].
      constructor; [apply Gc|]. apply Forall_app. split; assumption.
Qed.

Lemma spawn_good (floor : Z) (s : ThreadSpec) (c : Config) :
  kept floor (mem c) -> Forall (good_thread floor) (threads c) ->
  Safe floor (program s) (mem c) (keeps floor) (keeps floor) ->
  good floor (spawn s c).
Proof.
  intros K G H. rewrite spawn_eq.
  destruct (drive program turn_fuel (program s) (mem c)) as [[m' me] born] eqn:D.
  destruct (drive_good floor _ _ _ _ _ _ H D) as (K' & Gm & Gb).
  split; [exact K'|]. cbn. apply Forall_app. split; [exact G|].
  constructor; [apply Gm | exact Gb].
Qed.

Lemma kept_same (floor : Z) (m m' : Mem) :
  flowBatchQueueState m' = flowBatchQueueState m -> events m' = events m ->
  kept floor m -> kept floor m'.
Proof. intros Hs He [K1 K2]. split; [rewrite Hs | rewrite He]; assumption. Qed.

Lemma step_Reload (c : Config) :
  step Reload c = Some (spawn SAutoResume (mkConfig (reloaded (mem c)) [])).
Proof. reflexivity. Qed.

Lemma step_PageVideos (n : Z) (c : Config) :
  step (PageVideos n) c = Some (mkConfig (with_videoCards n (mem c)) (threads c)).
Proof. reflexivity. Qed.

(** A step that is [quiet] keeps the invariant. *)
Lemma step_good (floor : Z) (a : Action) (c c' : Config) :
  quiet a = true -> good floor c -> step a c = Some c' -> good floor c'.
Proof.
  intros Hq [K G] Hs. destruct a as [tid r|ms|cmd| |n|]; try discriminate Hq.
  - rewrite step_Resume in Hs.
    destruct (threads c !! tid) as [[o [w since k| | |]]|] eqn:L; try discriminate Hs.
    destruct (ready (mem c) w since r); [|discriminate Hs].
    destruct (drive program turn_fuel (k r) (mem c)) as [[m' me] born] eqn:D.
    injection Hs as <-.
    pose proof (Forall_lookup_1 _ _ _ _ G L) as Gk. cbn in Gk.
    destruct (drive_good floor _ _ _ _ _ _ (Gk r (mem c) K) D) as (K' & Gm & Gb).
    split; [exact K'|]. cbn. apply Forall_app. split; [|exact Gb].
    apply Forall_insert; [exact G | apply Gm].
  - rewrite step_Tick in Hs.
    destruct ((0 <=? ms) && (forallb (allows ms (mem c)) (threads c) || (ms =? 0)));
      [|discriminate Hs].
    injection Hs as <-. split; [|exact G].
    cbn. apply kept_same with (mem c); [destruct (mem c); reflexivity.. | exact K].
  - destruct cmd; try discriminate Hq.
    rewrite step_Deliver in Hs. injection Hs as <-. cbn [handler].
    apply spawn_good; [exact K | exact G |].
    apply handlePauseQueue_Safe, K.
  - rewrite step_Reload in Hs. injection Hs as <-.
    apply spawn_good; cbn.
    + apply kept_same with (mem c); [destruct (mem c); reflexivity.. | exact K].
    + constructor.
    + apply initializeAutoResume_Safe.
      apply kept_same with (mem c); [destruct (mem c); reflexivity.. | exact K].
  - rewrite step_PageVideos in Hs. injection Hs as <-. split; [|exact G].
    cbn. apply kept_same with (mem c); [destruct (mem c); reflexivity.. | exact K].
Qed.

Lemma run_good (floor : Z) (schedule : list Action) :
  forall c c' : Config,
    forallb quiet schedule = true -> good floor c ->
    run schedule c = Some c' -> good floor c'.
Proof.
  induction schedule as [|a rest IH]; intros c c' Hq G Hr.
  - rewrite run_nil in Hr. injection Hr as <-. exact G.
  - cbn in Hq. apply andb_true_iff in Hq as [Ha Hrest].
    rewrite run_cons in Hr. destruct (step a c) as [c1|] eqn:S1; [|discriminate Hr].
    apply (IH c1 c' Hrest); [|exact Hr].
    apply (step_good floor a c c1 Ha G S1).
Qed.

(** The page is loaded while a state with an index is stored. *)
Lemma boot_good (m : Mem) (st : QueueState) (md : option TaskMetadata) (ci : Z) :
  currentIndex st = Some ci -> good ci (boot m (Some st) md).
Proof.
  intros Hi. unfold boot. apply spawn_good; cbn.
  - destruct m. split; cbn; [|constructor]. exists st, ci. repeat split; [exact Hi | lia].
  - constructor.
  - apply initializeAutoResume_Safe.
    destruct m. split; cbn; [|constructor]. exists st, ci. repeat split; [exact Hi | lia].
Qed.

(** A task the loop took is a task that was begun. *)
Lemma taken_begun (P : Z -> Prop) (c : Config) :
  Forall P (begun c) -> Forall P (taken c).
Proof.
  unfold begun, taken. induction (events (mem c)) as [|e l IH]; intros H.
  - constructor.
  - destruct e as [[] []| | |]; cbn in *;
      try (apply IH; exact H); inversion H; subst; try constructor; auto.
Qed.

(** Whatever the functions of the script do and in whatever order,
    short of a new start and of a clear, after a reload no task below
    the stored index is taken and no index below it is stored. *)
Lemma no_task_below_the_stored_index (m : Mem) (st : QueueState)
    (md : option TaskMetadata) (ci : Z) (schedule : list Action) (c : Config) :
  currentIndex st = Some ci ->
  forallb quiet schedule = true ->
  run schedule (boot m (Some st) md) = Some c ->
  Forall (fun i => ci <= i) (taken c)
  /\ Forall (fun i => ci <= i) (begun c)
  /\ exists j, stored_index c = Some j /\ ci <= j.
Proof.
  intros Hi Hq Hr.
  destruct (run_good ci schedule _ c Hq (boot_good m st md ci Hi) Hr)
    as [[(s & j & Hs & Hj & Hle) Ht] _].
  split; [apply taken_begun, Ht|]. split; [exact Ht|].
  exists j. split; [|exact Hle].
  unfold stored_index, stored. rewrite Hs. exact Hj.
Qed.

(** C5 (amended).  When the page is loaded and no state is stored, or
    the stored [totalTasks] is 0, nothing is done.  When the stored
    metadata, or its prompt list, is missing, a warning is logged and
    nothing is done either, whatever the state says.  With the metadata
    stored: a state that is running and not paused, with
    [currentIndex < totalTasks] or [pendingTasks > 0], is resumed: the
    store is left as it is (no update of the state goes through, so
    [queueId], [currentIndex], [successCount] and [failCount] are
    kept), the script is marked running, its pointer is the stored
    [currentIndex], and the loop is started.  With
    [currentIndex < totalTasks] and [pendingTasks] below [QUEUE_LIMIT],
    the first task the loop takes is the one at the stored
    [currentIndex]; with prompts at [currentIndex] and
    [currentIndex + 1], both below the [totalTasks] of state and
    metadata, and [pendingTasks + 1] below [QUEUE_LIMIT], when its
    submission goes through the loop stores [currentIndex + 1] and
    takes that task next.  A state that is running and not paused but
    exhausted ([currentIndex >= totalTasks], nothing pending) is
    corrected in the store to not running, and no loop is started.
    After the reload, whatever is stored with the state and whatever
    the loop, the watches, the timers, the page, pause commands and
    further reloads do, in any order and with any answers, until a
    start or a clear command comes: no task below the stored
    [currentIndex] is taken by the loop or begun by [processTask], and
    the stored index does not go below it. *)
Theorem resumed_run_does_not_go_back :
  forall (m : Mem) (st : QueueState) (md : TaskMetadata) (prompts : list jsstring)
         (ci tt p : Z) (mode_ok : bool),
    let page := reload_env mode_ok in
    let full := Some (with_prompts prompts md) in
    let live := interrupted ci tt p st in
    left_idle None (solo 8 page 0 (boot m None full))
    /\ (or0 (totalTasks st) = 0 ->
        left_idle (Some st) (solo 8 page 0 (boot m (Some st) full)))
    /\ (or0 (totalTasks st) <> 0 ->
        let r := solo 8 page 0 (boot m (Some st) None) in
        left_idle (Some st) r /\ warned r)
    /\ (or0 (totalTasks st) <> 0 ->
        let r := solo 8 page 0 (boot m (Some st) (Some (without_prompts md))) in
        left_idle (Some st) r /\ warned r)
    /\ (tt <> 0 -> ci < tt \/ 0 < p ->
        exists c,
          solo 8 page 0 (boot m (Some live) full) = Some c
          /\ finished c 0 = true
          /\ stored c = Some live
          /\ state_written c = false
          /\ queueRunning (mem c) = true
          /\ currentTaskPointer (mem c) = ci
          /\ metadata (mem c) = Some (with_prompts prompts md)
          /\ live_loops c = [WStorage])
    /\ (tt <> 0 -> ci < tt -> p < QUEUE_LIMIT ->
        exists c,
          play (reload_then_lap mode_ok) (boot m (Some live) full) = Some c
          /\ taken c = [ci])
    /\ (forall a b : jsstring,
        0 <= ci -> ci + 1 < tt -> ci + 1 < md_totalTasks md -> p + 1 < QUEUE_LIMIT ->
        prompts !! Z.to_nat ci = Some a -> prompts !! Z.to_nat (ci + 1) = Some b ->
        exists c,
          play (reload_then_two_laps mode_ok (md_flowMode md))
            (boot m (Some live) full) = Some c
          /\ taken c = [ci + 1; ci]
          /\ stored_index c = Some (ci + 1))
    /\ (tt <> 0 -> tt <= ci -> p <= 0 ->
        exists c,
          solo 8 page 0 (boot m (Some live) full) = Some c
          /\ finished c 0 = true
          /\ stored c = Some (spread live stopped)
          /\ queueRunning (mem c) = false
          /\ live_loops c = [])
    /\ (forall (q : QueueState) (stored_md : option TaskMetadata)
               (schedule : list Action) (c : Config),
        currentIndex q = Some ci ->
        forallb quiet schedule = true ->
        run schedule (boot m (Some q) stored_md) = Some c ->
        Forall (fun i => ci <= i) (taken c)
        /\ Forall (fun i => ci <= i) (begun c)
        /\ exists j, stored_index c = Some j /\ ci <= j)
    /\ forallb quiet first_resumed_turns = true
    /\ taken <$> run first_resumed_turns
                    (boot (mem fresh) (Some (interrupted 3 10 2 empty_object))
                       (Some metadata_of_ten))
       = Some [3].
Proof.
  intros m st md prompts ci tt p mode_ok page full live. subst page full live.
  split; [apply nothing_stored|].
  split; [apply no_task_stored|].
  split; [apply no_metadata_stored|].
  split; [apply no_prompts_stored|].
  split; [apply interrupted_run_resumed|].
  split; [apply resumed_loop_takes_stored_index|].
  split; [intros a b; apply resumed_loop_goes_on_from_stored_index|].
  split; [apply exhausted_run_corrected|].
  split; [intros q stored_md schedule c; apply no_task_below_the_stored_index|].
  split; vm_compute; reflexivity.
Qed.

End ResumeFacts.

(** ** Waiting for room in the queue, pause and clear *)

Module AloneFacts.
Import Model Async Script System Scenarios Symbolic Alone Cases.

Lemma alone_eq {A} (fuel : nat) (oracle : ExecCall -> Reply) (p : Async A) (m : Mem) :
  alone fuel oracle p m =
  match advance p m with
  | (m', SDone a) => Some (m', Gave a)
  | (m', SFail e) => Some (m', Raised e)
  | (m', SBlocked w k) =>
      match fuel with
      | O => None
      | S fuel' =>
          match w with
          | WSleep ms => alone fuel' oracle (k ROk) (with_now (now m' + ms) m')
          | WStorage | WLap => alone fuel' oracle (k ROk) m'
          | WExec c => alone fuel' oracle (k (oracle c)) m'
          | WPromise p =>
              if bool_decide (p ∈ resolved m') then alone fuel' oracle (k ROk) m'
              else None
          | WStart _ => None
          end
      end
  end.
Proof. destruct fuel; reflexivity. Qed.

#[global] Opaque alone.

(** One more suspension of the function that runs alone. *)
Ltac step_alone :=
  match goal with
  | |- context [alone ?f ?o ?p ?m] =>
      rewrite (alone_eq f o p m);
      let H := fresh "H" in
      eassert (H : advance p m = _) by big_step;
      rewrite H; clear H; cbn
  end.

Ltac run_alone := repeat step_alone.

(** X1.  [waitForQueueCapacity] alone.  Without a stored state it
    answers false at once.  With fewer than [QUEUE_LIMIT] tasks pending
    it answers true at once: no log line, no wait.  With the queue full
    it answers false without waiting when the script is not marked
    running or the state is paused; otherwise it sleeps and reads the
    state again, and when the queue stays full it answers false, not
    before [QUEUE_CAPACITY_TIMEOUT] has passed, leaving the store as it
    was. *)
Theorem capacity_wait_outcomes :
  forall (m : Mem) (st : QueueState) (p : Z) (oracle : ExecCall -> Reply),
    let absent := with_queueState None m in
    let present := with_queueState (Some (set_pendingTasks p st)) m in
    let stuck :=
      with_queueRunning true
        (with_queueState (Some (set_paused false (set_pendingTasks p st))) m) in
    alone 1 oracle waitForQueueCapacity absent = Some (absent, Gave false)
    /\ (p < QUEUE_LIMIT ->
        alone 1 oracle waitForQueueCapacity present = Some (present, Gave true))
    /\ (QUEUE_LIMIT <= p -> queueRunning m = false ->
        exists m',
          alone 1 oracle waitForQueueCapacity present = Some (m', Gave false)
          /\ now m' = now m
          /\ flowBatchQueueState m' = flowBatchQueueState present)
    /\ (QUEUE_LIMIT <= p -> queueRunning m = true -> truthy (paused st) = true ->
        exists m',
          alone 1 oracle waitForQueueCapacity present = Some (m', Gave false)
          /\ now m' = now m
          /\ flowBatchQueueState m' = flowBatchQueueState present)
    /\ (QUEUE_LIMIT <= p ->
        exists m',
          alone 7 oracle waitForQueueCapacity stuck = Some (m', Gave false)
          /\ QUEUE_CAPACITY_TIMEOUT <= now m' - now m
          /\ flowBatchQueueState m' = flowBatchQueueState stuck).
Proof.
  intros m st p oracle absent present stuck. subst absent present stuck.
  destruct m, st. cbn. conjuncts.
  - run_alone. reflexivity.
  - intros Hp. run_alone. reflexivity.
  - intros Hp ->. run_alone. eexists. conjuncts; reflexivity.
  - intros Hp -> Hpaused. cbn in Hpaused. run_alone.
    eexists. conjuncts; reflexivity.
  - intros Hp. run_alone. eexists. split; [reflexivity|]. cbn.
    split; [delays | reflexivity].
Qed.

End AloneFacts.

(** ** Pause and clear while the loop runs *)

Module Commands.
Import Model Async Script System Scenarios Symbolic Alone Cases.

(** X2.  A pause that comes while the loop sleeps in the drain stores
    [running = false] and [paused = true], keeping the other fields;
    the loop ends when it wakes up, without taking a task, writing the
    state or reporting completion. *)
Theorem pause_while_draining :
  forall (m : Mem) (st : QueueState) (ci tt p : Z),
    tt <= ci -> 0 < p ->
    exists c,
      play (interrupt CmdPause) (loop_at m (indexed ci tt p st)) = Some c
      /\ finished c 0 = true
      /\ finished c 1 = true
      /\ queueRunning (mem c) = false
      /\ stored c = Some (spread (indexed ci tt p st) paused_object)
      /\ taken c = []
      /\ completion_reported c = false.
Proof.
  intros m st ci tt p Hi Hp. destruct m, st. unfold interrupt, loop_at, indexed. cbn.
  forward. reached.
Qed.

Lemma pause_while_draining_witness :
  exists c,
    play (interrupt CmdPause) (loop_at (mem fresh) (indexed 3 3 2 empty_object)) = Some c
    /\ stored_paused c = Some true.
Proof.
  destruct (pause_while_draining (mem fresh) empty_object 3 3 2) as (c & H & _ & _ & _ & S & _);
    [lia | lia |].
  exists c. split; [exact H|]. unfold stored_paused. rewrite S. reflexivity.
Defined.







(** X6.  A loop that finds no stored state at the beginning of a lap
    (the popup removes the state before it sends the clear command)
    stops: it takes no task, writes nothing, and leaves the script not
    running with its pointer at 0. *)
Theorem loop_stops_without_state :
  forall m : Mem,
  exists c,
    solo 4 ok 0 (loop_in m None) = Some c
    /\ finished c 0 = true
    /\ queueRunning (mem c) = false
    /\ currentTaskPointer (mem c) = 0
    /\ stored c = None
    /\ state_written c = false
    /\ taken c = [].
Proof.
  intros m. destruct m. unfold loop_in. cbn. forward. reached.
Qed.

End Commands.

(** ** More of the reload and of the loop *)

Module LoopFacts.
Import Model Async Script System Scenarios Symbolic Alone Cases.

(** X7.  When the page is loaded and the stored state, with its
    metadata, is not running or is paused, nothing is resumed: the
    store is left as it is, the script is not marked running and its
    pointer is 0. *)
Theorem stopped_or_paused_state_is_not_resumed :
  forall (m : Mem) (st : QueueState) (md : TaskMetadata) (prompts : list jsstring)
         (page : ExecCall -> Reply),
    or0 (totalTasks st) <> 0 ->
    truthy (running st) && negb (truthy (paused st)) = false ->
    exists c,
      solo 8 page 0 (boot m (Some st) (Some (with_prompts prompts md))) = Some c
      /\ finished c 0 = true
      /\ stored c = Some st
      /\ state_written c = false
      /\ queueRunning (mem c) = false
      /\ currentTaskPointer (mem c) = 0
      /\ live_loops c = [].
Proof.
  intros m st md prompts page Ht Hrun. destruct m, st, md. cbn in Ht, Hrun.
  unfold boot. cbn. forward. reached.
Qed.

Lemma stopped_or_paused_state_is_not_resumed_witness :
  exists c,
    solo 8 ok 0
      (boot (mem fresh) (Some (spread (interrupted 3 10 2 empty_object) paused_object))
         (Some (with_prompts ten metadata_of_ten))) = Some c
    /\ live_loops c = [].
Proof.
  destruct (stopped_or_paused_state_is_not_resumed (mem fresh)
              (spread (interrupted 3 10 2 empty_object) paused_object)
              metadata_of_ten ten ok) as (c & H & _ & _ & _ & _ & _ & L);
    [cbn; lia | reflexivity |].
  exists c. split; [exact H | exact L].
Defined.

(** X8.  A task index that the metadata does not have (below 0, or
    not below its [totalTasks]) is refused by [processTask] before any
    step of the executor: the loop counts one failure, stores the next
    index, leaves [pendingTasks] as it is and pauses one second. *)
Theorem index_outside_the_metadata_is_counted_once :
  forall (m : Mem) (st : QueueState) (md : TaskMetadata) (ci tt p f : Z),
    ci < tt -> p < QUEUE_LIMIT ->
    ci < 0 \/ md_totalTasks md <= ci ->
    exists c,
      turns 4 ok 0
        (loop_at (with_metadata (Some md) m)
           (set_failCount f (interrupted ci tt p st))) = Some c
      /\ waiting c 0 = Some (WSleep 1000)
      /\ stored_fail c = Some (f + 1)
      /\ stored_index c = Some (ci + 1)
      /\ stored_pending c = Some p
      /\ live_watches c = [].
Proof.
  intros m st md ci tt p f Hi Hp Hout. destruct m, st, md. cbn in Hout.
  unfold loop_at, interrupted, indexed. cbn.
  destruct (Z.eqb_spec currentTaskPointer0 ci) as [->|Hptr], Hout.
  all: forward; reached.
Qed.

Lemma index_outside_the_metadata_is_counted_once_witness :
  exists c,
    turns 4 ok 0
      (loop_at (with_metadata (Some metadata_of_ten) (mem fresh))
         (set_failCount 0 (interrupted 10 12 0 empty_object))) = Some c
    /\ stored_fail c = Some (0 + 1).
Proof.
  destruct (index_outside_the_metadata_is_counted_once (mem fresh) empty_object
              metadata_of_ten 10 12 0 0) as (c & H & _ & F & _);
    [lia | unfold QUEUE_LIMIT; lia | right; cbn; lia |].
  exists c. split; [exact H | exact F].
Defined.

(** X9.  A submission that the executor rejects at its first step
    starts no watch and is counted twice as a failure; it also takes
    one from [pendingTasks], not below 0, although the task was never
    counted as pending.  The loop stores the next index and pauses one
    second. *)
Theorem failed_submission_takes_a_pending_slot :
  forall (m : Mem) (st : QueueState) (md : TaskMetadata) (prompts : list jsstring)
         (a : jsstring) (ci tt p f : Z),
    0 <= ci -> ci < tt -> ci < md_totalTasks md -> p < QUEUE_LIMIT ->
    prompts !! Z.to_nat ci = Some a ->
    exists c,
      turns 8 submission_fails 0
        (loop_at (with_metadata (Some (with_prompts prompts md)) m)
           (set_failCount f (interrupted ci tt p st))) = Some c
      /\ waiting c 0 = Some (WSleep 1000)
      /\ stored_fail c = Some (f + 1 + 1)
      /\ stored_pending c = Some (Z.max 0 (p - 1))
      /\ stored_index c = Some (ci + 1)
      /\ taken c = [ci]
      /\ live_watches c = [].
Proof.
  intros m st md prompts a ci tt p f H0 Hi Hmd Hp Ha. destruct m, st, md. cbn in Hmd.
  unfold loop_at, interrupted, indexed. cbn.
  destruct (Z.eqb_spec currentTaskPointer0 ci) as [->|Hptr]; forward; reached.
Qed.

Lemma failed_submission_takes_a_pending_slot_witness :
  exists c,
    turns 8 submission_fails 0
      (loop_at (with_metadata (Some (with_prompts ten metadata_of_ten)) (mem fresh))
         (set_failCount 0 (interrupted 3 10 2 empty_object))) = Some c
    /\ stored_fail c = Some (0 + 1 + 1)
    /\ stored_pending c = Some (Z.max 0 (2 - 1)).
Proof.
  destruct (failed_submission_takes_a_pending_slot (mem fresh) empty_object
              metadata_of_ten ten (lit "p3") 3 10 2 0) as (c & H & _ & F & P & _);
    [lia | lia | cbn; lia | unfold QUEUE_LIMIT; lia | reflexivity |].
  exists c. split; [exact H|]. split; [exact F | exact P].
Defined.

End LoopFacts.

(** ** The submit button *)

Module SubmitFacts.
Import Model Async Script System Scenarios Symbolic Alone Cases AloneFacts.

(** X10.  When the page never shows an enabled submit button,
    [submitForGeneration] throws, not before its 20 seconds have
    passed, without a click and without a change of the stored
    state. *)
Theorem no_button_no_click :
  forall (m : Mem) (st : QueueState) (p : Z),
    p < QUEUE_LIMIT ->
    let m0 := with_events [] (with_queueState (Some (set_pendingTasks p st)) m) in
    exists m',
      alone 130 no_button submitForGeneration m0 = Some (m', Raised ESubmitNotFound)
      /\ existsb announces_click (events m') = false
      /\ flowBatchQueueState m' = flowBatchQueueState m0
      /\ 20000 <= now m' - now m.
Proof.
  intros m st p Hp m0. subst m0. destruct m, st. cbn.
  run_alone.
  eexists. split; [reflexivity|]. cbn. conjuncts; [reflexivity | reflexivity | delays].
Qed.

Lemma no_button_no_click_witness :
  exists m',
    alone 130 no_button submitForGeneration
      (with_events [] (with_queueState (Some (set_pendingTasks 0 empty_object)) (mem fresh)))
    = Some (m', Raised ESubmitNotFound)
    /\ 20000 <= now m' - now (mem fresh).
Proof.
  destruct (no_button_no_click (mem fresh) empty_object 0) as (m' & H & _ & _ & T);
    [reflexivity|].
  exists m'. split; [exact H | exact T].
Defined.

(** X11.  [submitForGeneration] does not use the answer of
    [waitForQueueCapacity]: with the queue full, when the script is not
    marked running or the stored state is paused, the capacity test
    gives up at once, and the enabled submit button is clicked all the
    same; the function returns 1500 ms after the click without a change
    of the stored state. *)
Theorem full_queue_does_not_stop_the_click :
  forall (m : Mem) (st : QueueState) (p : Z),
    QUEUE_LIMIT <= p ->
    queueRunning m = false \/ paused st = Some true ->
    let m0 := with_events [] (with_queueState (Some (set_pendingTasks p st)) m) in
    exists m',
      alone 8 ok submitForGeneration m0 = Some (m', Gave ())
      /\ existsb announces_click (events m') = true
      /\ flowBatchQueueState m' = flowBatchQueueState m0
      /\ now m' = now m + 1500.
Proof.
  intros m st p Hp Hs m0. subst m0. destruct m, st. cbn in Hs. cbn.
  destruct Hs as [Hs|Hs]; subst.
  - run_alone. eexists. split; [reflexivity|]. cbn. conjuncts; reflexivity.
  - destruct queueRunning0; run_alone;
      (eexists; split; [reflexivity|]; cbn; conjuncts; reflexivity).
Qed.

Lemma full_queue_does_not_stop_the_click_witness :
  exists m',
    alone 8 ok submitForGeneration
      (with_events [] (with_queueState (Some (set_pendingTasks 4 empty_object)) (mem fresh)))
    = Some (m', Gave ())
    /\ existsb announces_click (events m') = true.
Proof.
  destruct (full_queue_does_not_stop_the_click (mem fresh) empty_object 4)
    as (m' & H & C & _); [by vm_compute | by left |].
  exists m'. split; [exact H | exact C].
Defined.

End SubmitFacts.

(** ** The prompts of the popup *)

Module PromptFacts.
Import Download Model Async Script System Scenarios Symbolic.
Import Shapes PopupFiles.

Lemma trim_start_clean (s : jsstring) : starts_clean (trim_start s).
Proof.
  induction s as [|c s IH]; simpl; [exact I|].
  destruct (is_ws c) eqn:C; [exact IH | exact C].
Qed.

Lemma trim_start_id (s : jsstring) : starts_clean s -> trim_start s = s.
Proof. destruct s as [|c s]; simpl; [done|]. by intros ->. Qed.

Lemma starts_clean_app (s t : jsstring) :
  starts_clean (s ++ t) -> starts_clean s.
Proof. destruct s; simpl; [done|]. done. Qed.

(** [trim] removes nothing from what it returned. *)
Lemma trim_idempotent (s : jsstring) : trim (trim s) = trim s.
Proof.
  unfold trim.
  set (t := trim_start s). set (u := trim_start (rev t)).
  destruct (DownloadFacts.trim_start_suffix (rev t)) as (ws & E & _). fold u in E.
  assert (T : t = rev u ++ rev ws).
  { rewrite <- (rev_involutive t), E, rev_app_distr. reflexivity. }
  assert (C : starts_clean (rev u)).
  { apply (starts_clean_app _ (rev ws)). rewrite <- T. apply trim_start_clean. }
  rewrite (trim_start_id _ C), rev_involutive.
  rewrite (trim_start_id u); [reflexivity|]. apply trim_start_clean.
Qed.

Lemma elem_of_rev {A} (x : A) (l : list A) : x ∈ rev l <-> x ∈ l.
Proof. by rewrite !list_elem_of_In, <- in_rev. Qed.

Lemma last_rev {A} (l : list A) : last (rev l) = head l.
Proof. destruct l as [|x l]; simpl; [done|]. apply last_snoc. Qed.

Lemma trim_start_elem (c : N) (s : jsstring) : c ∈ trim_start s -> c ∈ s.
Proof.
  destruct (DownloadFacts.trim_start_suffix s) as (ws & E & _).
  intros H. rewrite E. apply elem_of_app. by right.
Qed.

Lemma trim_elem (c : N) (s : jsstring) : c ∈ trim s -> c ∈ s.
Proof.
  unfold trim. intros H.
  apply (proj1 (elem_of_rev _ _)) in H. apply trim_start_elem in H.
  apply (proj1 (elem_of_rev _ _)) in H. exact (trim_start_elem _ _ H).
Qed.

(** The lines have no line feed. *)
Lemma split_lines_go_no_lf (cur s : jsstring) :
  10%N ∉ cur -> Forall (fun l => 10%N ∉ l) (split_lines_go cur s).
Proof.
  revert cur. induction s as [|c s IH]; intros cur H; simpl.
  - constructor; [|constructor]. by rewrite elem_of_rev.
  - destruct (c =? 10)%N eqn:C.
    + constructor; [|apply IH; apply not_elem_of_nil].
      by rewrite elem_of_rev.
    + apply IH. apply not_elem_of_cons. split; [|done].
      intros E. subst c. discriminate C.
Qed.

(** A text is blank exactly when all of its lines are. *)
Lemma split_lines_go_blank (cur s : jsstring) :
  forallb blank (split_lines_go cur s) = blank cur && blank s.
Proof.
  revert cur. induction s as [|c s IH]; intros cur; simpl.
  - unfold blank. by rewrite DownloadFacts.forallb_rev, !andb_true_r.
  - destruct (c =? 10)%N eqn:C.
    + apply N.eqb_eq in C. subst c. simpl. rewrite IH.
      unfold blank. by rewrite DownloadFacts.forallb_rev.
    + rewrite IH. unfold blank. simpl. by rewrite andb_assoc, (andb_comm (is_ws c)).
Qed.

Lemma nonempty_trim (s : jsstring) : nonempty (trim s) = negb (blank s).
Proof.
  unfold blank. destruct (trim s) eqn:T; simpl.
  - apply DownloadFacts.trim_nil in T. by rewrite T.
  - destruct (forallb is_ws s) eqn:W; [|done].
    apply DownloadFacts.trim_nil in W. congruence.
Qed.

Lemma getPrompts_nil (value : jsstring) :
  getPrompts value = [] <-> blank value = true.
Proof.
  unfold getPrompts, split_lines.
  pose proof (split_lines_go_blank [] value) as B. simpl in B.
  rewrite <- B. clear B.
  induction (split_lines_go [] value) as [|l ls IH]; simpl; [done|].
  rewrite nonempty_trim. destruct (blank l); simpl; [exact IH|].
  split; discriminate.
Qed.

Lemma getPrompts_lines (value : jsstring) :
  Forall prompt_line (getPrompts value).
Proof.
  unfold getPrompts, split_lines.
  pose proof (split_lines_go_no_lf [] value (not_elem_of_nil _)) as L.
  induction L as [|l ls Hl _ IH]; simpl; [constructor|].
  destruct (nonempty (trim l)) eqn:E; [|exact IH].
  constructor; [|exact IH].
  split; [by destruct (trim l) | split; [apply trim_idempotent|]].
  intros H. by apply Hl, trim_elem.
Qed.

Lemma split_lines_go_app (cur p rest : jsstring) :
  10%N ∉ p ->
  split_lines_go cur (p ++ rest) = split_lines_go (rev p ++ cur) rest.
Proof.
  revert cur. induction p as [|c p IH]; intros cur H; simpl; [done|].
  apply not_elem_of_cons in H as [Hc Hp].
  destruct (c =? 10)%N eqn:C; [apply N.eqb_eq in C; congruence|].
  rewrite IH by done. by rewrite <- app_assoc.
Qed.

(** X12.  Every prompt that [getPrompts] returns is not empty, has no
    line feed and neither starts nor ends with white space, so that
    trimming it changes nothing; there is no prompt at all exactly when
    the text is empty or white space only. *)
Theorem prompts_are_trimmed_lines :
  forall value : jsstring,
    Forall (fun p => p <> [] /\ (10%N ∉ p) /\ trim p = p
                     /\ (is_ws <$> head p) = Some false
                     /\ (is_ws <$> last p) = Some false)
      (getPrompts value)
    /\ (getPrompts value = [] <-> blank value = true).
Proof.
  intros value. split; [|apply getPrompts_nil].
  eapply Forall_impl; [apply getPrompts_lines|].
  intros p (Hne & Ht & Hlf). repeat split; try done.
  - pose proof (trim_start_clean (rev (trim_start p))) as C.
    unfold trim in Ht.
    assert (S : starts_clean p).
    { destruct (DownloadFacts.trim_start_suffix (rev (trim_start p))) as (ws & E & _).
      apply (f_equal (@rev N)) in E. rewrite rev_involutive, rev_app_distr, Ht in E.
      pose proof (trim_start_clean p) as C'. rewrite E in C'.
      by apply starts_clean_app in C'. }
    destruct p; [done|]. simpl in *. by rewrite S.
  - pose proof (trim_start_clean (rev (trim_start p))) as C.
    unfold trim in Ht. apply (f_equal (@rev N)) in Ht. rewrite rev_involutive in Ht.
    rewrite Ht in C. rewrite <- (rev_involutive p), last_rev.
    destruct (rev p) eqn:R; simpl in *.
    + apply (f_equal (@rev N)) in R. rewrite rev_involutive in R. done.
    + by rewrite C.
Qed.

(** X13.  A list of prompts written one per line, each of them not
    empty, without a line feed and with nothing to trim, is read back
    by [getPrompts] as it is; so reading the prompts, writing them one
    per line and reading again gives the same prompts. *)
Theorem prompts_are_read_back :
  forall ps : list jsstring,
    Forall prompt_line ps ->
    getPrompts (join [10%N] ps) = ps.
Proof.
  unfold getPrompts, split_lines.
  induction 1 as [|p ps (Hne & Ht & Hlf) Hps IH]; [reflexivity|].
  assert (Hp : nonempty (trim p) = true) by (rewrite Ht; by destruct p).
  destruct ps as [|q ps].
  - simpl. rewrite <- (app_nil_r p) at 1.
    rewrite split_lines_go_app by done. simpl.
    rewrite app_nil_r, rev_involutive, Hp, Ht. reflexivity.
  - change (join [10%N] (p :: q :: ps)) with (p ++ 10%N :: join [10%N] (q :: ps)).
    rewrite split_lines_go_app by done.
    cbn [split_lines_go N.eqb Pos.eqb]. rewrite app_nil_r, rev_involutive.
    cbn [map List.filter]. rewrite Hp, Ht. f_equal. exact IH.
Qed.

Lemma prompts_are_read_back_witness :
  getPrompts (join [10%N] (getPrompts (lit "  a cat" ++ [10%N] ++ lit " a dog  ")))
  = [lit "a cat"; lit "a dog"].
Proof.
  rewrite (prompts_are_read_back (getPrompts _)); [reflexivity|].
  apply getPrompts_lines.
Defined.

End PromptFacts.

(** ** What the popup stores and sends at a start *)

Module StartFacts.
Import Download Model Async Script System Scenarios Symbolic.
Import PopupFiles PromptFacts.

Lemma startQueue_none (t0 t1 : Z) (prompts names : list jsstring) (fm cm : jsstring) :
  Popup.startQueue t0 t1 prompts names fm cm = None <-> prompts = [] \/ names = [].
Proof.
  unfold Popup.startQueue.
  destruct prompts as [|p ps], names as [|n ns]; simpl; try tauto.
  split; [discriminate | intros [H|H]; discriminate].
Qed.

(** With its prompt in the metadata, [processTask] comes to ask for the
    file of the task. *)
Lemma processTask_asks_for_the_file (m : Mem) (md : TaskMetadata)
    (prompts : list jsstring) (a : jsstring) (i : Z) :
  metadata m = Some md -> md_promptList md = Some prompts ->
  0 <= i < md_totalTasks md -> prompts !! Z.to_nat i = Some a ->
  exists m' k,
    advance (processTask i) m = (m', SBlocked (WExec (XRequestFile i)) k)
    /\ flowBatchQueueState m' = flowBatchQueueState m.
Proof.
  intros Hm Hp Hi Ha. destruct m, md. cbn in *. subst.
  do 2 eexists. split; [big_step | reflexivity].
Qed.

End StartFacts.

(** ** The order of the files *)

Module OrderFacts.
Import Download Model Async Script System Scenarios Symbolic.
Import PopupFiles.

Lemma splice_at {A} (s d : nat) (items l : list A) :
  (s <= length l)%nat -> (d <= length l - s)%nat ->
  splice (Z.of_nat s) (Z.of_nat d) items l
  = (take d (drop s l), take s l ++ items ++ drop (s + d) l).
Proof.
  intros Hs Hd. unfold splice.
  rewrite (proj2 (Z.ltb_ge (Z.of_nat s) 0)) by lia.
  rewrite (Z.min_l (Z.of_nat s)) by lia.
  rewrite (Z.max_l (Z.of_nat d)) by lia.
  rewrite (Z.min_l (Z.of_nat d)) by lia.
  rewrite !Nat2Z.id. reflexivity.
Qed.

Lemma splice_out {A} (s : nat) (l : list A) :
  (s < length l)%nat ->
  splice (Z.of_nat s) 1 [] l = (take 1 (drop s l), take s l ++ drop (s + 1) l).
Proof. intros H. apply (splice_at s 1 [] l); lia. Qed.

Lemma splice_in {A} (s : nat) (x : A) (l : list A) :
  (s <= length l)%nat ->
  splice (Z.of_nat s) 0 [x] l = ([], take s l ++ x :: drop s l).
Proof.
  intros H. pose proof (splice_at s 0 [x] l H ltac:(lia)) as E.
  rewrite Nat.add_0_r in E. exact E.
Qed.

(** A start behind the end is the end, where nothing can be removed. *)
Lemma splice_behind {A} (start : Z) (d : nat) (items l : list A) :
  Z.of_nat (length l) <= start ->
  splice start (Z.of_nat d) items l = ([], l ++ items).
Proof.
  intros Hs. unfold splice.
  rewrite (proj2 (Z.ltb_ge start 0)) by lia.
  rewrite (Z.min_r start) by lia.
  rewrite (Z.max_l (Z.of_nat d)) by lia.
  rewrite Z.sub_diag, (Z.min_r (Z.of_nat d)) by lia.
  rewrite Nat2Z.id. change (Z.to_nat 0) with 0%nat.
  rewrite Nat.add_0_r, firstn_all, drop_all, app_nil_r. reflexivity.
Qed.

(** Within the array, [reorderFiles] takes the element out and puts it
    in at the target index of what is left. *)
Lemma reorderFiles_within {A} (undefined x : A) (i j : nat) (l : list A) :
  l !! i = Some x -> (j < length l)%nat ->
  reorderFiles undefined (Z.of_nat i) (Z.of_nat j) l
  = take j (delete i l) ++ x :: drop j (delete i l).
Proof.
  intros Hx Hj. pose proof (lookup_lt_Some _ _ _ Hx) as Hi.
  unfold reorderFiles.
  rewrite (splice_out i l) by lia. rewrite Nat.add_1_r, <- delete_take_drop.
  replace (take 1 (drop i l)) with [x].
  2:{ rewrite <- (take_drop_middle l i x Hx) at 1.
      rewrite drop_app_length'; [reflexivity|]. rewrite length_take. lia. }
  cbn [head default].
  assert (Hd : length (delete i l) = (length l - 1)%nat).
  { rewrite length_delete; [lia|]. by eexists. }
  rewrite (splice_in j x (delete i l)) by lia. reflexivity.
Qed.

Lemma delete_inserted {A} (x : A) (j : nat) (l : list A) :
  (j <= length l)%nat -> delete j (take j l ++ x :: drop j l) = l.
Proof.
  intros Hj. assert (L : length (take j l) = j) by (rewrite length_take; lia).
  rewrite delete_take_drop, take_app_length' by (symmetry; exact L).
  rewrite drop_app_ge by lia. rewrite L.
  replace (S j - j)%nat with 1%nat by lia.
  change (drop 1 (x :: drop j l)) with (drop j l). apply take_drop.
Qed.

Lemma lookup_inserted {A} (x : A) (j : nat) (l : list A) :
  (j <= length l)%nat -> (take j l ++ x :: drop j l) !! j = Some x.
Proof.
  intros Hj. rewrite lookup_app_r; rewrite length_take; [|lia].
  replace (j - j `min` length l)%nat with 0%nat by lia. reflexivity.
Qed.

(** X15.  For two indices within the list of files, [reorderFiles]
    gives a permutation of the list in which the file of the first
    index stands at the second index and the other files keep their
    order; moving it back gives the list as it was. *)
Theorem moved_file_lands_at_the_target :
  forall (A : Type) (undefined : A) (files : list A) (fromIndex toIndex : Z),
    0 <= fromIndex < Z.of_nat (length files) ->
    0 <= toIndex < Z.of_nat (length files) ->
    let moved := reorderFiles undefined fromIndex toIndex files in
    moved ≡ₚ files
    /\ moved !! Z.to_nat toIndex = files !! Z.to_nat fromIndex
    /\ delete (Z.to_nat toIndex) moved = delete (Z.to_nat fromIndex) files
    /\ reorderFiles undefined toIndex fromIndex moved = files.
Proof.
  intros A undefined files fromIndex toIndex Hf Ht moved. subst moved.
  rewrite <- (Z2Nat.id fromIndex), <- (Z2Nat.id toIndex) by lia.
  rewrite !Nat2Z.id.
  set (i := Z.to_nat fromIndex). set (j := Z.to_nat toIndex).
  assert (Hi : (i < length files)%nat) by lia.
  assert (Hj : (j < length files)%nat) by lia.
  destruct (lookup_lt_is_Some_2 files i Hi) as [x Hx].
  assert (Hd : length (delete i files) = (length files - 1)%nat).
  { rewrite length_delete; [lia|]. by eexists. }
  rewrite (reorderFiles_within undefined x i j files Hx Hj).
  set (rest := delete i files) in *.
  assert (Hjr : (j <= length rest)%nat) by lia.
  conjuncts.
  - rewrite <- Permutation_middle, take_drop. subst rest.
    symmetry. by apply delete_Permutation.
  - rewrite (lookup_inserted x j rest Hjr). by rewrite Hx.
  - apply delete_inserted, Hjr.
  - rewrite (reorderFiles_within undefined x j i).
    + rewrite (delete_inserted x j rest Hjr). subst rest.
      rewrite delete_take_drop.
      rewrite take_app_length' by (rewrite length_take; lia).
      rewrite drop_app_length' by (rewrite length_take; lia).
      by apply take_drop_middle.
    + apply lookup_inserted, Hjr.
    + rewrite length_app, length_take. cbn [length]. rewrite length_drop. lia.
Qed.

Lemma moved_file_lands_at_the_target_witness :
  reorderFiles 0 2 0 [10; 20; 30; 40] = [30; 10; 20; 40]
  /\ reorderFiles 0 0 2 (reorderFiles 0 2 0 [10; 20; 30; 40]) = [10; 20; 30; 40].
Proof.
  split; [reflexivity|].
  apply (moved_file_lands_at_the_target Z 0 [10; 20; 30; 40] 2 0); simpl; lia.
Defined.

(** X16.  [reorderFiles] does not test its indices: with a first index
    behind the end of the list no file is taken out and [undefined] is
    put in at the second index, so that the list grows by an entry
    that is no file.  [removeFile] tests its index and leaves the list
    as it is. *)
Theorem index_behind_the_end_inserts_undefined :
  forall (A : Type) (undefined : A) (files : list A) (fromIndex toIndex : Z),
    Z.of_nat (length files) <= fromIndex ->
    0 <= toIndex <= Z.of_nat (length files) ->
    reorderFiles undefined fromIndex toIndex files
    = take (Z.to_nat toIndex) files ++ undefined :: drop (Z.to_nat toIndex) files
    /\ reorderFiles undefined fromIndex toIndex files !! Z.to_nat toIndex
       = Some undefined
    /\ length (reorderFiles undefined fromIndex toIndex files) = S (length files)
    /\ removeFile fromIndex files = files.
Proof.
  intros A undefined files fromIndex toIndex Hf Ht.
  assert (E : reorderFiles undefined fromIndex toIndex files
              = take (Z.to_nat toIndex) files
                ++ undefined :: drop (Z.to_nat toIndex) files).
  { unfold reorderFiles.
    pose proof (splice_behind fromIndex 1 [] files Hf) as S1.
    change (Z.of_nat 1) with 1 in S1. rewrite S1, app_nil_r. cbn [head default].
    rewrite <- (Z2Nat.id toIndex) at 1 by lia.
    rewrite splice_in by lia. reflexivity. }
  rewrite E. conjuncts.
  - reflexivity.
  - apply lookup_inserted. lia.
  - rewrite length_app, length_take. cbn [length]. rewrite length_drop. lia.
  - unfold removeFile.
    rewrite (proj2 (Z.leb_le (Z.of_nat (length files)) fromIndex)) by lia.
    by rewrite orb_true_r.
Qed.

Lemma index_behind_the_end_inserts_undefined_witness :
  reorderFiles None 5 1 [Some 10; Some 20] = [Some 10; None; Some 20].
Proof.
  apply (index_behind_the_end_inserts_undefined (option Z) None
           [Some 10; Some 20] 5 1); simpl; lia.
Defined.

End OrderFacts.

(** ** The file cache of the popup *)

Module CacheFacts.
Import Download Model Async Script System Scenarios Symbolic.
Import PopupFiles.

Lemma lit_inj (s s' : string) : lit s = lit s' -> s = s'.
Proof.
  unfold lit. intros H.
  rewrite <- (string_of_list_ascii_of_string s), <- (string_of_list_ascii_of_string s').
  f_equal. revert H. generalize (list_ascii_of_string s) (list_ascii_of_string s').
  induction l as [|a l IH]; intros [|b l'] H; simpl in H; try discriminate; [done|].
  injection H as Hab Hl. f_equal; [|by apply IH].
  rewrite <- (ascii_N_embedding a), <- (ascii_N_embedding b). by f_equal.
Qed.

Lemma to_int_not_nil (z : Z) :
  Z.to_int z <> Decimal.Pos Decimal.Nil /\ Z.to_int z <> Decimal.Neg Decimal.Nil.
Proof.
  destruct z as [|p|p]; simpl; split; try discriminate;
    intros H; injection H; apply Unsigned.to_uint_nonnil.
Qed.

(** The decimal rendering tells the integers apart. *)
Lemma of_Z_inj (a b : Z) : of_Z a = of_Z b -> a = b.
Proof.
  unfold of_Z. intros H. apply lit_inj in H.
  apply to_int_inj.
  destruct (to_int_not_nil a) as [A1 A2], (to_int_not_nil b) as [B1 B2].
  pose proof (NilZero.isi _ A1 A2) as Ia. pose proof (NilZero.isi _ B1 B2) as Ib.
  rewrite H in Ia. rewrite Ia in Ib. by injection Ib.
Qed.

Lemma of_Z_nonempty (z : Z) : of_Z z <> [].
Proof.
  unfold of_Z, lit. destruct z as [|p|p]; simpl; try discriminate.
  pose proof (Unsigned.to_uint_nonnil p). by destruct (Pos.to_uint p).
Qed.

Lemma cache_key_inj (q : jsstring) (i j : Z) :
  cache_key q i = cache_key q j -> i = j.
Proof.
  unfold cache_key. intros H. apply app_inv_head, app_inv_head in H.
  by apply of_Z_inj.
Qed.

Lemma or_id_truthy (q : jsstring) (b : option jsstring) :
  q <> [] -> or_id (Some q) b = Some q /\ truthy_id (Some q) = Some q.
Proof. destruct q; [done|]. done. Qed.

(** What the loop of [preloadQueueFiles] leaves when every file it
    comes to can be read. *)
Lemma preload_from_spec (q : jsstring) (n i : nat) (p : Controller) :
  (forall j f, (i <= j < i + n)%nat -> currentFiles p !! j = Some f ->
     is_Some (file_data f)) ->
  exists cache,
    preload_from q i n p = (set_preloadedFiles cache p, Fulfilled)
    /\ (forall j f b, (i <= j < i + n)%nat -> currentFiles p !! j = Some f ->
          file_data f = Some b ->
          cache !! cache_key q (Z.of_nat j) = Some (entry_of (Z.of_nat j) f b))
    /\ (forall j, (j < i)%nat ->
          cache !! cache_key q (Z.of_nat j)
          = preloadedFiles p !! cache_key q (Z.of_nat j)).
Proof.
  revert i p. induction n as [|n IH]; intros i p R; simpl.
  - exists (preloadedFiles p). split; [by destruct p|]. split; [lia | done].
  - destruct (currentFiles p !! i) as [file|] eqn:F.
    2:{ exists (preloadedFiles p). split; [by destruct p|]. split; [|done].
        intros j f b Hj Hf. apply lookup_lt_Some in Hf.
        apply lookup_ge_None in F. lia. }
    destruct (R i file ltac:(lia) F) as [b0 D]. rewrite D.
    set (p' := set_preloadedFiles _ p).
    destruct (IH (S i) p') as (cache & E & In & Out).
    { intros j f Hj Hf. apply (R j f); [lia | exact Hf]. }
    exists cache. split; [rewrite E; by destruct p|]. split.
    + intros j f b Hj Hf Hb.
      destruct (decide (j = i)) as [->|Hne].
      * rewrite Out by lia. subst p'. cbn.
        rewrite lookup_insert. rewrite decide_True by done. congruence.
      * apply In; [lia | exact Hf | exact Hb].
    + intros j Hj. rewrite Out by lia. subst p'. cbn.
      apply lookup_insert_ne. intros K. apply cache_key_inj in K. lia.
Qed.

(** Without a [fileCacheDB] nothing is loaded. *)
Lemma loadStoredFileCache_clears (queueId : option jsstring) (p : Controller) :
  loadStoredFileCache queueId p = set_preloadedFiles ∅ p.
Proof. unfold loadStoredFileCache. by destruct (truthy_id queueId). Qed.

Lemma cached_entry_is_served (p : Controller) (q : jsstring) (i : Z) (e : Entry) :
  q <> [] -> popup_queueId p = Some q ->
  preloadedFiles p !! cache_key q i = Some e ->
  handleFileRequest i p = (p, FileData e from_cache).
Proof.
  intros Hq Hp He. destruct (or_id_truthy q None Hq) as [O T].
  unfold handleFileRequest, getStoredFileEntry.
  rewrite Hp, (proj1 (or_id_truthy q _ Hq)), T.
  rewrite (proj1 (or_id_truthy q _ Hq)), T, He. reflexivity.
Qed.

(** X17.  After [preloadQueueFiles] for the queue id of the popup, when
    the files can be read, a request for the file of an index below the
    number of tasks is answered from the cache with the name, type,
    size and data of the file that stands at this index in the list,
    and leaves the popup as it is. *)
Theorem preloaded_files_are_served_from_the_cache :
  forall (p : Controller) (queueId : jsstring) (taskCount : Z),
    queueId <> [] ->
    popup_queueId p = Some queueId ->
    Forall (fun f => is_Some (file_data f)) (currentFiles p) ->
    exists p1,
      preloadQueueFiles taskCount (Some queueId) p = (p1, Fulfilled)
      /\ currentFiles p1 = currentFiles p
      /\ forall (i : Z) (f : File),
           0 <= i < taskCount -> file_at i p = Some f ->
           exists b,
             file_data f = Some b
             /\ handleFileRequest i p1
                = (p1, FileData (entry_of i f b) from_cache).
Proof.
  intros p q n Hq Hp R.
  unfold preloadQueueFiles. rewrite (proj2 (or_id_truthy q None Hq)).
  destruct (preload_from_spec q (Z.to_nat n) 0 (set_preloadedFiles ∅ p))
    as (cache & E & In & _).
  { intros j f _ Hf. exact (Forall_lookup_1 _ _ _ _ R Hf). }
  eexists. split; [exact E|]. split; [reflexivity|].
  intros i f Hi Hf. unfold file_at in Hf.
  rewrite (proj2 (Z.ltb_ge i 0)) in Hf by lia.
  destruct (Forall_lookup_1 _ _ _ _ R Hf) as [b Hb].
  exists b. split; [exact Hb|].
  apply (cached_entry_is_served _ q); [exact Hq | exact Hp |].
  cbn. rewrite <- (Z2Nat.id i) at 1 2 by lia.
  apply In; [lia | exact Hf | exact Hb].
Qed.

Lemma preloaded_files_are_served_from_the_cache_witness :
  let f := mkFile (lit "1.png") (lit "image/png") 3 (Some (lit "AAAA")) in
  let p := mkController None (Some (lit "7")) [f] ∅ ui_idle in
  exists p1,
    preloadQueueFiles 1 (Some (lit "7")) p = (p1, Fulfilled)
    /\ handleFileRequest 0 p1 = (p1, FileData (entry_of 0 f (lit "AAAA")) from_cache).
Proof.
  intros f p.
  destruct (preloaded_files_are_served_from_the_cache p (lit "7") 1)
    as (p1 & E & _ & S); [discriminate | reflexivity | |].
  { repeat constructor. by eexists. }
  exists p1. split; [exact E|].
  destruct (S 0 f) as (b & Hb & H); [lia | reflexivity |].
  injection Hb as <-. exact H.
Defined.

(** A request that misses the cache, by cases on the file of the
    index. *)
Lemma missed_request (p : Controller) (q : jsstring) (i : Z) :
  q <> [] -> popup_queueId p = Some q ->
  preloadedFiles p !! cache_key q i = None ->
  handleFileRequest i p =
    match file_at i p with
    | None => (set_preloadedFiles ∅ p, InvalidIndex i)
    | Some f =>
        match file_data f with
        | None => (set_preloadedFiles ∅ p, ReadError)
        | Some b =>
            (set_preloadedFiles {[ cache_key q i := entry_of i f b ]} p,
             FileData (entry_of i f b) live)
        end
    end.
Proof.
  intros Hq Hp Hmiss.
  unfold handleFileRequest, getStoredFileEntry.
  rewrite Hp, (proj1 (or_id_truthy q _ Hq)), (proj2 (or_id_truthy q None Hq)).
  rewrite (proj1 (or_id_truthy q _ Hq)), (proj2 (or_id_truthy q None Hq)), Hmiss.
  cbv zeta. rewrite loadStoredFileCache_clears.
  cbn. rewrite ?lookup_empty.
  change (file_at i (set_preloadedFiles ∅ p)) with (file_at i p).
  destruct (file_at i p) as [f|]; [|reflexivity].
  destruct (file_data f) as [b|]; [|reflexivity].
  rewrite insert_empty. reflexivity.
Qed.

(** X18.  A request for a file that is not in the cache, while the
    popup has a queue id, empties the cache before the file is read
    from the list: an index without a file and a file that cannot be
    read are answered with an error, and a file that can be read is
    answered with its own data and is then the only entry of the
    cache, from which the same request is answered the next time. *)
Theorem missed_request_empties_the_cache :
  forall (p : Controller) (queueId : jsstring) (i : Z),
    queueId <> [] ->
    popup_queueId p = Some queueId ->
    preloadedFiles p !! cache_key queueId i = None ->
    let p1 := fst (handleFileRequest i p) in
    let response := snd (handleFileRequest i p) in
    currentFiles p1 = currentFiles p
    /\ match file_at i p with
       | None => response = InvalidIndex i /\ preloadedFiles p1 = ∅
       | Some f =>
           match file_data f with
           | None => response = ReadError /\ preloadedFiles p1 = ∅
           | Some b =>
               response = FileData (entry_of i f b) live
               /\ preloadedFiles p1 = {[ cache_key queueId i := entry_of i f b ]}
               /\ handleFileRequest i p1
                  = (p1, FileData (entry_of i f b) from_cache)
           end
       end.
Proof.
  intros p q i Hq Hp Hmiss p1 response. subst p1 response.
  pose proof (missed_request p q i Hq Hp Hmiss) as E.
  rewrite E.
  destruct (file_at i p) as [f|]; [|done].
  destruct (file_data f) as [b|]; [|done].
  cbn. conjuncts; try reflexivity.
  apply (cached_entry_is_served _ q); [exact Hq | exact Hp |].
  cbn. apply lookup_singleton_eq.
Qed.

Lemma missed_request_empties_the_cache_witness :
  let f := mkFile (lit "1.png") (lit "image/png") 3 (Some (lit "AAAA")) in
  let g := mkFile (lit "2.png") (lit "image/png") 3 (Some (lit "BBBB")) in
  let cache := {[ cache_key (lit "7") 0 := entry_of 0 f (lit "AAAA") ]} in
  let p := mkController None (Some (lit "7")) [f; g] cache ui_idle in
  preloadedFiles (fst (handleFileRequest 1 p))
  = {[ cache_key (lit "7") 1 := entry_of 1 g (lit "BBBB") ]}.
Proof.
  intros f g cache p.
  destruct (missed_request_empties_the_cache p (lit "7") 1) as (_ & H);
    [discriminate | reflexivity | by vm_compute |].
  exact (proj1 (proj2 H)).
Defined.

(** X24.  The popup answers a request with the file that stands at
    the index now.  With an empty cache, as the first status update of
    a run leaves it, after [reorderFiles] has moved a file from one
    index of the list to another, the request for the second index is
    answered with the moved file, read from the list. *)
Theorem moved_file_is_served_at_its_new_index :
  forall (p : Controller) (queueId : jsstring) (undefined f : File) (b : jsstring)
         (fromIndex toIndex : Z),
    queueId <> [] ->
    popup_queueId p = Some queueId ->
    preloadedFiles p = ∅ ->
    0 <= toIndex < Z.of_nat (length (currentFiles p)) ->
    file_at fromIndex p = Some f ->
    file_data f = Some b ->
    let moved :=
      set_currentFiles (reorderFiles undefined fromIndex toIndex (currentFiles p)) p in
    snd (handleFileRequest toIndex moved) = FileData (entry_of toIndex f b) live.
Proof.
  intros p q u f b i j Hq Hp Hc Hj Hf Hb moved. subst moved.
  unfold file_at in Hf. destruct (Z.ltb_spec i 0) as [|Hi]; [discriminate|].
  assert (Hat : file_at j (set_currentFiles (reorderFiles u i j (currentFiles p)) p)
                = Some f).
  { unfold file_at. rewrite (proj2 (Z.ltb_ge j 0)) by lia.
    unfold set_currentFiles. cbn [currentFiles].
    pose proof (OrderFacts.reorderFiles_within u f (Z.to_nat i) (Z.to_nat j) _ Hf
                  ltac:(lia)) as R.
    rewrite !Z2Nat.id in R by lia. rewrite R.
    apply OrderFacts.lookup_inserted.
    rewrite length_delete by (by eexists). lia. }
  rewrite (missed_request _ q j Hq); [| by destruct p | destruct p; cbn in *; by subst].
  rewrite Hat, Hb. reflexivity.
Qed.

Lemma moved_file_is_served_at_its_new_index_witness :
  let f := mkFile (lit "1.png") (lit "image/png") 3 (Some (lit "AAAA")) in
  let g := mkFile (lit "2.png") (lit "image/png") 3 (Some (lit "BBBB")) in
  let p := mkController None (Some (lit "7")) [f; g] ∅ ui_running in
  snd (handleFileRequest 0 (set_currentFiles (reorderFiles f 1 0 [f; g]) p))
  = FileData (entry_of 0 g (lit "BBBB")) live.
Proof.
  intros f g p.
  apply (moved_file_is_served_at_its_new_index p (lit "7") f g (lit "BBBB") 1 0);
    try reflexivity; [discriminate | simpl; lia].
Defined.

End CacheFacts.

(** ** The preloaded files and the first status update of a run *)

Module PreloadFacts.
Import Download Model Async Script System Scenarios Symbolic.
Import PopupFiles PromptFacts StartFacts CacheFacts.

(** Alone, the start handler sends two status updates: the state of the
    forced reset and the fresh state. *)
Lemma start_sends_two_status_updates (m : Mem) (q : option QueueState)
    (md : TaskMetadata) :
  exists c,
    solo 12 ok 0 (start_at m q md) = Some c
    /\ status_updates (events (mem c))
       = [reset_state q; fresh_state q md (now m + 800 + CLICK_DELAY)].
Proof.
  destruct m, md. unfold start_at. cbn.
  destruct q as [[]|]; cbn; forward.
  all: replace (Z.max 0 (now0 + 800 - now0)) with 800 by lia.
  all: replace (Z.max 0 (now0 + 800 + CLICK_DELAY - (now0 + 800)))
         with CLICK_DELAY by delays.
  all: eexists; split; reflexivity.
Qed.

(** X19.  Alone, the start handler ends 800 ms and [CLICK_DELAY]
    after the message, whatever is stored, with exactly two writes of
    the state: the stored state with [running = false], [paused =
    false] and no pending task, then the fresh state of the new run,
    which keeps of the old state the queue id alone.  The second and
    third test of the forced reset find nothing running and write
    nothing.  The script is then marked running with its pointer at 0,
    and the loop has been started. *)
Theorem start_handler_writes_twice :
  forall (m : Mem) (q : option QueueState) (md : TaskMetadata),
  exists c,
    solo 12 ok 0 (start_at m q md) = Some c
    /\ finished c 0 = true
    /\ now (mem c) = now m + 800 + CLICK_DELAY
    /\ status_updates (events (mem c))
       = [reset_state q; fresh_state q md (now m + 800 + CLICK_DELAY)]
    /\ stored c = Some (fresh_state q md (now m + 800 + CLICK_DELAY))
    /\ stored_queueId c = q ≫= queueId
    /\ queueRunning (mem c) = true
    /\ currentTaskPointer (mem c) = 0
    /\ metadata (mem c) = Some md
    /\ live_loops c = [WStorage].
Proof.
  intros m q md.
  destruct (start_sends_two_status_updates m q md) as (c & Run & Sent).
  destruct (Sequential.start_resets_then_stores_fresh_state m q md)
    as (c' & log & Run' & F & T & S & R & P & M & L & _).
  rewrite Run in Run'. injection Run' as <-.
  exists c. conjuncts; try done.
  unfold stored_queueId. rewrite S. reflexivity.
Qed.

Lemma clearPreloadedFiles_keeps (queueId : option jsstring) (p : Controller) :
  exists cache, clearPreloadedFiles queueId p = set_preloadedFiles cache p.
Proof.
  unfold clearPreloadedFiles.
  destruct (truthy_id _); [|exists (preloadedFiles p); by destruct p].
  destruct (bool_decide _); [by eexists|].
  exists (preloadedFiles p). by destruct p.
Qed.

(** X20.  [startQueue] of the popup preloads the files of all tasks
    under its new queue id and stores a state with this id.  The start
    handler of the content script then sends two status updates.  The
    first is the stored state with [running = false] and no pending
    task: on it the popup drops every preloaded file and shows the idle
    state, with the start button enabled.  After the second the popup
    shows the running state, and the cache is still empty, so that the
    files of the run are read again when they are asked for. *)
Theorem start_drops_the_preload :
  forall (m : Mem) (p : Controller) (t0 t1 : Z) (value fm cm : jsstring),
    blank value = false ->
    currentFiles p <> [] ->
    Forall (fun f => is_Some (file_data f)) (currentFiles p) ->
    exists p1 qs md c,
      startQueue_prepare t0 t1 value fm cm p = (p1, Some (qs, md))
      /\ (forall i, 0 <= i < md_totalTasks md ->
            is_Some (preloadedFiles p1 !! cache_key (of_Z t0) i))
      /\ solo 12 ok 0 (start_at m (Some qs) md) = Some c
      /\ status_updates (events (mem c))
         = [reset_state (Some qs);
            fresh_state (Some qs) md (now m + 800 + CLICK_DELAY)]
      /\ (let p2 :=
            handleStatusUpdate (Some (reset_state (Some qs)))
              (startQueue_sent true p1) in
          preloadedFiles p2 = ∅
          /\ uiState p2 = ui_idle
          /\ startDisabled (uiState p2) = false)
      /\ (let p3 :=
            receive (status_updates (events (mem c))) (startQueue_sent true p1) in
          preloadedFiles p3 = ∅
          /\ uiState p3 = ui_running
          /\ currentFiles p3 = currentFiles p).
Proof.
  intros m p t0 t1 value fm cm Hv Hf R.
  destruct p as [pqs pid files pre ui]. cbn in Hf, R.
  unfold startQueue_prepare. cbn [currentFiles setUIState].
  destruct (Popup.startQueue t0 t1 (getPrompts value) (map file_name _) fm cm)
    as [[qs md]|] eqn:S.
  2:{ apply startQueue_none in S as [S|S].
      - apply getPrompts_nil in S. congruence.
      - destruct files; [done | discriminate]. }
  unfold Popup.startQueue in S.
  destruct (Nat.min _ _) as [|k] eqn:M; [discriminate|].
  injection S as <- <-. cbn [md_totalTasks].
  match goal with |- context [clearPreloadedFiles ?a ?b] =>
    destruct (clearPreloadedFiles_keeps a b) as (c0 & ->) end.
  pose proof (of_Z_nonempty t0) as Hq.
  unfold preloadQueueFiles. rewrite (proj2 (or_id_truthy _ None Hq)).
  lazymatch goal with |- context [preload_from _ _ ?n ?x] =>
    destruct (preload_from_spec (of_Z t0) n 0%nat x) as (cache & E & In & _) end.
  { intros j f _ F. exact (Forall_lookup_1 _ _ _ _ R F). }
  rewrite E. clear E.
  lazymatch goal with |- context [Some (?qs, ?md)] =>
    destruct (start_sends_two_status_updates m (Some qs) md) as (c & Run & Sent) end.
  do 3 eexists. exists c.
  split; [reflexivity|]. split.
  { intros i Hi. cbn in Hi.
    assert (L : (Z.to_nat i < length files)%nat).
    { rewrite length_map in M. lia. }
    destruct (lookup_lt_is_Some_2 _ _ L) as [f F].
    destruct (Forall_lookup_1 _ _ _ _ R F) as [b Hb].
    cbn. rewrite <- (Z2Nat.id i) by lia.
    rewrite (In (Z.to_nat i) f b); [by eexists | lia | exact F | exact Hb]. }
  split; [exact Run|]. split; [exact Sent|].
  rewrite Sent.
  destruct (of_Z t0) as [|d ds] eqn:Q; [done|].
  unfold receive, handleStatusUpdate, updateUIFromState, clearPreloadedFiles.
  cbn. rewrite bool_decide_eq_true_2 by reflexivity.
  split; conjuncts; reflexivity.
Qed.

Lemma start_drops_the_preload_witness :
  let f := mkFile (lit "1.png") (lit "image/png") 3 (Some (lit "AAAA")) in
  let p := mkController None None [f] ∅ ui_idle in
  exists p1 sent,
    startQueue_prepare 7 8 (lit "a cat") text_to_video no_crop p = (p1, Some sent)
    /\ preloadedFiles p1 = {[ cache_key (lit "7") 0 := entry_of 0 f (lit "AAAA") ]}
    /\ preloadedFiles
         (handleStatusUpdate (Some (reset_state (Some (fst sent))))
            (startQueue_sent true p1)) = ∅.
Proof.
  intros f p.
  destruct (start_drops_the_preload (mem fresh) p 7 8 (lit "a cat") text_to_video no_crop)
    as (p1 & qs & md & c & E & _ & _ & _ & (D & _) & _).
  { reflexivity. }
  { discriminate. }
  { repeat constructor. by eexists. }
  exists p1, (qs, md). split; [exact E|].
  assert (E' := E). vm_compute in E'. injection E' as <- <- <-.
  split; [by vm_compute | exact D].
Defined.

(** The loop of [preloadQueueFiles] changes the cache alone, and is
    rejected exactly when it comes to a file that cannot be read. *)
Lemma preload_from_ends (q : jsstring) (n i : nat) (p : Controller) :
  (exists cache, fst (preload_from q i n p) = set_preloadedFiles cache p)
  /\ (snd (preload_from q i n p) = Rejected
      <-> exists j f, (i <= j < i + n)%nat /\ currentFiles p !! j = Some f
                      /\ file_data f = None).
Proof.
  revert i p. induction n as [|n IH]; intros i p; simpl.
  - split; [exists (preloadedFiles p); by destruct p|].
    split; [discriminate | intros (j & f & Hj & _); lia].
  - destruct (currentFiles p !! i) as [file|] eqn:F.
    2:{ split; [exists (preloadedFiles p); by destruct p|].
        split; [discriminate|]. intros (j & f & Hj & Hf & _).
        apply lookup_lt_Some in Hf. apply lookup_ge_None in F. lia. }
    destruct (file_data file) as [b|] eqn:D.
    2:{ split; [exists (preloadedFiles p); by destruct p|].
        split; [|done]. intros _. exists i, file. split; [lia | done]. }
    set (p' := set_preloadedFiles _ p).
    destruct (IH (S i) p') as ((cache & E) & R).
    split; [exists cache; rewrite E; by destruct p|].
    rewrite R. split.
    + intros (j & f & Hj & Hf & Hd). exists j, f. split; [lia | done].
    + intros (j & f & Hj & Hf & Hd). exists j, f.
      destruct (decide (j = i)) as [->|Hne]; [congruence|].
      split; [lia | done].
Qed.

(** X14.  [startQueue] of the popup stores nothing and sends no
    message exactly when the prompt text is blank, or no file is
    chosen, or one of the files of the tasks cannot be read; it then
    shows the idle state.  Otherwise the number of tasks is the smaller
    of the numbers of prompts and of files and at least 1, the state
    that is stored and the metadata agree on it and on the queue id,
    the metadata holds that many prompts and file names in their order,
    and for every index below it [processTask] of the content script
    finds a prompt that is not empty and comes to ask for the file of
    that index. *)
Theorem started_run_has_its_prompts :
  forall (t0 t1 : Z) (value fm cm : jsstring) (p : Controller),
    let files := currentFiles p in
    let n := Z.min (Z.of_nat (length (getPrompts value))) (Z.of_nat (length files)) in
    let r := startQueue_prepare t0 t1 value fm cm p in
    (snd r = None
     <-> blank value = true \/ files = []
         \/ exists (i : nat) (f : File),
              Z.of_nat i < n /\ files !! i = Some f /\ file_data f = None)
    /\ (snd r = None ->
        uiState (fst r) = ui_idle /\ popup_queueState (fst r) = popup_queueState p)
    /\ forall (qs : QueueState) (md : TaskMetadata),
         snd r = Some (qs, md) ->
         md_totalTasks md = n
         /\ 1 <= n
         /\ totalTasks qs = Some n
         /\ queueId qs = Some (md_queueId md)
         /\ popup_queueState (fst r) = Some qs
         /\ md_promptList md = Some (take (Z.to_nat n) (getPrompts value))
         /\ md_filenameList md = take (Z.to_nat n) (map file_name files)
         /\ forall (m : Mem) (i : Z),
              metadata m = Some md -> 0 <= i < n ->
              exists (a : jsstring) (m' : Mem) k,
                getPrompts value !! Z.to_nat i = Some a
                /\ a <> []
                /\ advance (processTask i) m
                   = (m', SBlocked (WExec (XRequestFile i)) k).
Proof.
  intros t0 t1 value fm cm p files n r. subst r.
  destruct p as [pqs pid fs pre ui]. cbn in files. subst files.
  unfold startQueue_prepare. cbn [currentFiles setUIState popup_queueId].
  destruct (Popup.startQueue t0 t1 (getPrompts value) (map file_name fs) fm cm)
    as [[qs0 md0]|] eqn:S.
  2:{ apply startQueue_none in S. rewrite getPrompts_nil in S.
      assert (S' : blank value = true \/ fs = []).
      { destruct S as [S|S]; [by left | right; by destruct fs]. }
      cbn. split; [|split; [done | discriminate]].
      split; [intros _; tauto | done]. }
  assert (N : blank value = false /\ fs <> []).
  { split.
    - destruct (blank value) eqn:B; [|done].
      assert (Popup.startQueue t0 t1 (getPrompts value) (map file_name fs) fm cm = None)
        by (apply startQueue_none; left; by apply getPrompts_nil).
      congruence.
    - intros ->.
      assert (Popup.startQueue t0 t1 (getPrompts value) (map file_name []) fm cm = None)
        by (apply startQueue_none; by right).
      congruence. }
  destruct N as [Nb Nf].
  unfold Popup.startQueue in S.
  destruct (Nat.min (length (getPrompts value)) (length (map file_name fs)))
    as [|k] eqn:M; [discriminate|].
  rewrite length_map in M.
  injection S as <- <-. cbn [md_totalTasks].
  match goal with |- context [clearPreloadedFiles ?a ?b] =>
    destruct (clearPreloadedFiles_keeps a b) as (c0 & ->) end.
  unfold preloadQueueFiles.
  rewrite (proj2 (or_id_truthy _ None (of_Z_nonempty t0))).
  rewrite Nat2Z.id.
  match goal with |- context [preload_from ?q 0%nat ?k' ?x] =>
    destruct (preload_from_ends q k' 0%nat x) as ((cache & E) & R);
    destruct (preload_from q 0%nat k' x) as [p1 e] eqn:P end.
  cbn [fst snd] in E, R. subst p1.
  assert (Hn : n = Z.of_nat (S k)) by (subst n; lia).
  destruct e.
  - (* every file was read *)
    cbn. split; [|split; [discriminate|]].
    + split; [discriminate|]. intros [B|[F|(i & f & Hi & Hf & Hd)]]; try congruence.
      assert (Rejected = Fulfilled); [|discriminate].
      symmetry. apply R. exists i, f. cbn. split; [lia | done].
    + intros qs md H. injection H as <- <-.
      cbn [md_totalTasks md_promptList md_filenameList totalTasks queueId md_queueId].
      rewrite Hn, Nat2Z.id.
      conjuncts; try reflexivity; try lia.
      intros m i Hm Hi.
      destruct (lookup_lt_is_Some_2 (getPrompts value) (Z.to_nat i)) as [a Ha]; [lia|].
      assert (Hne : a <> []).
      { exact (proj1 (Forall_lookup_1 _ _ _ _ (getPrompts_lines value) Ha)). }
      destruct (processTask_asks_for_the_file m _ (take (S k) (getPrompts value)) a i Hm)
        as (m' & k' & E' & _); [reflexivity | cbn; lia | |].
      { rewrite lookup_take_lt by lia. exact Ha. }
      exists a, m', k'. done.
  - (* a file could not be read *)
    cbn. split; [|split; [done | discriminate]].
    split; [|done]. intros _. right. right.
    destruct (proj1 R eq_refl) as (j & f & Hj & Hf & Hd).
    exists j, f. cbn in Hf. split; [lia | done].
Qed.

End PreloadFacts.

(** ** More on the names of downloads *)

Module NameFacts.
Import Download Model Async Script System Scenarios Symbolic.
Import Shapes DownloadFacts PopupFiles PromptFacts CacheFacts.

Lemma download_request_name_eq (taskIndex : Z) (prompt : option jsstring) (now : Z) :
  download_request_name taskIndex prompt now
  = of_Z (taskIndex + 1) ++ [underscore] ++ generatePromptSnippet prompt
      ++ [underscore] ++ of_Z now ++ lit ".mp4".
Proof. reflexivity. Qed.

Lemma replace_forbidden_id (s : jsstring) : free s -> replace_forbidden s = s.
Proof.
  induction 1 as [|c s Hc _ IH]; simpl; [done|]. by rewrite Hc, IH.
Qed.

(** A clean name is returned as it is. *)
Lemma sanitizeFilename_id (s : jsstring) : clean s -> sanitizeFilename (Some s) = s.
Proof.
  intros [F B]. rewrite sanitizeFilename_cases, B. by apply replace_forbidden_id.
Qed.

Lemma lit_String (a : ascii) (s : string) : lit (String a s) = N_of_ascii a :: lit s.
Proof. reflexivity. Qed.

Lemma digits_of_uint (d : Decimal.uint) :
  Forall (fun c => forbidden c = false /\ is_ws c = false)
    (lit (NilEmpty.string_of_uint d)).
Proof.
  induction d; cbn [NilEmpty.string_of_uint]; rewrite ?lit_String;
    constructor; try exact IHd; split; reflexivity.
Qed.

Lemma uint_digits (d : Decimal.uint) :
  Forall (fun c => forbidden c = false /\ is_ws c = false)
    (lit (NilZero.string_of_uint d)).
Proof.
  destruct d; try apply digits_of_uint.
  repeat constructor.
Qed.

Lemma of_Z_digits (z : Z) :
  Forall (fun c => forbidden c = false /\ is_ws c = false) (of_Z z).
Proof.
  unfold of_Z. destruct (Z.to_int z) as [d|d]; cbn [NilZero.string_of_int].
  - apply uint_digits.
  - rewrite lit_String. constructor; [split; reflexivity | apply uint_digits].
Qed.

Lemma solid_rev (s : jsstring) : solid s -> solid (rev s).
Proof. unfold solid. rewrite !Forall_forall. intros H c Hc. apply H. by apply elem_of_rev. Qed.

(** The pieces between runs of white space have no white space. *)
Lemma split_ws_go_solid (cur : jsstring) (skipping : bool) (s : jsstring) :
  solid cur -> Forall solid (split_ws_go cur skipping s).
Proof.
  revert cur skipping. induction s as [|c s IH]; intros cur skipping H; simpl.
  - constructor; [by apply solid_rev | constructor].
  - destruct (is_ws c) eqn:C.
    + destruct skipping; [by apply IH|].
      constructor; [by apply solid_rev | apply IH; constructor].
    + apply IH. by constructor.
Qed.

Lemma split_ws_go_length (cur : jsstring) (skipping : bool) (s : jsstring) :
  (1 <= length (split_ws_go cur skipping s))%nat.
Proof.
  revert cur skipping. induction s as [|c s IH]; intros cur skipping; simpl; [lia|].
  destruct (is_ws c); [destruct skipping|]; simpl; try apply IH.
  pose proof (IH [] true). lia.
Qed.

(** A string that is a single piece has no white space. *)
Lemma one_piece_solid (cur s : jsstring) :
  (length (split_ws_go cur false s) <= 1)%nat -> solid s.
Proof.
  revert cur. induction s as [|c s IH]; intros cur H; [constructor|].
  simpl in H. destruct (is_ws c) eqn:C.
  - simpl in H. pose proof (split_ws_go_length [] true s). lia.
  - constructor; [exact C | by apply (IH (c :: cur))].
Qed.

Lemma solid_join (ws : list jsstring) :
  Forall solid ws -> solid (join [underscore] ws).
Proof.
  induction 1 as [|w ws Hw Hws IH]; [constructor|].
  destruct ws as [|w' ws]; [exact Hw|].
  change (join [underscore] (w :: w' :: ws))
    with (w ++ [underscore] ++ join [underscore] (w' :: ws)).
  apply Forall_app. split; [exact Hw|]. constructor; [reflexivity | exact IH].
Qed.

Lemma solid_replace_forbidden (s : jsstring) : solid s -> solid (replace_forbidden s).
Proof.
  induction 1 as [|c s Hc _ IH]; simpl; constructor; [|exact IH].
  destruct (forbidden c); [reflexivity | exact Hc].
Qed.

Lemma solid_take (n : nat) (s : jsstring) : solid s -> solid (take n s).
Proof. apply Forall_take. Qed.

(** The snippet of a prompt has no white space. *)
Lemma snippet_solid (prompt : option jsstring) : solid (generatePromptSnippet prompt).
Proof.
  assert (N0 : solid no_prompt) by (repeat constructor).
  unfold generatePromptSnippet.
  destruct prompt as [[|c p]|]; try exact N0.
  set (t := trim (c :: p)).
  assert (S : solid (if (1 <? length (split_ws t))%nat
                     then join [underscore] (take 5 (split_ws t))
                     else slice0 15 t)).
  { destruct (1 <? length (split_ws t))%nat eqn:L.
    - apply solid_join, Forall_take, split_ws_go_solid. constructor.
    - apply Nat.ltb_ge in L. apply solid_take, (one_piece_solid []), L. }
  apply solid_replace_forbidden in S.
  destruct (replace_forbidden _); [exact N0 | exact S].
Qed.

Lemma solid_not_blank (s : jsstring) : s <> [] -> solid s -> blank s = false.
Proof. destruct s as [|c s]; [done|]. intros _ H. inversion H; subst. simpl. by rewrite H2. Qed.

Lemma request_name_parts (taskIndex : Z) (prompt : option jsstring) (now : Z) :
  free (download_request_name taskIndex prompt now)
  /\ solid (download_request_name taskIndex prompt now)
  /\ download_request_name taskIndex prompt now <> [].
Proof.
  rewrite download_request_name_eq.
  pose proof (of_Z_digits (taskIndex + 1)) as D1.
  pose proof (of_Z_digits now) as D2.
  pose proof (proj1 (snippet_free prompt)) as F.
  pose proof (snippet_solid prompt) as S.
  assert (E : free (lit ".mp4") /\ solid (lit ".mp4")) by (split; repeat constructor).
  split; [|split].
  - repeat (apply Forall_app; split); try (repeat constructor; fail);
      try exact F; try apply E.
    + eapply Forall_impl; [exact D1|]. by intros c [H _].
    + eapply Forall_impl; [exact D2|]. by intros c [H _].
  - repeat (apply Forall_app; split); try (repeat constructor; fail);
      try exact S; try apply E.
    + eapply Forall_impl; [exact D1|]. by intros c [_ H].
    + eapply Forall_impl; [exact D2|]. by intros c [_ H].
  - pose proof (of_Z_nonempty (taskIndex + 1)). by destruct (of_Z (taskIndex + 1)).
Qed.

(** X21.  [sanitizeFilename] returns a name that it would not change:
    sanitizing twice is sanitizing once, and a name without the nine
    characters that is not blank is returned as it is. *)
Theorem sanitizing_twice_changes_nothing :
  (forall name : option jsstring,
     sanitizeFilename (Some (sanitizeFilename name)) = sanitizeFilename name)
  /\ (forall s : jsstring, clean s -> sanitizeFilename (Some s) = s).
Proof.
  split.
  - intros name. apply sanitizeFilename_id, sanitizeFilename_clean.
  - apply sanitizeFilename_id.
Qed.

(** X22.  The name that [downloadVideo] makes for a download has no
    white space and none of the nine characters, whatever the prompt;
    [sanitizeFilename] of the background script returns it as it is,
    so that the file is downloaded under the name the content script
    made. *)
Theorem generated_name_is_kept :
  forall (taskIndex now : Z) (prompt : option jsstring),
    let name := download_request_name taskIndex prompt now in
    Forall (fun c => is_ws c = false) name
    /\ Forall (fun c => forbidden c = false) name
    /\ sanitizeFilename (Some name) = name
    /\ forall (c : N) (url : jsstring),
         download_api_filename (Some (c :: url)) (Some name) = Some name.
Proof.
  intros taskIndex now prompt name.
  destruct (request_name_parts taskIndex prompt now) as (F & S & N).
  assert (K : sanitizeFilename (Some name) = name).
  { apply sanitizeFilename_id. split; [exact F|]. by apply solid_not_blank. }
  repeat split; try done.
  intros c url. unfold download_api_filename.
  fold name. destruct name as [|d name'] eqn:E; [done|].
  cbn [or_default]. by rewrite K.
Qed.

End NameFacts.

(** ** The launcher and the popup agree on the page *)

Module PageFacts.
Import Download Model Async Script System Scenarios Symbolic.
Import Pages.

Lemma startsWith_app (a b s : jsstring) :
  startsWith (a ++ b) s = true -> includes b s = true.
Proof.
  revert s. induction a as [|c a IH]; intros s H.
  - destruct s; simpl in *; by rewrite H.
  - destruct s as [|d s]; [discriminate|]. simpl in H.
    apply andb_true_iff in H as [_ H]. apply IH in H.
    cbn [includes]. rewrite H. apply orb_true_r.
Qed.

(** X23.  Every tab that the launcher takes for a Flow page has a URL
    that the popup accepts when it sends a command; the page that the
    launcher opens is one of them.  The popup accepts more: it asks
    for the text labs.google/fx anywhere in the URL, the launcher for
    a URL that starts with https://labs.google/fx. *)
Theorem detected_pages_are_accepted :
  (forall url : option jsstring, detectActiveTab url = true -> accepted url = true)
  /\ detectActiveTab (Some FLOW_URL) = true
  /\ detectActiveTab None = false
  /\ accepted (Some (lit "http://labs.google/fx")) = true
  /\ detectActiveTab (Some (lit "http://labs.google/fx")) = false.
Proof.
  split; [|by vm_compute].
  intros [[|c s]|] H; try discriminate.
  unfold detectActiveTab in H. cbn [or_default] in H. unfold accepted.
  apply (startsWith_app (lit "https://") (lit "labs.google/fx")). exact H.
Qed.

End PageFacts.
